(** * Catalog-driven slot generator and reverse prompt parser

    A shallow embedding of
    - [auto_prompt/prompt_generator.py] (slot schema, catalog queries,
      randomization with locks and the two cross-slot passes, saved
      configurations),
    - [auto_prompt/nodes.py] (the [generate] entry point and the prompt
      assembler [_build_prompt_localized]),
    - [web/routes/parser.py] (the colour trie, the match indices and the
      reverse parser),
    - [web/routes/slots.py] (the two randomization routes),
    followed by the properties of the specification that concern them and
    by further properties of the code.

    Conventions of the embedding.
    - A Python [str] is a [string]; characters are 8-bit [ascii] values and the
      text is read as ASCII: [lower] folds [A-Z] only, and the white space of
      [strip], [split()] and the regular expression class [\s] is the ASCII
      white space of [str.isspace] (code points 9-13 and 28-32).
    - A Python [float] is the rational number it denotes ([Q]); comparisons
      and the ["%.1f"] formatting are exact on that value.  The library
      functions [float(...)], [round(..., 3)] and
      [difflib.SequenceMatcher.ratio], and the iteration order of a [set],
      are parameters of the development.
    - A call that can raise returns an [option] or an [outcome]: the
      [KeyError] of [randomize_slot] on an undeclared slot name, and the
      [TypeError] of [ColorTrie.find_prefix] on a text with the character
      [$] behind a colour word.
    - A [dict] whose iteration order matters is an association list in
      insertion order without repeated keys; [config.slots] and the parser's
      [results], which are only looked up and updated, are [gmap]s.
    - The global random generator is threaded explicitly as a state. *)

From Stdlib Require Import String Ascii List ZArith QArith Qabs Bool Lia DecimalString Sorted.
From stdpp Require Import base gmap strings list.

Local Open Scope string_scope.
Local Open Scope list_scope.
Local Set Warnings "-register-all".

(** ** Python string methods *)

Module PyStr.

(** [str.isspace] on one ASCII character. *)
Definition is_space (c : ascii) : bool :=
  let n := nat_of_ascii c in
  ((9 <=? n)%nat && (n <=? 13)%nat) || ((28 <=? n)%nat && (n <=? 32)%nat).

Definition lower_char (c : ascii) : ascii :=
  let n := nat_of_ascii c in
  if ((65 <=? n)%nat && (n <=? 90)%nat) then ascii_of_nat (n + 32) else c.

(** [s.lower()] *)
Fixpoint lower (s : string) : string :=
  match s with
  | EmptyString => EmptyString
  | String c s' => String (lower_char c) (lower s')
  end.

(** Truth value of a string: the empty string is false. *)
Definition truthy (s : string) : bool :=
  match s with EmptyString => false | String _ _ => true end.

(** Truth value of an optional string ([None] and [""] are false). *)
Definition truthy_opt (o : option string) : bool :=
  match o with Some s => truthy s | None => false end.

Fixpoint lstrip (s : string) : string :=
  match s with
  | EmptyString => EmptyString
  | String c s' => if is_space c then lstrip s' else s
  end.

Fixpoint rstrip (s : string) : string :=
  match s with
  | EmptyString => EmptyString
  | String c s' =>
      match rstrip s' with
      | EmptyString => if is_space c then EmptyString else String c EmptyString
      | r => String c r
      end
  end.

(** [s.strip()] *)
Definition strip (s : string) : string := rstrip (lstrip s).

(** [s.split(sep)] for a one-character separator: never the empty list. *)
Fixpoint split_on (sep : ascii) (s : string) : list string :=
  match s with
  | EmptyString => [EmptyString]
  | String c s' =>
      if Ascii.eqb c sep then EmptyString :: split_on sep s'
      else match split_on sep s' with
           | h :: t => String c h :: t
           | [] => [String c EmptyString]
           end
  end.

(** [s.split()]: maximal runs of non-space characters. *)
Fixpoint split_ws_go (cur : string) (s : string) : list string :=
  match s with
  | EmptyString => if truthy cur then [String.rev cur] else []
  | String c s' =>
      if is_space c
      then (if truthy cur then [String.rev cur] else []) ++ split_ws_go EmptyString s'
      else split_ws_go (String c cur) s'
  end.

Definition split_ws (s : string) : list string := split_ws_go EmptyString s.

(** [c in s] for a one-character [c]. *)
Fixpoint contains (c : ascii) (s : string) : bool :=
  match s with
  | EmptyString => false
  | String d s' => Ascii.eqb d c || contains c s'
  end.

(** [s.startswith(p)] *)
Fixpoint startswith (p s : string) : bool :=
  match p with
  | EmptyString => true
  | String a p' =>
      match s with
      | EmptyString => false
      | String b s' => Ascii.eqb a b && startswith p' s'
      end
  end.

(** [s.endswith(c)] for a one-character [c]. *)
Fixpoint endswith_char (c : ascii) (s : string) : bool :=
  match s with
  | EmptyString => false
  | String d EmptyString => Ascii.eqb d c
  | String _ s' => endswith_char c s'
  end.

(** [s[:-1]] *)
Fixpoint drop_last (s : string) : string :=
  match s with
  | EmptyString => EmptyString
  | String _ EmptyString => EmptyString
  | String c s' => String c (drop_last s')
  end.

(** [s[n:]] *)
Fixpoint drop (n : nat) (s : string) : string :=
  match n, s with
  | O, _ => s
  | S _, EmptyString => EmptyString
  | S n', String _ s' => drop n' s'
  end.

(** [s[:n]] *)
Fixpoint take (n : nat) (s : string) : string :=
  match n, s with
  | O, _ => EmptyString
  | S _, EmptyString => EmptyString
  | S n', String c s' => String c (take n' s')
  end.

(** [s.rfind(c)] for a one-character [c]; [None] stands for [-1]. *)
Fixpoint rfind (c : ascii) (s : string) : option nat :=
  match s with
  | EmptyString => None
  | String d s' =>
      match rfind c s' with
      | Some i => Some (S i)
      | None => if Ascii.eqb d c then Some O else None
      end
  end.

(** [sep.join(parts)] *)
Fixpoint join (sep : string) (parts : list string) : string :=
  match parts with
  | [] => EmptyString
  | [p] => p
  | p :: rest => p +:+ sep +:+ join sep rest
  end.

(** [re.sub(r'[\s\-_]+', '', s)]: every white-space character, hyphen and
    underscore is removed. *)
Fixpoint remove_separators (s : string) : string :=
  match s with
  | EmptyString => EmptyString
  | String c s' =>
      if is_space c || Ascii.eqb c "-"%char || Ascii.eqb c "_"%char
      then remove_separators s'
      else String c (remove_separators s')
  end.

End PyStr.

(** ** Dictionaries in insertion order *)

Fixpoint dict_get {V : Type} (k : string) (d : list (string * V)) : option V :=
  match d with
  | [] => None
  | (k', v) :: rest => if String.eqb k k' then Some v else dict_get k rest
  end.

Definition dict_has {V : Type} (k : string) (d : list (string * V)) : bool :=
  match dict_get k d with Some _ => true | None => false end.

(** [d.setdefault(k, []).append(v)] *)
Fixpoint dict_append {V : Type} (k : string) (v : V) (d : list (string * list V))
  : list (string * list V) :=
  match d with
  | [] => [(k, [v])]
  | (k', vs) :: rest =>
      if String.eqb k k' then (k', vs ++ [v]) :: rest
      else (k', vs) :: dict_append k v rest
  end.

(** The last element of a list that satisfies a test (a dict comprehension
    keeps the last value written under a key). *)
Fixpoint find_last {A : Type} (p : A -> bool) (l : list A) : option A :=
  match l with
  | [] => None
  | x :: rest =>
      match find_last p rest with
      | Some y => Some y
      | None => if p x then Some x else None
      end
  end.

(** ** Data model ([prompt_generator.py]) *)

(** One catalog item, as the JSON record is read: ["id"] is required,
    the other keys may be missing. *)
Record Item := {
  item_id : string;
  item_name : option string;
  item_name_i18n : option (list (string * string));
  item_category : option string;
  item_covers_legs : bool
}.

Record Catalog := {
  items : list Item;
  index_by_body_part : list (string * list string);
  index_by_category : list (string * list string)
}.

Record SlotConfig := {
  enabled : bool;
  locked : bool;
  value : option string;
  value_id : option string;
  color : option string;
  color_enabled : bool;
  weight : Q
}.

(** [SlotConfig()] *)
Definition default_SlotConfig : SlotConfig :=
  {| enabled := true; locked := false; value := None; value_id := None;
     color := None; color_enabled := false; weight := 1 |}.

(** [GeneratorConfig] without its metadata ([name], [created_at]). *)
Record GeneratorConfig := {
  slots : gmap string SlotConfig;
  color_mode : string;
  active_palette_id : option string;
  full_body_mode : bool
}.

Definition set_slots (config : GeneratorConfig) (m : gmap string SlotConfig)
  : GeneratorConfig :=
  {| slots := m; color_mode := color_mode config;
     active_palette_id := active_palette_id config;
     full_body_mode := full_body_mode config |}.

Definition set_full_body_mode (config : GeneratorConfig) (b : bool) : GeneratorConfig :=
  {| slots := slots config; color_mode := color_mode config;
     active_palette_id := active_palette_id config; full_body_mode := b |}.

Definition set_value (slot : SlotConfig) (v vid : option string) : SlotConfig :=
  {| enabled := enabled slot; locked := locked slot; value := v; value_id := vid;
     color := color slot; color_enabled := color_enabled slot; weight := weight slot |}.

Definition set_color (slot : SlotConfig) (c : option string) : SlotConfig :=
  {| enabled := enabled slot; locked := locked slot; value := value slot;
     value_id := value_id slot; color := c; color_enabled := true;
     weight := weight slot |}.

Definition set_enabled (slot : SlotConfig) (b : bool) : SlotConfig :=
  {| enabled := b; locked := locked slot; value := value slot;
     value_id := value_id slot; color := color slot;
     color_enabled := color_enabled slot; weight := weight slot |}.

Record SlotDef := {
  def_category : string;
  def_catalog : string;
  def_index_key : option string;
  def_has_color : bool
}.

Definition mkdef (cat catalog : string) (key : option string) (c : bool) : SlotDef :=
  {| def_category := cat; def_catalog := catalog; def_index_key := key;
     def_has_color := c |}.

(** [PromptGenerator.SLOT_DEFINITIONS], in declaration order. *)
Definition SLOT_DEFINITIONS : list (string * SlotDef) :=
  [ ("hair_style", mkdef "appearance" "hair" (Some "style") false);
    ("hair_length", mkdef "appearance" "hair" (Some "length") false);
    ("hair_color", mkdef "appearance" "hair" (Some "color") false);
    ("hair_texture", mkdef "appearance" "hair" (Some "texture") false);
    ("eye_color", mkdef "appearance" "eyes" (Some "color") false);
    ("eye_expression_quality", mkdef "appearance" "eyes" (Some "expression_quality") false);
    ("eye_shape", mkdef "appearance" "eyes" (Some "eye_shape") false);
    ("eye_pupil_state", mkdef "appearance" "eyes" (Some "pupil_state") false);
    ("eye_state", mkdef "appearance" "eyes" (Some "eye_state") false);
    ("eye_accessories", mkdef "appearance" "eyes" (Some "eye_accessories") false);
    ("body_type", mkdef "body" "body" (Some "body_type") false);
    ("height", mkdef "body" "body" (Some "height") false);
    ("skin", mkdef "body" "body" (Some "skin") false);
    ("age_appearance", mkdef "body" "body" (Some "age_appearance") false);
    ("special_features", mkdef "body" "body" (Some "special_features") false);
    ("expression", mkdef "expression" "expressions" None false);
    ("head", mkdef "clothing" "clothing" (Some "head") true);
    ("neck", mkdef "clothing" "clothing" (Some "neck") true);
    ("upper_body", mkdef "clothing" "clothing" (Some "upper_body") true);
    ("waist", mkdef "clothing" "clothing" (Some "waist") true);
    ("lower_body", mkdef "clothing" "clothing" (Some "lower_body") true);
    ("full_body", mkdef "clothing" "clothing" (Some "full_body") true);
    ("outerwear", mkdef "clothing" "clothing" (Some "outerwear") true);
    ("hands", mkdef "clothing" "clothing" (Some "hands") true);
    ("legs", mkdef "clothing" "clothing" (Some "legs") true);
    ("feet", mkdef "clothing" "clothing" (Some "feet") true);
    ("accessory", mkdef "clothing" "clothing" (Some "accessory") true);
    ("pose", mkdef "pose" "poses" None false);
    ("gesture", mkdef "pose" "poses" (Some "gesture") false);
    ("view_angle", mkdef "pose" "view_angles" None false);
    ("background", mkdef "background" "backgrounds" None false) ].

Definition slot_names : list string := map fst SLOT_DEFINITIONS.

(** The loaded generator: the catalogs by name (the ["colors"] file
    contributes [palettes], [individual_colors] and [color_i18n]). *)
Record PromptGenerator := {
  catalogs : list (string * Catalog);
  palettes : list (string * list string);
  individual_colors : list string;
  color_i18n : list (string * list (string * string))
}.

(** ** Catalog queries *)

(** [self.items_by_id.get(catalog_name, {}).get(item_id)]: the dict
    comprehension of [_load_catalogs] keeps the last item of an id. *)
Definition items_by_id (gen : PromptGenerator) (catalog_name i : string) : option Item :=
  match dict_get catalog_name (catalogs gen) with
  | Some c => find_last (fun it => String.eqb (item_id it) i) (items c)
  | None => None
  end.

(** [self.item_id_by_name.get(catalog_name, {}).get(name_key)] *)
Definition item_id_by_name (gen : PromptGenerator) (catalog_name key : string)
  : option string :=
  match dict_get catalog_name (catalogs gen) with
  | Some c =>
      option_map item_id
        (find_last (fun it =>
           match item_name it with
           | Some label =>
               PyStr.truthy label && String.eqb (PyStr.lower (PyStr.strip label)) key
           | None => false
           end) (items c))
  | None => None
  end.

(** [normalize_language] *)
Definition normalize_language (language : option string) : string :=
  let code := PyStr.lower (PyStr.strip
                (match language with
                 | Some l => if PyStr.truthy l then l else "en"
                 | None => "en"
                 end)) in
  if PyStr.startswith "zh" code then "zh" else "en".

(** [names.get(lang) or names.get("en")] followed by the test
    [isinstance(localized, str) and localized.strip()]. *)
Definition localized_of (names : list (string * string)) (lang : string) : option string :=
  let localized :=
    match dict_get lang names with
    | Some l => if PyStr.truthy l then Some l else dict_get "en" names
    | None => dict_get "en" names
    end in
  match localized with
  | Some l => if PyStr.truthy (PyStr.strip l) then Some l else None
  | None => None
  end.

(** [get_item_localized_name] *)
Definition get_item_localized_name (item : Item) (language : string) : string :=
  let lang := normalize_language (Some language) in
  let fallback :=
    match item_name item with Some n => n | None => item_id item end in
  match item_name_i18n item with
  | Some names =>
      match localized_of names lang with
      | Some l => l
      | None => fallback
      end
  | None => fallback
  end.

(** [localize_color_token] *)
Definition localize_color_token (gen : PromptGenerator) (color_token : option string)
  (language : string) : option string :=
  match color_token with
  | None => None
  | Some tok =>
      if negb (PyStr.truthy tok) then None
      else
        let lang := normalize_language (Some language) in
        match dict_get tok (color_i18n gen) with
        | Some names =>
            match localized_of names lang with
            | Some l => Some l
            | None => Some tok
            end
        | None => Some tok
        end
  end.

(** [get_slot_item_by_id] *)
Definition get_slot_item_by_id (gen : PromptGenerator) (slot_name : string)
  (i : option string) : option Item :=
  match i, dict_get slot_name SLOT_DEFINITIONS with
  | Some i', Some d =>
      if PyStr.truthy i' then items_by_id gen (def_catalog d) i' else None
  | _, _ => None
  end.

(** [resolve_slot_item] *)
Definition resolve_slot_item (gen : PromptGenerator) (slot_name : string)
  (vid vname : option string) : option Item :=
  match dict_get slot_name SLOT_DEFINITIONS with
  | None => None
  | Some d =>
      let catalog_name := def_catalog d in
      let by_name :=
        match vname with
        | Some n =>
            if PyStr.truthy n then
              match item_id_by_name gen catalog_name (PyStr.lower (PyStr.strip n)) with
              | Some mapped =>
                  if PyStr.truthy mapped then items_by_id gen catalog_name mapped
                  else None
              | None => None
              end
            else None
        | None => None
        end in
      match vid with
      | Some i =>
          if PyStr.truthy i then
            match items_by_id gen catalog_name i with
            | Some it => Some it
            | None => by_name
            end
          else by_name
      | None => by_name
      end
  end.

(** [resolve_slot_value_name] *)
Definition resolve_slot_value_name (gen : PromptGenerator) (slot_name : string)
  (vid vname : option string) (language : string) : option string :=
  match resolve_slot_item gen slot_name vid vname with
  | Some it => Some (get_item_localized_name it language)
  | None => None
  end.

(** [[items_map[id] for id in item_ids if id in items_map]] *)
Definition items_of_ids (gen : PromptGenerator) (catalog_name : string)
  (ids : list string) : list Item :=
  omap (items_by_id gen catalog_name) ids.

(** [get_slot_options] *)
Definition get_slot_options (gen : PromptGenerator) (slot_name : string) : list Item :=
  match dict_get slot_name SLOT_DEFINITIONS with
  | None => []
  | Some d =>
      let catalog_name := def_catalog d in
      match dict_get catalog_name (catalogs gen) with
      | None => []
      | Some catalog =>
          if String.eqb catalog_name "expressions" then items catalog
          else
            match def_index_key d with
            | None =>
                if String.eqb catalog_name "poses" && String.eqb slot_name "pose"
                then filter (fun it => item_category it <> Some "gesture") (items catalog)
                else items catalog
            | Some key =>
                let index :=
                  if String.eqb catalog_name "clothing"
                  then index_by_body_part catalog
                  else index_by_category catalog in
                items_of_ids gen catalog_name
                  (match dict_get key index with Some ids => ids | None => [] end)
            end
      end
  end.

(** [lower_body_id_covers_legs] *)
Definition lower_body_id_covers_legs (gen : PromptGenerator) (i : option string) : bool :=
  match get_slot_item_by_id gen "lower_body" i with
  | Some it => item_covers_legs it
  | None => false
  end.

(** ** Randomization engine *)

(** [create_default_config]: one fresh [SlotConfig()] per declared slot. *)
Definition create_default_config : GeneratorConfig :=
  {| slots := foldl (fun m n => <[n := default_SlotConfig]> m) ∅ slot_names;
     color_mode := "none"; active_palette_id := None; full_body_mode := true |}.

Section Randomization.

(** The state of Python's global [random] generator, and the draw
    [random._randbelow(n)]; [choice] reduces the draw modulo the length, so
    that every behaviour of an in-range generator is covered. *)
Variable rng : Type.
Variable randbelow : rng -> nat -> nat * rng.

Variable gen : PromptGenerator.

(** [random.choice(x :: rest)] *)
Definition choice {A : Type} (x : A) (rest : list A) (g : rng) : A * rng :=
  let (i, g') := randbelow g (S (length rest)) in
  (nth (i mod S (length rest)) (x :: rest) x, g').

(** [sample_slot] *)
Definition sample_slot (slot_name : string) (g : rng) : option Item * rng :=
  match get_slot_options gen slot_name with
  | [] => (None, g)
  | x :: rest => let (it, g') := choice x rest g in (Some it, g')
  end.

(** [sample_color_from_palette] *)
Definition sample_color_from_palette (palette_id : string) (g : rng)
  : option string * rng :=
  match dict_get palette_id (palettes gen) with
  | None => (None, g)
  | Some [] => (None, g)
  | Some (c :: rest) => let (x, g') := choice c rest g in (Some x, g')
  end.

(** [sample_random_color] *)
Definition sample_random_color (g : rng) : option string * rng :=
  match individual_colors gen with
  | [] =>
      let (x, g') :=
        choice "white" ["black"; "red"; "blue"; "pink"; "purple"; "green"; "yellow"] g in
      (Some x, g')
  | c :: rest => let (x, g') := choice c rest g in (Some x, g')
  end.

(** [randomize_slot].  [None] is the [KeyError] of
    [self.SLOT_DEFINITIONS[slot_name]], raised when a colour is requested
    for a slot name that the schema does not declare. *)
Definition randomize_slot (config : GeneratorConfig) (slot_name : string)
  (include_color : bool) (palette_id : option string) (g : rng)
  : option (GeneratorConfig * rng) :=
  let config :=
    match slots config !! slot_name with
    | Some _ => config
    | None => set_slots config (<[slot_name := default_SlotConfig]> (slots config))
    end in
  let slot := default default_SlotConfig (slots config !! slot_name) in
  if locked slot then Some (config, g)
  else
    let (item, g) := sample_slot slot_name g in
    let slot :=
      match item with
      | Some it =>
          set_value slot
            (Some (match item_name it with Some n => n | None => "" end))
            (Some (item_id it))
      | None => set_value slot None None
      end in
    if include_color then
      match dict_get slot_name SLOT_DEFINITIONS with
      | None => None
      | Some d =>
          if def_has_color d then
            if PyStr.truthy_opt palette_id
               && dict_has (default "" palette_id) (palettes gen)
            then
              let (c, g) := sample_color_from_palette (default "" palette_id) g in
              Some (set_slots config (<[slot_name := set_color slot c]> (slots config)), g)
            else if String.eqb (color_mode config) "random" then
              let (c, g) := sample_random_color g in
              Some (set_slots config (<[slot_name := set_color slot c]> (slots config)), g)
            else Some (set_slots config (<[slot_name := slot]> (slots config)), g)
          else Some (set_slots config (<[slot_name := slot]> (slots config)), g)
      end
    else Some (set_slots config (<[slot_name := slot]> (slots config)), g).

(** Clearing [value] and [value_id] of a slot that is present. *)
Definition clear_value (config : GeneratorConfig) (slot_name : string) : GeneratorConfig :=
  match slots config !! slot_name with
  | Some s => set_slots config (<[slot_name := set_value s None None]> (slots config))
  | None => config
  end.

(** [_apply_full_body_logic] *)
Definition _apply_full_body_logic (config : GeneratorConfig) : GeneratorConfig :=
  match slots config !! "full_body" with
  | Some fb =>
      if enabled fb && PyStr.truthy_opt (value fb) then
        foldl (fun cfg slot_name =>
                 match slots cfg !! slot_name with
                 | Some s => if locked s then cfg else clear_value cfg slot_name
                 | None => cfg
                 end)
              config ["upper_body"; "lower_body"]
      else config
  | None => config
  end.

(** [_apply_lower_body_leg_logic] *)
Definition _apply_lower_body_leg_logic (config : GeneratorConfig) : GeneratorConfig :=
  match slots config !! "lower_body", slots config !! "legs" with
  | Some lower, Some legs =>
      if negb (enabled lower) || negb (PyStr.truthy_opt (value_id lower)) then config
      else if lower_body_id_covers_legs gen (value_id lower)
           then clear_value config "legs"
           else config
  | _, _ => config
  end.

(** The loop of [randomize_all] over [SLOT_DEFINITIONS]. *)
Fixpoint randomize_each (names : list string) (config : GeneratorConfig)
  (include_color : bool) (palette_id : option string) (g : rng)
  : option (GeneratorConfig * rng) :=
  match names with
  | [] => Some (config, g)
  | slot_name :: rest =>
      match slots config !! slot_name with
      | Some s =>
          if locked s then randomize_each rest config include_color palette_id g
          else
            match randomize_slot config slot_name include_color palette_id g with
            | Some (config', g') => randomize_each rest config' include_color palette_id g'
            | None => None
            end
      | None =>
          match randomize_slot config slot_name include_color palette_id g with
          | Some (config', g') => randomize_each rest config' include_color palette_id g'
          | None => None
          end
      end
  end.

(** [randomize_all] *)
Definition randomize_all (config : GeneratorConfig) (include_color : bool)
  (palette_id : option string) (g : rng) : option (GeneratorConfig * rng) :=
  match randomize_each slot_names config include_color palette_id g with
  | Some (config, g) =>
      let config :=
        if full_body_mode config then _apply_full_body_logic config else config in
      Some (_apply_lower_body_leg_logic config, g)
  | None => None
  end.

End Randomization.

(** ** Prompt assembler ([nodes.py]) *)

(** Rounding a non-negative rational to the nearest integer, ties to even. *)
Definition round_half_even (q : Q) : Z :=
  let n := Qnum q in
  let d := Zpos (Qden q) in
  let fl := (n / d)%Z in
  let r := (n mod d)%Z in
  match (2 * r ?= d)%Z with
  | Lt => fl
  | Gt => (fl + 1)%Z
  | Eq => if Z.even fl then fl else (fl + 1)%Z
  end.

Definition decimal (z : Z) : string := NilZero.string_of_uint (N.to_uint (Z.to_N z)).

(** [f"{w:.1f}"] *)
Definition format_1f (w : Q) : string :=
  let tenths := round_half_even (Qabs w * 10) in
  (if (Qnum w <? 0)%Z then "-" else "")
  +:+ decimal (tenths / 10) +:+ "." +:+ decimal (tenths mod 10).

(** [slot_order] of [_build_prompt_localized]. *)
Definition slot_order : list string :=
  [ "hair_color"; "hair_length"; "hair_style"; "hair_texture";
    "eye_color"; "eye_expression_quality"; "eye_shape"; "eye_pupil_state";
    "eye_state"; "eye_accessories";
    "body_type"; "height"; "skin"; "age_appearance"; "special_features";
    "expression";
    "full_body"; "head"; "neck"; "upper_body"; "waist"; "lower_body";
    "outerwear"; "hands"; "legs"; "feet"; "accessory";
    "view_angle"; "pose"; "gesture";
    "background" ].

Section Assembler.

Variable gen : PromptGenerator.

(** The flag [lower_body_covers_legs] computed before the loop. *)
Definition prompt_lower_covers_legs (config : GeneratorConfig) : bool :=
  match slots config !! "lower_body" with
  | Some lower =>
      if enabled lower && PyStr.truthy_opt (value_id lower)
      then lower_body_id_covers_legs gen (value_id lower)
      else false
  | None => false
  end.

(** The three [continue] tests of the loop body that follow the lookup of
    the slot: [true] when the slot is skipped. *)
Definition slot_skipped (config : GeneratorConfig) (slot_name : string)
  (slot : SlotConfig) : bool :=
  (negb (enabled slot) || negb (PyStr.truthy_opt (value_id slot)))
  || (full_body_mode config
      && (String.eqb slot_name "upper_body" || String.eqb slot_name "lower_body")
      && match slots config !! "full_body" with
         | Some fb => enabled fb && PyStr.truthy_opt (value_id fb)
         | None => false
         end)
  || (String.eqb slot_name "legs" && prompt_lower_covers_legs config).

(** The localized item text of a slot that is emitted. *)
Definition slot_localized_name (slot_name : string) (slot : SlotConfig)
  (language : string) : string :=
  match resolve_slot_value_name gen slot_name (value_id slot) (value slot) language with
  | Some n =>
      if PyStr.truthy n then n
      else if PyStr.truthy_opt (value slot) then default "" (value slot)
           else default "" (value_id slot)
  | None =>
      if PyStr.truthy_opt (value slot) then default "" (value slot)
      else default "" (value_id slot)
  end.

(** The segment text before the weight is applied. *)
Definition slot_text (slot_name : string) (slot : SlotConfig) (language : string)
  : string :=
  let localized_name := slot_localized_name slot_name slot language in
  if color_enabled slot && PyStr.truthy_opt (color slot) then
    let color_text :=
      match localize_color_token gen (color slot) language with
      | Some t => if PyStr.truthy t then t else default "" (color slot)
      | None => default "" (color slot)
      end in
    color_text +:+ " " +:+ localized_name
  else localized_name.

(** One iteration of the loop: the appended part, or [None] on [continue]. *)
Definition slot_part (config : GeneratorConfig) (language : string)
  (slot_name : string) : option string :=
  match slots config !! slot_name with
  | None => None
  | Some slot =>
      if slot_skipped config slot_name slot then None
      else
        let prompt_part := slot_text slot_name slot language in
        if negb (Qeq_bool (weight slot) 1)
        then Some ("(" +:+ prompt_part +:+ ":" +:+ format_1f (weight slot) +:+ ")")
        else Some prompt_part
  end.

(** The list [parts] at the end of the loop. *)
Definition prompt_parts (config : GeneratorConfig) (language : string) : list string :=
  "1girl" :: omap (slot_part config language) slot_order.

(** [_build_prompt_localized] *)
Definition _build_prompt_localized (config : GeneratorConfig) (language : string)
  : string :=
  PyStr.join ", " (prompt_parts config language).

End Assembler.

Section Generate.

Variable rng : Type.
Variable randbelow : rng -> nat -> nat * rng.
(** [random.seed(seed)]: the generator state that an integer seed installs. *)
Variable seed_rng : Z -> rng.

Variable gen : PromptGenerator.

(** The keys of the [locks] dict of [generate], in its order. *)
Definition lock_order : list string :=
  [ "hair_style"; "hair_length"; "hair_color"; "hair_texture";
    "eye_color"; "eye_expression_quality"; "eye_shape"; "eye_pupil_state";
    "eye_state"; "eye_accessories";
    "body_type"; "height"; "skin"; "age_appearance"; "special_features";
    "expression";
    "head"; "neck"; "upper_body"; "waist"; "lower_body"; "full_body";
    "outerwear"; "hands"; "legs"; "feet"; "accessory";
    "pose"; "gesture"; "view_angle";
    "background" ].

(** The loop that disables the lower-body slots in upper-body mode. *)
Definition apply_upper_body_mode (config : GeneratorConfig) : GeneratorConfig :=
  foldl (fun cfg slot_name =>
           match slots cfg !! slot_name with
           | Some s => set_slots cfg (<[slot_name := set_enabled s false]> (slots cfg))
           | None => cfg
           end)
        config ["waist"; "lower_body"; "full_body"; "legs"; "feet"].

(** The loop that writes the lock strings; [locks slot_name] is the
    keyword argument [lock_<slot_name>]. *)
Definition apply_locks (locks : string -> string) (config : GeneratorConfig)
  : GeneratorConfig :=
  foldl (fun cfg slot_name =>
           let locked_value := locks slot_name in
           if PyStr.truthy locked_value && PyStr.truthy (PyStr.strip locked_value) then
             match slots cfg !! slot_name with
             | Some s =>
                 set_slots cfg
                   (<[slot_name := set_value s (Some (PyStr.strip locked_value))
                                              (Some (PyStr.strip locked_value))]>
                      (slots cfg))
             | None => cfg
             end
           else cfg)
        config lock_order.

(** [random.seed(seed)] as a transformer of the global generator state:
    the state it leaves depends on the seed alone. *)
Definition random_seed (seed : Z) (ambient : rng) : rng := seed_rng seed.

(** [RandomCharacterPromptNode.generate]: the prompt it returns and the
    state in which it leaves the global generator; [ambient] is the state
    of the global generator when the call is made.  [None] is an
    exception escaping from [randomize_all]. *)
Definition generate (ambient : rng) (seed : Z) (language palette : string)
  (full_body_mode upper_body_mode : bool) (prefix : string)
  (locks : string -> string) : option (string * rng) :=
  let g := random_seed seed ambient in
  let config := set_full_body_mode create_default_config full_body_mode in
  let palette_id := if String.eqb palette "none" then None else Some palette in
  let include_color := match palette_id with Some _ => true | None => false end in
  match randomize_all rng randbelow gen config include_color palette_id g with
  | None => None
  | Some (config, g) =>
      let config := if upper_body_mode then apply_upper_body_mode config else config in
      let config := apply_locks locks config in
      let prompt := _build_prompt_localized gen config language in
      let prompt :=
        if PyStr.truthy prefix && PyStr.truthy (PyStr.strip prefix)
        then PyStr.strip prefix +:+ ", " +:+ prompt
        else prompt in
      Some (prompt, g)
  end.

End Generate.

(** ** Colour trie ([parser.py]) *)

(** What a call does: it returns a value or raises an exception. *)
Inductive outcome (A : Type) : Type :=
| Returns (a : A)
| Raises.
Arguments Returns {A} a.
Arguments Raises {A}.

Definition bind {A B : Type} (o : outcome A) (k : A -> outcome B) : outcome B :=
  match o with
  | Returns a => k a
  | Raises => Raises
  end.

Module ColorTrie.

(** A node of the nested dict: the entry under the key ["$"] (the canonical
    colour of the word that ends here) and the child nodes under the
    one-character keys. *)
Inductive trie : Type :=
| Node (marker : option string) (children : list (ascii * trie)).

Definition marker (t : trie) : option string :=
  match t with Node m _ => m end.

Definition children (t : trie) : list (ascii * trie) :=
  match t with Node _ kids => kids end.

(** [ColorTrie()]: [self.root = {}] *)
Definition empty : trie := Node None [].

Fixpoint child_get (c : ascii) (kids : list (ascii * trie)) : option trie :=
  match kids with
  | [] => None
  | (c', t) :: rest => if Ascii.eqb c c' then Some t else child_get c rest
  end.

Fixpoint child_set (c : ascii) (t : trie) (kids : list (ascii * trie))
  : list (ascii * trie) :=
  match kids with
  | [] => [(c, t)]
  | (c', t') :: rest =>
      if Ascii.eqb c c' then (c', t) :: rest else (c', t') :: child_set c t rest
  end.

(** The loop of [insert] over the lowered word, then [node["$"] = canonical].
    A word that contains the character [$] would be stored under the marker
    key itself; such words are outside the model ([None]). *)
Fixpoint insert_go (chars : string) (canonical : string) (node : trie) : option trie :=
  match chars with
  | EmptyString => Some (Node (Some canonical) (children node))
  | String char rest =>
      if Ascii.eqb char "$"%char then None
      else
        let child := default empty (child_get char (children node)) in
        match insert_go rest canonical child with
        | Some child' => Some (Node (marker node) (child_set char child' (children node)))
        | None => None
        end
  end.

(** [insert(word, canonical)], with [canonical or word]. *)
Definition insert (word : string) (canonical : option string) (root : trie)
  : option trie :=
  insert_go (PyStr.lower word)
            (if PyStr.truthy_opt canonical then default "" canonical else word) root.

(** [i + 1 < len(text) and text[i + 1] == " "], on the text that follows
    position [i]. *)
Definition next_is_space (rest : string) : bool :=
  match rest with
  | String c _ => Ascii.eqb c " "%char
  | EmptyString => false
  end.

(** The loop of [find_prefix] once [node] is the string stored under a
    marker, which happens when the text has the character [$] where a word
    ends: the tests [in] are then substring tests, and an index into the
    string raises [TypeError]. *)
Definition find_prefix_str (canonical : string) (rest : string)
  (last_match : option (string * nat)) : outcome (option (string * nat)) :=
  if PyStr.contains "$"%char canonical && next_is_space rest then Raises
  else
    match rest with
    | EmptyString => Returns last_match
    | String c _ =>
        if PyStr.contains (PyStr.lower_char c) canonical then Raises
        else Returns last_match
    end.

(** The loop of [find_prefix] from position [i] on. *)
Fixpoint find_prefix_go (node : trie) (text : string) (i : nat)
  (last_match : option (string * nat)) : outcome (option (string * nat)) :=
  match text with
  | EmptyString => Returns last_match
  | String c rest =>
      let char := PyStr.lower_char c in
      if Ascii.eqb char "$"%char then
        match marker node with
        | None => Returns last_match
        | Some canonical => find_prefix_str canonical rest last_match
        end
      else
        match child_get char (children node) with
        | None => Returns last_match
        | Some child =>
            let last_match :=
              match marker child with
              | Some canonical =>
                  if next_is_space rest then Some (canonical, i + 2) else last_match
              | None => last_match
              end in
            find_prefix_go child rest (S i) last_match
        end
  end.

(** [find_prefix(text)] *)
Definition find_prefix (root : trie) (text : string) : outcome (option (string * nat)) :=
  find_prefix_go root text 0 None.

End ColorTrie.

(** ** Match indices *)

(** [PromptParser._normalize] *)
Definition _normalize (text : string) : string :=
  PyStr.remove_separators (PyStr.lower text).

(** The three name indices of a [PromptParser]. *)
Record Indices := {
  exact_index : list (string * list (string * string));
  normalized_index : list (string * list (string * string));
  word_index : list (string * list (string * string * string))
}.

Definition empty_indices : Indices :=
  {| exact_index := []; normalized_index := []; word_index := [] |}.

(** [_index_name] *)
Definition _index_name (name slot_name i : string) (idx : Indices) : Indices :=
  let name_lower := PyStr.strip (PyStr.lower name) in
  if negb (PyStr.truthy name_lower) then idx
  else
    let exact := dict_append name_lower (slot_name, i) (exact_index idx) in
    let normalized := _normalize name_lower in
    let norm :=
      if negb (String.eqb normalized name_lower)
      then dict_append normalized (slot_name, i) (normalized_index idx)
      else normalized_index idx in
    let words := PyStr.split_ws name_lower in
    let word :=
      if (1 <? length words)%nat then
        foldl (fun wi w =>
                 if (2 <? String.length w)%nat
                 then dict_append w (slot_name, i, name_lower) wi
                 else wi)
              (word_index idx) words
      else word_index idx in
    {| exact_index := exact; normalized_index := norm; word_index := word |}.

(** The body of the loop over the items of one slot. *)
Definition index_item (slot_name : string) (idx : Indices) (item : Item) : Indices :=
  if negb (PyStr.truthy (item_id item)) then idx
  else
    let name := default "" (item_name item) in
    let idx := if PyStr.truthy name then _index_name name slot_name (item_id item) idx
               else idx in
    foldl (fun idx (entry : string * string) =>
             let localized := snd entry in
             if PyStr.truthy localized && negb (String.eqb localized name)
             then _index_name localized slot_name (item_id item) idx
             else idx)
          idx (default [] (item_name_i18n item)).

(** The first loop of [_build_indices]: every slot of the schema in
    declaration order, every option of the slot. *)
Definition build_item_indices (gen : PromptGenerator) : Indices :=
  foldl (fun idx slot_name =>
           foldl (index_item slot_name) idx (get_slot_options gen slot_name))
        empty_indices slot_names.

(** The two colour loops of [_build_indices]. *)
Definition build_color_trie (gen : PromptGenerator) : option ColorTrie.trie :=
  let step (acc : option ColorTrie.trie) (word canonical : string) :=
    match acc with
    | Some t => ColorTrie.insert word (Some canonical) t
    | None => None
    end in
  let t1 := foldl (fun acc c => step acc c c) (Some ColorTrie.empty)
                  (individual_colors gen) in
  foldl (fun acc (entry : string * list (string * string)) =>
           foldl (fun acc (loc : string * string) =>
                    if PyStr.truthy (snd loc) then step acc (snd loc) (fst entry)
                    else acc)
                 acc (snd entry))
        t1 (color_i18n gen).

(** A constructed [PromptParser]. *)
Record PromptParser := {
  indices : Indices;
  color_trie : ColorTrie.trie
}.

(** [PromptParser(generator)] *)
Definition PromptParser_init (gen : PromptGenerator) : option PromptParser :=
  match build_color_trie gen with
  | Some t => Some {| indices := build_item_indices gen; color_trie := t |}
  | None => None
  end.

(** ** Reverse parser *)

(** A token of [_tokenize]: [{"text": ..., "weight": ...}]. *)
Record Token := { text : string; tok_weight : Q }.

(** One entry of [results]. *)
Record SlotResult := {
  res_value_id : string;
  res_color : option string;
  res_weight : Q;
  res_enabled : bool;
  res_confidence : Q
}.

(** The dict that [parse] returns. *)
Record ParseResult := {
  res_slots : gmap string SlotResult;
  unmatched : list string;
  matched_count : nat;
  total_tokens : nat;
  confidence : Q
}.

(** [skip_tokens] *)
Definition skip_tokens : list string := ["1girl"; "1boy"; "girl"; "boy"; "solo"].

Definition is_skip (t : string) : bool :=
  bool_decide (PyStr.lower t ∈ skip_tokens).

(** The tokens that [parse] considers: those that the skip list leaves. *)
Definition considered (tokens : list Token) : list Token :=
  List.filter (fun t => negb (is_skip (text t))) tokens.

(** Truth value of an optional list of matches ([None] and [[]] are false). *)
Definition has_matches {A : Type} (m : option (list A)) : bool :=
  match m with
  | Some (_ :: _) => true
  | _ => false
  end.

Section Parser.

(** [float(s)]: the value, or [None] for [ValueError]. *)
Variable py_float : string -> option Q.
(** [SequenceMatcher(None, a, b).ratio()] *)
Variable ratio : string -> string -> Q.
(** [round(m / t, 3)] of the float quotient of two counts. *)
Variable py_round3 : Q -> Q.
(** [list(s)] for a set [s] of candidates, given as a list of its elements
    without repetition: the iteration order of a Python set, which the
    language leaves open. *)
Variable set_order : list (string * string) -> list (string * string).

Variable parser : PromptParser.

(** The body of the loop of [_tokenize] for a part that is not empty. *)
Definition tokenize_part (part : string) : Token :=
  if PyStr.startswith "(" part && PyStr.endswith_char ")"%char part
     && PyStr.contains ":"%char part
  then
    let inner := PyStr.drop_last (PyStr.drop 1 part) in
    match PyStr.rfind ":"%char inner with
    | Some (S last_colon') =>
        let last_colon := S last_colon' in
        let item_part := PyStr.take last_colon inner in
        let weight_part := PyStr.drop (last_colon + 1) inner in
        match py_float weight_part with
        | Some w => {| text := item_part; tok_weight := w |}
        | None => {| text := part; tok_weight := 1 |}
        end
    | _ => {| text := part; tok_weight := 1 |}
    end
  else {| text := part; tok_weight := 1 |}.

(** [_tokenize] *)
Definition _tokenize (prompt : string) : list Token :=
  omap (fun part =>
          let part := PyStr.strip part in
          if negb (PyStr.truthy part) then None else Some (tokenize_part part))
       (PyStr.split_on ","%char prompt).

(** [_extract_color] *)
Definition _extract_color (t : string) : outcome (option string * string) :=
  bind (ColorTrie.find_prefix (color_trie parser) t)
       (fun result =>
          match result with
          | Some (c, prefix_len) => Returns (Some c, PyStr.strip (PyStr.drop prefix_len t))
          | None => Returns (None, t)
          end).

(** [_match_exact] *)
Definition _match_exact (t : string) : option (list (string * string)) :=
  dict_get (PyStr.lower t) (exact_index (indices parser)).

(** [_match_normalized] *)
Definition _match_normalized (t : string) : option (list (string * string)) :=
  dict_get (_normalize t) (normalized_index (indices parser)).

(** [set((slot, id) for slot, id, _ in word_matches)], as a list without
    repetition. *)
Definition candidate_set (word_matches : list (string * string * string))
  : list (string * string) :=
  remove_dups (map fst word_matches).

(** The loop of [_match_words]: [None] until a word longer than two
    characters is met, then the running intersection. *)
Definition match_words_candidates (words : list string)
  : option (list (string * string)) :=
  foldl (fun candidates word =>
           if (String.length word <=? 2)%nat then candidates
           else
             let word_matches :=
               default [] (dict_get word (word_index (indices parser))) in
             match candidates with
             | None => Some (candidate_set word_matches)
             | Some cs =>
                 Some (filter (fun c => c ∈ candidate_set word_matches) cs)
             end)
        None words.

(** [_match_words] *)
Definition _match_words (t : string) : option (list (string * string)) :=
  match match_words_candidates (PyStr.split_ws (PyStr.lower t)) with
  | Some (c :: cs) => Some (set_order (c :: cs))
  | _ => None
  end.

(** The loop of [_match_fuzzy]: the best candidates so far and their score. *)
Definition fuzzy_scan (text_lower : string) (threshold : Q)
  (entries : list (string * list (string * string)))
  : option (list (string * string)) * Q :=
  foldl (fun (best : option (list (string * string)) * Q)
             (entry : string * list (string * string)) =>
           let score := ratio text_lower (fst entry) in
           if negb (Qle_bool score (snd best)) && Qle_bool threshold score
           then (Some (snd entry), score)
           else best)
        (None, 0%Q) entries.

(** [_match_fuzzy] with its default threshold. *)
Definition _match_fuzzy (t : string) : option (list (string * string) * Q) :=
  let (best_matches, best_score) :=
    fuzzy_scan (PyStr.lower t) (85 # 100) (exact_index (indices parser)) in
  match best_matches with
  | Some (m :: ms) => Some (m :: ms, best_score)
  | _ => None
  end.

(** The four matching strategies of [parse] for one token text: the
    matches and the confidence left in the two local variables. *)
Definition match_cascade (use_fuzzy : bool) (item_text : string)
  : option (list (string * string)) * Q :=
  let matches := _match_exact item_text in
  let confidence := 1%Q in
  let (matches, confidence) :=
    if negb (has_matches matches) then (_match_normalized item_text, 95 # 100)
    else (matches, confidence) in
  let (matches, confidence) :=
    if negb (has_matches matches) then (_match_words item_text, 85 # 100)
    else (matches, confidence) in
  if negb (has_matches matches) && use_fuzzy && (3 <? String.length item_text)%nat
  then
    match _match_fuzzy item_text with
    | Some (m, c) => (Some m, c)
    | None => (matches, confidence)
    end
  else (matches, confidence).

(** The state of the loop of [parse]. *)
Record ParseState := {
  st_results : gmap string SlotResult;
  st_unmatched : list string;
  st_matched_count : nat
}.

Definition initial_state : ParseState :=
  {| st_results := ∅; st_unmatched := []; st_matched_count := 0 |}.

(** The first candidate whose slot is not in [results]. *)
Fixpoint first_unassigned (results : gmap string SlotResult)
  (matches : list (string * string)) : option (string * string) :=
  match matches with
  | [] => None
  | (slot_name, i) :: rest =>
      match results !! slot_name with
      | None => Some (slot_name, i)
      | Some _ => first_unassigned results rest
      end
  end.

(** [SLOT_DEFINITIONS.get(slot_name, {}).get("has_color", False)] *)
Definition slot_has_color (slot_name : string) : bool :=
  match dict_get slot_name SLOT_DEFINITIONS with
  | Some d => def_has_color d
  | None => false
  end.

(** The assignment of one token, given its colour, its matches and the
    confidence of the strategy that produced them. *)
Definition assign (st : ParseState) (token : Token) (c : option string)
  (matches : option (list (string * string))) (conf : Q) : ParseState :=
  if has_matches matches then
    match first_unassigned (st_results st) (default [] matches) with
    | Some (slot_name, i) =>
        {| st_results :=
             <[slot_name :=
                 {| res_value_id := i;
                    res_color := if slot_has_color slot_name then c else None;
                    res_weight := tok_weight token;
                    res_enabled := true;
                    res_confidence := conf |}]> (st_results st);
           st_unmatched := st_unmatched st;
           st_matched_count := S (st_matched_count st) |}
    | None =>
        {| st_results := st_results st;
           st_unmatched := st_unmatched st ++ [text token];
           st_matched_count := st_matched_count st |}
    end
  else
    {| st_results := st_results st;
       st_unmatched := st_unmatched st ++ [text token];
       st_matched_count := st_matched_count st |}.

(** One iteration of the loop of [parse]. *)
Definition parse_token (use_fuzzy : bool) (st : ParseState) (token : Token)
  : outcome ParseState :=
  if is_skip (text token) then Returns st
  else
    bind (_extract_color (text token))
         (fun (ct : option string * string) =>
            let (matches, conf) := match_cascade use_fuzzy (snd ct) in
            Returns (assign st token (fst ct) matches conf)).

(** The loop of [parse]. *)
Fixpoint parse_tokens (use_fuzzy : bool) (st : ParseState) (tokens : list Token)
  : outcome ParseState :=
  match tokens with
  | [] => Returns st
  | token :: rest =>
      bind (parse_token use_fuzzy st token)
           (fun st' => parse_tokens use_fuzzy st' rest)
  end.

(** The summary that [parse] computes after the loop. *)
Definition summarize (st : ParseState) : ParseResult :=
  let total := (st_matched_count st + length (st_unmatched st))%nat in
  {| res_slots := st_results st;
     unmatched := st_unmatched st;
     matched_count := st_matched_count st;
     total_tokens := total;
     confidence :=
       if (0 <? total)%nat
       then py_round3 (Z.of_nat (st_matched_count st) # Pos.of_nat total)
       else 0 |}.

(** [PromptParser.parse] *)
Definition parse (prompt : string) (use_fuzzy : bool) : outcome ParseResult :=
  bind (parse_tokens use_fuzzy initial_state (_tokenize prompt))
       (fun st => Returns (summarize st)).

End Parser.

(** What the loop of [_match_fuzzy] holds after the entries [seen]: no best
    match and no entry at the threshold, or the matches of an entry whose
    score is at the threshold and is the highest seen. *)
Definition fuzzy_invariant (ratio : string -> string -> Q) (text_lower : string)
  (threshold : Q) (seen : list (string * list (string * string)))
  (best : option (list (string * string)) * Q) : Prop :=
  (fst best = None /\ snd best = 0%Q
   /\ forall k m, In (k, m) seen -> ~ (threshold <= ratio text_lower k)%Q)
  \/ (exists k m, fst best = Some m /\ In (k, m) seen
                  /\ snd best = ratio text_lower k
                  /\ (threshold <= snd best)%Q
                  /\ forall k' m', In (k', m') seen ->
                                   (ratio text_lower k' <= snd best)%Q).

(** The order of the Slot Schema: [a] is declared no later than [b]. *)
Definition schema_le (a b : string) : Prop :=
  exists i j, (i <= j)%nat /\ slot_names !! i = Some a /\ slot_names !! j = Some b.

(** Every candidate list of an index is in schema order and names slots of
    [seen] only. *)
Definition index_sorted (seen : list string)
  (d : list (string * list (string * string))) : Prop :=
  forall key cands,
    In (key, cands) d ->
    StronglySorted schema_le (map fst cands)
    /\ Forall (fun s => In s seen) (map fst cands).

Definition indices_sorted (seen : list string) (idx : Indices) : Prop :=
  index_sorted seen (exact_index idx) /\ index_sorted seen (normalized_index idx).

(** The node reached from [t] along the characters of [w]. *)
Fixpoint trie_walk (t : ColorTrie.trie) (w : string) : option ColorTrie.trie :=
  match w with
  | EmptyString => Some t
  | String c rest =>
      match ColorTrie.child_get c (ColorTrie.children t) with
      | Some child => trie_walk child rest
      | None => None
      end
  end.

(** The canonical colour stored for the surface form [w], if [w] is one. *)
Definition trie_lookup (t : ColorTrie.trie) (w : string) : option string :=
  match trie_walk t w with
  | Some node => ColorTrie.marker node
  | None => None
  end.

(** An accepted match of [find_prefix]: a non-empty word the trie stores
    with canonical colour [c], followed in the text by a space, the prefix
    length [n] covering the word and the space. *)
Definition accepted_match (root : ColorTrie.trie) (t : string) (c : string) (n : nat)
  : Prop :=
  exists word rest,
    t = word +:+ " " +:+ rest /\ word <> ""
    /\ n = (String.length word + 1)%nat
    /\ trie_lookup root (PyStr.lower word) = Some c.

(** ** Notions of the round trip *)

(** The slots that [_build_prompt_localized] emits, in its order. *)
Definition emitted_slots (gen : PromptGenerator) (config : GeneratorConfig)
  : list (string * SlotConfig) :=
  omap (fun slot_name =>
          match slots config !! slot_name with
          | Some slot =>
              if slot_skipped gen config slot_name slot then None
              else Some (slot_name, slot)
          | None => None
          end)
       slot_order.

(** The segment of a text with a weight. *)
Definition weighted_segment (t : string) (w : Q) : string :=
  if negb (Qeq_bool w 1) then "(" +:+ t +:+ ":" +:+ format_1f w +:+ ")" else t.



(** The text, the segment and the readiness of one emitted slot. *)
Definition entry_text (gen : PromptGenerator) (language : string)
  (e : string * SlotConfig) : string :=
  slot_text gen (fst e) (snd e) language.

Definition entry_segment (gen : PromptGenerator) (language : string)
  (e : string * SlotConfig) : string :=
  weighted_segment (entry_text gen language e) (weight (snd e)).


(** ** The exact index as a table of names *)

(** The names under which [index_item] files an item: its name, then the
    localized names that differ from it. *)
Definition item_index_names (item : Item) : list string :=
  if negb (PyStr.truthy (item_id item)) then []
  else
    let name := default "" (item_name item) in
    (if PyStr.truthy name then [name] else [])
    ++ omap (fun entry : string * string =>
               if PyStr.truthy (snd entry) && negb (String.eqb (snd entry) name)
               then Some (snd entry) else None)
            (default [] (item_name_i18n item)).

(** The calls [_index_name(name, slot_name, item_id)] that [_build_indices]
    makes, in order. *)
Definition index_calls (gen : PromptGenerator) : list (string * (string * string)) :=
  flat_map (fun slot_name =>
              flat_map (fun item =>
                          map (fun n => (n, (slot_name, item_id item)))
                              (item_index_names item))
                       (get_slot_options gen slot_name))
           slot_names.

(** The key of a name in the exact index. *)
Definition exact_key (name : string) : string := PyStr.strip (PyStr.lower name).

(** The candidates that the calls file under a key. *)
Definition candidates_of (key : string) (calls : list (string * (string * string)))
  : list (string * string) :=
  omap (fun call : string * (string * string) =>
          if PyStr.truthy (exact_key (fst call)) && String.eqb key (exact_key (fst call))
          then Some (snd call) else None)
       calls.

(** ** What a randomization step leaves in a slot *)

(** The value of a slot after a draw: nothing when the slot has no options,
    the id and the name of one of its options otherwise. *)
Definition value_drawn (gen : PromptGenerator) (slot_name : string) (s' : SlotConfig)
  : Prop :=
  (value s' = None /\ value_id s' = None /\ get_slot_options gen slot_name = [])
  \/ exists it, In it (get_slot_options gen slot_name)
                /\ value_id s' = Some (item_id it)
                /\ value s' = Some (default "" (item_name it)).

(** The list from which [sample_random_color] draws. *)
Definition random_colors (gen : PromptGenerator) : list string :=
  match individual_colors gen with
  | [] => ["white"; "black"; "red"; "blue"; "pink"; "purple"; "green"; "yellow"]
  | l => l
  end.

(** The colour of a slot after [randomize_slot] has run on the state [s0]:
    drawn from the palette when one is named and known, else from the
    individual colours in colour mode ["random"], else left as it was. *)
Definition color_drawn (gen : PromptGenerator) (mode : string) (include_color : bool)
  (palette_id : option string) (slot_name : string) (s0 s' : SlotConfig) : Prop :=
  if include_color && slot_has_color slot_name then
    if PyStr.truthy_opt palette_id && dict_has (default "" palette_id) (palettes gen) then
      color_enabled s' = true
      /\ match color s' with
         | Some c => In c (default [] (dict_get (default "" palette_id) (palettes gen)))
         | None => default [] (dict_get (default "" palette_id) (palettes gen)) = []
         end
    else if String.eqb mode "random" then
      color_enabled s' = true /\ exists c, color s' = Some c /\ In c (random_colors gen)
    else color s' = color s0 /\ color_enabled s' = color_enabled s0
  else color s' = color s0 /\ color_enabled s' = color_enabled s0.

(** The state [s'] that [randomize_slot] leaves in an unlocked slot whose
    state was [s0]. *)
Definition slot_drawn (gen : PromptGenerator) (mode : string) (include_color : bool)
  (palette_id : option string) (slot_name : string) (s0 s' : SlotConfig) : Prop :=
  enabled s' = enabled s0 /\ locked s' = locked s0 /\ weight s' = weight s0
  /\ value_drawn gen slot_name s'
  /\ color_drawn gen mode include_color palette_id slot_name s0 s'.

(** ** The map of leg coverage ([prompt_generator.py]) *)

(** [d[k] = v]: the first writing of a key fixes its place, a later one
    replaces the value. *)
Fixpoint dict_set {V : Type} (k : string) (v : V) (d : list (string * V))
  : list (string * V) :=
  match d with
  | [] => [(k, v)]
  | (k', v') :: rest =>
      if String.eqb k k' then (k', v) :: rest else (k', v') :: dict_set k v rest
  end.

(** [get_lower_body_covers_legs_by_id] *)
Definition get_lower_body_covers_legs_by_id (gen : PromptGenerator)
  : list (string * bool) :=
  foldl (fun mapping item =>
           if negb (PyStr.truthy (item_id item)) then mapping
           else dict_set (item_id item) (item_covers_legs item) mapping)
        [] (get_slot_options gen "lower_body").

(** ** The configuration that [generate] assembles ([nodes.py]) *)

Section GenerateConfig.

Variable rng : Type.
Variable randbelow : rng -> nat -> nat * rng.
Variable seed_rng : Z -> rng.
Variable gen : PromptGenerator.

(** [generate] up to the call of [_build_prompt_localized]: the
    configuration after the randomization, the upper-body mode and the
    locks, with the state of the global generator. *)
Definition generate_config (ambient : rng) (seed : Z) (palette : string)
  (full_body_mode upper_body_mode : bool) (locks : string -> string)
  : option (GeneratorConfig * rng) :=
  let g := random_seed rng seed_rng seed ambient in
  let config := set_full_body_mode create_default_config full_body_mode in
  let palette_id := if String.eqb palette "none" then None else Some palette in
  let include_color := match palette_id with Some _ => true | None => false end in
  match randomize_all rng randbelow gen config include_color palette_id g with
  | None => None
  | Some (config, g) =>
      let config := if upper_body_mode then apply_upper_body_mode config else config in
      Some (apply_locks locks config, g)
  end.

(** The prefix that [generate] puts before the prompt. *)
Definition with_prefix (prefix prompt : string) : string :=
  if PyStr.truthy prefix && PyStr.truthy (PyStr.strip prefix)
  then PyStr.strip prefix +:+ ", " +:+ prompt
  else prompt.

End GenerateConfig.

(** Whether a lock string of [generate] takes effect. *)
Definition lock_given (locked_value : string) : bool :=
  PyStr.truthy locked_value && PyStr.truthy (PyStr.strip locked_value).

(** The slots that the upper-body mode of [generate] disables. *)
Definition upper_body_mode_slots : list string :=
  ["waist"; "lower_body"; "full_body"; "legs"; "feet"].

(** ** What the parser keeps about its results *)

(** An entry of [results] under the slot [slot_name], given the tokens
    that the loop of [parse] may have read: it is enabled, its confidence is
    at least 0.85, it has a colour only if the slot supports one, and its
    weight is that of one of the tokens. *)
Definition result_ok (tokens : list Token) (slot_name : string) (res : SlotResult)
  : Prop :=
  res_enabled res = true
  /\ (85 # 100 <= res_confidence res)%Q
  /\ (res_color res <> None -> slot_has_color slot_name = true)
  /\ exists token, In token tokens /\ is_skip (text token) = false
                   /\ res_weight res = tok_weight token.

(** ** The colour trie and the normalized index as tables *)

(** The calls [insert(word, canonical)] that [_build_indices] makes, in
    order: the individual colours, then the localized names that are not
    empty. *)
Definition color_inserts (gen : PromptGenerator) : list (string * string) :=
  map (fun c => (c, c)) (individual_colors gen)
  ++ flat_map (fun entry : string * list (string * string) =>
                 omap (fun loc : string * string =>
                         if PyStr.truthy (snd loc) then Some (snd loc, fst entry)
                         else None)
                      (snd entry))
              (color_i18n gen).

(** What [insert(word, canonical)] stores: [canonical or word]. *)
Definition stored_canonical (call : string * string) : string :=
  if PyStr.truthy (snd call) then snd call else fst call.

(** The candidates that the calls of [_index_name] file under a key of the
    normalized index: those of the names whose normalized form differs from
    the name itself. *)
Definition normalized_candidates_of (key : string)
  (calls : list (string * (string * string))) : list (string * string) :=
  omap (fun call : string * (string * string) =>
          let name_lower := exact_key (fst call) in
          if PyStr.truthy name_lower
             && negb (String.eqb (_normalize name_lower) name_lower)
             && String.eqb key (_normalize name_lower)
          then Some (snd call) else None)
       calls.

(** ** Saved configurations ([to_dict] and [from_dict]) *)

(** A value of the dicts that [to_dict] builds and [from_dict] reads. *)
Inductive pyval : Type :=
| PNone
| PBool (b : bool)
| PStr (s : string)
| PFloat (q : Q)
| PDict (d : list (string * pyval)).

Definition of_opt_str (o : option string) : pyval :=
  match o with Some s => PStr s | None => PNone end.

(** [SlotConfig.to_dict] *)
Definition SlotConfig_to_dict (s : SlotConfig) : list (string * pyval) :=
  [ ("enabled", PBool (enabled s));
    ("locked", PBool (locked s));
    ("value", of_opt_str (value s));
    ("value_id", of_opt_str (value_id s));
    ("color", of_opt_str (color s));
    ("color_enabled", PBool (color_enabled s));
    ("weight", PFloat (weight s)) ].

(** Readers of a field of a dataclass: the value under the key, the default
    of the field when the key is missing.  A dataclass stores whatever it is
    given; a value that has not the type of its field is outside the model
    ([None]). *)
Definition bool_field (k : string) (dflt : bool) (data : list (string * pyval))
  : option bool :=
  match dict_get k data with
  | None => Some dflt
  | Some (PBool b) => Some b
  | Some _ => None
  end.

Definition opt_str_field (k : string) (data : list (string * pyval))
  : option (option string) :=
  match dict_get k data with
  | None => Some None
  | Some PNone => Some None
  | Some (PStr s) => Some (Some s)
  | Some _ => None
  end.

Definition str_field (k : string) (dflt : string) (data : list (string * pyval))
  : option string :=
  match dict_get k data with
  | None => Some dflt
  | Some (PStr s) => Some s
  | Some _ => None
  end.

Definition float_field (k : string) (dflt : Q) (data : list (string * pyval))
  : option Q :=
  match dict_get k data with
  | None => Some dflt
  | Some (PFloat q) => Some q
  | Some _ => None
  end.

Definition SlotConfig_fields : list string :=
  ["enabled"; "locked"; "value"; "value_id"; "color"; "color_enabled"; "weight"].

(** [SlotConfig.from_dict]: the constructor called with the entries of
    [data] as keyword arguments.  [Raises] is the [TypeError] of a keyword
    that is not a field; [Returns None] is a value outside the model. *)
Definition SlotConfig_from_dict (data : list (string * pyval))
  : outcome (option SlotConfig) :=
  if negb (forallb (fun kv : string * pyval => bool_decide (fst kv ∈ SlotConfig_fields))
                   data)
  then Raises
  else
    Returns
      (match bool_field "enabled" true data, bool_field "locked" false data,
             opt_str_field "value" data, opt_str_field "value_id" data,
             opt_str_field "color" data, bool_field "color_enabled" false data,
             float_field "weight" 1 data with
       | Some e, Some l, Some v, Some vid, Some c, Some ce, Some w =>
           Some {| enabled := e; locked := l; value := v; value_id := vid;
                   color := c; color_enabled := ce; weight := w |}
       | _, _, _, _, _, _, _ => None
       end).

(** The metadata of a [GeneratorConfig]. *)
Record ConfigMeta := {
  meta_name : string;
  meta_created_at : option string
}.

(** [GeneratorConfig.to_dict]; [now] is [datetime.now().isoformat()], and
    the slots are listed in the order of the dict. *)
Definition GeneratorConfig_to_dict (now : string) (meta : ConfigMeta)
  (config : GeneratorConfig) : list (string * pyval) :=
  [ ("name", PStr (meta_name meta));
    ("created_at",
     PStr (if PyStr.truthy_opt (meta_created_at meta)
           then default "" (meta_created_at meta) else now));
    ("color_mode", PStr (color_mode config));
    ("active_palette_id", of_opt_str (active_palette_id config));
    ("full_body_mode", PBool (full_body_mode config));
    ("slots",
     PDict (map (fun kv : string * SlotConfig => (fst kv, PDict (SlotConfig_to_dict (snd kv))))
                (map_to_list (slots config)))) ].

(** The loop of [GeneratorConfig.from_dict] over the saved slots. *)
Definition slots_from_dict (items : list (string * pyval))
  : outcome (option (gmap string SlotConfig)) :=
  foldl (fun (acc : outcome (option (gmap string SlotConfig))) (kv : string * pyval) =>
           match acc with
           | Returns (Some m) =>
               match snd kv with
               | PDict slot_data =>
                   match SlotConfig_from_dict slot_data with
                   | Returns (Some s) => Returns (Some (<[fst kv := s]> m))
                   | Returns None => Returns None
                   | Raises => Raises
                   end
               | _ => Returns None
               end
           | other => other
           end)
        (Returns (Some ∅)) items.

(** [GeneratorConfig.from_dict] *)
Definition GeneratorConfig_from_dict (data : list (string * pyval))
  : outcome (option (ConfigMeta * GeneratorConfig)) :=
  match str_field "name" "Untitled" data, opt_str_field "created_at" data,
        str_field "color_mode" "none" data, opt_str_field "active_palette_id" data,
        bool_field "full_body_mode" true data with
  | Some n, Some created, Some mode, Some palette, Some fbm =>
      let items :=
        match dict_get "slots" data with
        | None => Some []
        | Some (PDict d) => Some d
        | Some _ => None
        end in
      match items with
      | Some d =>
          match slots_from_dict d with
          | Returns (Some m) =>
              Returns (Some ({| meta_name := n; meta_created_at := created |},
                             {| slots := m; color_mode := mode;
                                active_palette_id := palette; full_body_mode := fbm |}))
          | Returns None => Returns None
          | Raises => Raises
          end
      | None => Returns None
      end
  | _, _, _, _, _ => Returns None
  end.

(** ** The randomization routes of the web interface ([slots.py]) *)

(** One entry of the [results] of a route. *)
Record RouteResult := {
  rr_value_id : option string;
  rr_value : option string;
  rr_color : option string
}.

Section Routes.

Variable rng : Type.
Variable randbelow : rng -> nat -> nat * rng.
(** The generator of the module, with [sample_slot] and
    [sample_color_from_palette] as above. *)
Variable gen : PromptGenerator.

(** [item = gen.sample_slot(name)] with the two reads that follow:
    [item.get("id") if item else None] and [item.get("name") if item else
    None]. *)
Definition route_sample (name : string) (g : rng)
  : option string * option string * rng :=
  let (item, g) := sample_slot rng randbelow gen name g in
  match item with
  | Some it => (Some (item_id it), item_name it, g)
  | None => (None, None, g)
  end.

(** The colour of an entry: drawn from the palette when the slot supports a
    colour, palettes are enabled and a palette is named. *)
Definition route_color (name : string) (palette_enabled : bool)
  (palette_id : option string) (g : rng) : option string * rng :=
  if slot_has_color name then
    if palette_enabled && PyStr.truthy_opt palette_id
    then sample_color_from_palette rng randbelow gen (default "" palette_id) g
    else (None, g)
  else (None, g).

(** [req.locked.get(name, False)] *)
Definition route_locked (locked : gmap string bool) (name : string) : bool :=
  default false (locked !! name).

(** The state of the loop of a route: the results, the id of the full-body
    item that the override looks at, the random generator. *)
Definition RouteState : Type := gmap string RouteResult * option string * rng.

(** One iteration of the loop of [/randomize-all]. *)
Definition randomize_all_route_step (locked : gmap string bool) (palette_enabled : bool)
  (palette_id : option string) (st : RouteState) (name : string) : RouteState :=
  let '(results, full_body_value_id, g) := st in
  if route_locked locked name then st
  else
    let '(value_id, value, g) := route_sample name g in
    let full_body_value_id :=
      if String.eqb name "full_body" then value_id else full_body_value_id in
    let (color, g) := route_color name palette_enabled palette_id g in
    (<[name := {| rr_value_id := value_id; rr_value := value; rr_color := color |}]> results,
     full_body_value_id, g).

(** The full-body override that [/randomize-all] applies after its loop. *)
Definition route_full_body_override (locked : gmap string bool)
  (results : gmap string RouteResult) : gmap string RouteResult :=
  foldl (fun results name =>
           match results !! name with
           | Some r =>
               if negb (route_locked locked name)
               then <[name := {| rr_value_id := None; rr_value := None;
                                 rr_color := rr_color r |}]> results
               else results
           | None => results
           end)
        results ["upper_body"; "lower_body"].

(** The route [/randomize-all]: the [results] of the response. *)
Definition randomize_all_route (locked : gmap string bool) (palette_enabled : bool)
  (palette_id : option string) (full_body_mode : bool) (g : rng)
  : gmap string RouteResult * rng :=
  let '(results, full_body_value_id, g) :=
    foldl (randomize_all_route_step locked palette_enabled palette_id)
          (∅, None, g) slot_names in
  (if full_body_mode && PyStr.truthy_opt full_body_value_id
   then route_full_body_override locked results else results, g).

(** One iteration of the loop of [/randomize]. *)
Definition randomize_slots_route_step (locked : gmap string bool)
  (palette_enabled : bool) (palette_id : option string) (full_body_mode : bool)
  (st : RouteState) (name : string) : RouteState :=
  let '(results, full_body_value_id, g) := st in
  if negb (dict_has name SLOT_DEFINITIONS) then st
  else if route_locked locked name then st
  else
    let '(value_id, value, g) := route_sample name g in
    let full_body_value_id :=
      if String.eqb name "full_body" then value_id else full_body_value_id in
    let override :=
      full_body_mode
      && (String.eqb name "upper_body" || String.eqb name "lower_body")
      && PyStr.truthy_opt full_body_value_id in
    let value_id := if override then None else value_id in
    let value := if override then None else value in
    let (color, g) := route_color name palette_enabled palette_id g in
    (<[name := {| rr_value_id := value_id; rr_value := value; rr_color := color |}]> results,
     full_body_value_id, g).

(** The route [/randomize]: the [results] of the response;
    [current_full_body] is [req.current_values.get("full_body")]. *)
Definition randomize_slots_route (requested : list string) (locked : gmap string bool)
  (palette_enabled : bool) (palette_id : option string) (full_body_mode : bool)
  (current_full_body : option string) (g : rng) : gmap string RouteResult * rng :=
  let '(results, _, g) :=
    foldl (randomize_slots_route_step locked palette_enabled palette_id full_body_mode)
          (∅, current_full_body, g) requested in
  (results, g).

End Routes.

(** An entry of a route drawn for a slot: no value and no id when the
    slot has no options, else the id and the name of one of them; a colour
    only from the palette, and only for a slot with colour support when
    palettes are enabled and one is named. *)
Definition route_entry_ok (gen : PromptGenerator) (palette_enabled : bool)
  (palette_id : option string) (name : string) (r : RouteResult) : Prop :=
  ((rr_value_id r = None /\ rr_value r = None
    /\ get_slot_options gen name = [])
   \/ exists it, In it (get_slot_options gen name)
                 /\ rr_value_id r = Some (item_id it) /\ rr_value r = item_name it)
  /\ forall c, rr_color r = Some c ->
       slot_has_color name = true /\ palette_enabled = true
       /\ exists p colors, palette_id = Some p /\ PyStr.truthy p = true
                           /\ dict_get p (palettes gen) = Some colors /\ In c colors.

(** The invariant of the loop of [/randomize-all]: the id that the override
    looks at is the one of the [full_body] entry, and the entries are those of
    the unlocked names that the loop has processed. *)
Definition all_route_inv {rng : Type} (gen : PromptGenerator) (locked : gmap string bool)
  (palette_enabled : bool) (palette_id : option string)
  (processed : list string) (st : RouteState rng) : Prop :=
  snd (fst st) = (fst (fst st) !! "full_body") ≫= rr_value_id
  /\ forall n,
       match fst (fst st) !! n with
       | Some r =>
           In n processed /\ route_locked locked n = false
           /\ route_entry_ok gen palette_enabled palette_id n r
       | None => ~ In n processed \/ route_locked locked n = true
       end.

(** An entry [r] of [/randomize] for the slot [n], against what was drawn
    for it: the colour is the drawn one, and the entry is the drawn one or,
    in full-body mode and for [upper_body] and [lower_body] only, an entry
    without id and value.  As long as [full_body] itself has not been
    processed, the second case is decided by the current full-body id. *)
Definition slots_route_entry (gen : PromptGenerator) (palette_enabled : bool)
  (palette_id : option string) (full_body_mode : bool)
  (current_full_body : option string) (full_body_processed : Prop)
  (n : string) (r : RouteResult) : Prop :=
  exists drawn,
    route_entry_ok gen palette_enabled palette_id n drawn
    /\ rr_color r = rr_color drawn
    /\ (r = drawn
        \/ (full_body_mode = true /\ (n = "upper_body" \/ n = "lower_body")
            /\ rr_value_id r = None /\ rr_value r = None))
    /\ (~ full_body_processed ->
        if full_body_mode
           && (String.eqb n "upper_body" || String.eqb n "lower_body")
           && PyStr.truthy_opt current_full_body
        then rr_value_id r = None /\ rr_value r = None
        else r = drawn).

(** The invariant of the loop of [/randomize]. *)
Definition slots_route_inv {rng : Type} (gen : PromptGenerator) (locked : gmap string bool)
  (palette_enabled : bool) (palette_id : option string) (full_body_mode : bool)
  (current_full_body : option string)
  (processed : list string) (st : RouteState rng) : Prop :=
  (~ In "full_body" processed -> snd (fst st) = current_full_body)
  /\ forall n,
       match fst (fst st) !! n with
       | Some r =>
           In n processed /\ In n slot_names /\ route_locked locked n = false
           /\ slots_route_entry gen palette_enabled palette_id full_body_mode
                current_full_body (In "full_body" processed) n r
       | None =>
           ~ In n processed \/ ~ In n slot_names \/ route_locked locked n = true
       end.

(** The words under which [_index_name] files a name in the word index:
    the words longer than two characters of a name of several words. *)
Definition index_words (name : string) : list string :=
  let name_lower := exact_key name in
  let words := PyStr.split_ws name_lower in
  if PyStr.truthy name_lower && (1 <? length words)%nat
  then List.filter (fun w => (2 <? String.length w)%nat) words
  else [].

(** ** Reference instances and sample data

    The library functions that the development is parameterised by are
    instantiated here for the concrete evaluations below. *)

Module Sample.

(** A counter as random generator: the n-th draw returns n. *)
Definition counter_randbelow (g : nat) (n : nat) : nat * nat := (g, S g).
Definition counter_seed (seed : Z) : nat := Z.to_nat seed.

Definition digit_value (c : ascii) : option Z :=
  let n := nat_of_ascii c in
  if ((48 <=? n)%nat && (n <=? 57)%nat) then Some (Z.of_nat (n - 48)) else None.

(** The digits of a string as a number, with the power of ten of its length. *)
Fixpoint digits_go (s : string) (acc : Z) (scale : positive) : option (Z * positive) :=
  match s with
  | EmptyString => Some (acc, scale)
  | String c rest =>
      match digit_value c with
      | Some d => digits_go rest (10 * acc + d)%Z (10 * scale)%positive
      | None => None
      end
  end.

(** [float] on the plain decimal literals [ddd] and [ddd.ddd]; every other
    string is refused. *)
Definition decimal_float (s : string) : option Q :=
  match PyStr.split_on "."%char s with
  | [int_part] =>
      if PyStr.truthy int_part then
        match digits_go int_part 0 1 with
        | Some (n, _) => Some (n # 1)
        | None => None
        end
      else None
  | [int_part; frac_part] =>
      if PyStr.truthy int_part && PyStr.truthy frac_part then
        match digits_go (int_part +:+ frac_part) 0 1, digits_go frac_part 0 1 with
        | Some (n, _), Some (_, scale) => Some (n # scale)
        | _, _ => None
        end
      else None
  | _ => None
  end.

(** Rounding to three decimals, ties to even, on the exact quotient. *)
Definition round3 (q : Q) : Q := round_half_even (Qabs q * 1000) # 1000.

(** A stand-in similarity: 1 on equal strings, 9/10 when one string is the
    other with a single character appended, 0 otherwise. *)
Definition toy_ratio (a b : string) : Q :=
  if String.eqb a b then 1
  else if String.eqb (PyStr.drop_last a) b || String.eqb a (PyStr.drop_last b)
       then 9 # 10 else 0.

(** Two iteration orders of a set: by first insertion, and reversed. *)
Definition insertion_order (l : list (string * string)) := l.
Definition reverse_order (l : list (string * string)) := rev l.

Definition mkitem (i n : string) (covers : bool) : Item :=
  {| item_id := i; item_name := Some n; item_name_i18n := None;
     item_category := None; item_covers_legs := covers |}.

Definition clothing : Catalog :=
  {| items := [ mkitem "dress_casual" "dress" false;
                mkitem "dress_red" "red dress" false;
                mkitem "shirt" "shirt" false;
                mkitem "skirt_long" "long skirt" true;
                mkitem "thighhighs" "thighhighs" false ];
     index_by_body_part :=
       [ ("full_body", ["dress_casual"; "dress_red"]);
         ("upper_body", ["shirt"]);
         ("lower_body", ["skirt_long"]);
         ("legs", ["thighhighs"]) ];
     index_by_category := [] |}.

Definition eyes : Catalog :=
  {| items := [ mkitem "eyes_blue" "blue eyes" false ];
     index_by_body_part := [];
     index_by_category := [ ("color", ["eyes_blue"]) ] |}.

Definition sample_gen : PromptGenerator :=
  {| catalogs := [ ("clothing", clothing); ("eyes", eyes) ];
     palettes := [ ("warm", ["red"; "orange"]) ];
     individual_colors := ["red"; "light"; "light blue"];
     color_i18n := [] |}.

Definition sample_parser : PromptParser :=
  default {| indices := empty_indices; color_trie := ColorTrie.empty |}
          (PromptParser_init sample_gen).

Definition sample_parse (p : PromptParser) (prompt : string) (use_fuzzy : bool)
  : outcome ParseResult :=
  parse decimal_float toy_ratio round3 insertion_order p prompt use_fuzzy.

Definition slot_with (vid : string) (w : Q) : SlotConfig :=
  {| enabled := true; locked := false; value := Some vid; value_id := Some vid;
     color := None; color_enabled := false; weight := w |}.

(** A configuration whose [legs] slot is locked on a value. *)
Definition locked_legs : SlotConfig :=
  {| enabled := true; locked := true; value := Some "thighhighs";
     value_id := Some "thighhighs"; color := None; color_enabled := false;
     weight := 1 |}.

Definition locked_legs_config : GeneratorConfig :=
  set_full_body_mode
    (set_slots create_default_config
       (<["legs" := locked_legs]> (slots create_default_config)))
    false.

(** The default configuration (full-body mode on) with [full_body] disabled. *)
Definition disabled_full_body_config : GeneratorConfig :=
  set_slots create_default_config
    (<["full_body" := set_enabled default_SlotConfig false]>
       (slots create_default_config)).

(** [eye_color] with weight 1.0 and [upper_body] with the double nearest
    to 1.3. *)
Definition weighted_config : GeneratorConfig :=
  {| slots := <["eye_color" := slot_with "eyes_blue" 1]>
                (<["upper_body" := slot_with "shirt"
                                     (5854679515581645 # 4503599627370496)]> ∅);
     color_mode := "none"; active_palette_id := None; full_body_mode := false |}.

(** Two garments that share the words of their names, in two slots. *)
Definition uniform_clothing : Catalog :=
  {| items := [ mkitem "top_school" "school uniform top" false;
                mkitem "skirt_school" "school uniform skirt" false ];
     index_by_body_part :=
       [ ("upper_body", ["top_school"]); ("lower_body", ["skirt_school"]) ];
     index_by_category := [] |}.

Definition uniform_gen : PromptGenerator :=
  {| catalogs := [ ("clothing", uniform_clothing) ];
     palettes := []; individual_colors := []; color_i18n := [] |}.

Definition uniform_parser : PromptParser :=
  default {| indices := empty_indices; color_trie := ColorTrie.empty |}
          (PromptParser_init uniform_gen).


(** A configuration with a colour and a weight. *)
Definition round_trip_config : GeneratorConfig :=
  {| slots :=
       <["eye_color" := slot_with "eyes_blue" 1]>
         (<["upper_body" :=
              {| enabled := true; locked := false; value := Some "shirt";
                 value_id := Some "shirt"; color := Some "red";
                 color_enabled := true; weight := 13 # 10 |}]> ∅);
     color_mode := "none"; active_palette_id := None; full_body_mode := false |}.

End Sample.

(** * Properties *)

(** ** Evaluations *)

Example PyStr_samples :
  PyStr.strip "  Long  Hair " = "Long  Hair"
  /\ PyStr.lower "Red Dress" = "red dress"
  /\ PyStr.split_on ","%char "a, b,,c" = ["a"; " b"; ""; "c"]
  /\ PyStr.split_ws " long   hair " = ["long"; "hair"]
  /\ PyStr.rfind ":"%char "a:b:1.3" = Some 3%nat
  /\ PyStr.join ", " ["1girl"; "smile"] = "1girl, smile"
  /\ PyStr.remove_separators "thigh-highs_x y" = "thighhighsxy".
Proof. repeat split; reflexivity. Qed.

Example decimal_float_samples :
  Sample.decimal_float "1.3" = Some (13 # 10)
  /\ Sample.decimal_float "2" = Some (2 # 1)
  /\ Sample.decimal_float "abc" = None
  /\ Sample.decimal_float "" = None.
Proof. repeat split; reflexivity. Qed.

Example format_1f_samples :
  format_1f (5854679515581645 # 4503599627370496) = "1.3"
  /\ format_1f (13 # 10) = "1.3"
  /\ format_1f (1 # 4) = "0.2"
  /\ format_1f 2 = "2.0"
  /\ format_1f (1 # 10) = "0.1".
Proof. repeat split; vm_compute; reflexivity. Qed.

(** The parse scenario of the specification: ["1girl"] is skipped, the
    colour of ["red dress"] is split off, and both items are found by exact
    lookup. *)
Example parse_scenario :
  option_map
    (fun r => (res_value_id <$> res_slots r !! "full_body",
               res_color <$> res_slots r !! "full_body",
               res_value_id <$> res_slots r !! "eye_color",
               unmatched r, matched_count r, total_tokens r))
    (match Sample.sample_parse Sample.sample_parser "1girl, red dress, blue eyes" false with
     | Returns r => Some r
     | Raises => None
     end)
  = Some (Some "dress_casual", Some (Some "red"), Some "eyes_blue", [], 2%nat, 2%nat).
Proof. vm_compute. reflexivity. Qed.

(** ** Randomization: locks and the cross-slot passes *)

Lemma slot_names_defined slot_name :
  In slot_name slot_names -> exists d, dict_get slot_name SLOT_DEFINITIONS = Some d.
Proof.
  unfold slot_names. simpl. intros Hin.
  repeat (destruct Hin as [<-|Hin]; [eexists; reflexivity|]). destruct Hin.
Qed.

Lemma clear_value_lookup config n m :
  slots (clear_value config n) !! m =
  if decide (m = n) then (fun s => set_value s None None) <$> slots config !! n
  else slots config !! m.
Proof.
  unfold clear_value. destruct (slots config !! n) as [s|] eqn:Hs; simpl.
  - destruct (decide (m = n)) as [->|Hne].
    + by rewrite lookup_insert_eq.
    + by rewrite lookup_insert_ne.
  - destruct (decide (m = n)) as [->|Hne]; [by rewrite Hs|done].
Qed.

Lemma clear_value_mode config n :
  full_body_mode (clear_value config n) = full_body_mode config.
Proof. unfold clear_value. by destruct (slots config !! n). Qed.

Section RandomizationFacts.

Variable rng : Type.
Variable randbelow : rng -> nat -> nat * rng.
Variable gen : PromptGenerator.

Lemma randomize_slot_locked config slot_name s include_color palette_id g :
  slots config !! slot_name = Some s -> locked s = true ->
  randomize_slot rng randbelow gen config slot_name include_color palette_id g
  = Some (config, g).
Proof.
  intros Hs Hl. unfold randomize_slot. rewrite Hs. simpl. rewrite Hs. simpl.
  rewrite Hl. reflexivity.
Qed.

(** [randomize_slot] either returns the configuration as it is, the slot
    being present, or stores a slot state under the name it was given. *)
Lemma randomize_slot_shape config slot_name include_color palette_id g config' g' :
  randomize_slot rng randbelow gen config slot_name include_color palette_id g
  = Some (config', g') ->
  (config' = config /\ is_Some (slots config !! slot_name))
  \/ exists s, config' = set_slots config (<[slot_name := s]> (slots config)).
Proof.
  unfold randomize_slot. intros H.
  set (cfg1 := match slots config !! slot_name with Some _ => config | None => _ end) in H.
  assert (Hc : (cfg1 = config /\ is_Some (slots config !! slot_name))
               \/ cfg1 = set_slots config (<[slot_name := default_SlotConfig]> (slots config))).
  { subst cfg1. destruct (slots config !! slot_name); eauto. }
  assert (Hins : forall s, set_slots cfg1 (<[slot_name := s]> (slots cfg1))
                           = set_slots config (<[slot_name := s]> (slots config))).
  { intros s. destruct Hc as [[-> _] | ->]; [reflexivity|].
    unfold set_slots; simpl. by rewrite insert_insert_eq. }
  clearbody cfg1.
  destruct (locked _).
  { simplify_eq. destruct Hc as [[-> ?] | ->]; eauto. }
  destruct (sample_slot _ _ _ _ _) as [item g1].
  set (slot := match item with Some _ => _ | None => _ end) in H. clearbody slot.
  destruct include_color.
  - destruct (dict_get slot_name SLOT_DEFINITIONS) as [d|]; [|discriminate].
    destruct (def_has_color d).
    + destruct (_ && _).
      * destruct (sample_color_from_palette _ _ _ _ _). simplify_eq. rewrite Hins. eauto.
      * destruct (String.eqb _ _).
        -- destruct (sample_random_color _ _ _ _). simplify_eq. rewrite Hins. eauto.
        -- simplify_eq. rewrite Hins. eauto.
    + simplify_eq. rewrite Hins; eauto.
  - simplify_eq. rewrite Hins; eauto.
Qed.

Lemma randomize_slot_frame config slot_name include_color palette_id g config' g' :
  randomize_slot rng randbelow gen config slot_name include_color palette_id g
  = Some (config', g') ->
  full_body_mode config' = full_body_mode config
  /\ (forall n, n <> slot_name -> slots config' !! n = slots config !! n)
  /\ is_Some (slots config' !! slot_name).
Proof.
  intros H. apply randomize_slot_shape in H as [[-> ?] | [s ->]]; [done|].
  simpl. split; [done|]. split.
  - intros n Hn. by rewrite lookup_insert_ne.
  - rewrite lookup_insert_eq. eauto.
Qed.

Lemma randomize_slot_total config slot_name include_color palette_id g :
  In slot_name slot_names ->
  exists r,
    randomize_slot rng randbelow gen config slot_name include_color palette_id g = Some r.
Proof.
  intros Hin. destruct (slot_names_defined _ Hin) as [d Hd].
  unfold randomize_slot. rewrite Hd.
  destruct (locked _); [eauto|].
  destruct (sample_slot _ _ _ _ _) as [item g1].
  destruct include_color; [|eauto].
  destruct (def_has_color d); [|eauto].
  destruct (_ && _).
  - destruct (sample_color_from_palette _ _ _ _ _). eauto.
  - destruct (String.eqb _ _); [|eauto].
    destruct (sample_random_color _ _ _ _). eauto.
Qed.

(** The loop of [randomize_all] goes through, keeps the mode flag and every
    locked slot, and leaves every slot it visited present. *)
Lemma randomize_each_total names config include_color palette_id g :
  (forall n, In n names -> In n slot_names) ->
  exists r,
    randomize_each rng randbelow gen names config include_color palette_id g = Some r.
Proof.
  revert config g. induction names as [|n names IH]; intros config g Hsub; simpl.
  - eauto.
  - assert (Hn : In n slot_names) by (apply Hsub; by left).
    assert (Hrest : forall m, In m names -> In m slot_names)
      by (intros m Hm; apply Hsub; by right).
    destruct (randomize_slot_total config n include_color palette_id g Hn)
      as [[config' g'] Hr].
    destruct (slots config !! n) as [s|]; [destruct (locked s)|];
      rewrite ?Hr; eauto.
Qed.

Lemma randomize_each_frame names config include_color palette_id g config' g' :
  randomize_each rng randbelow gen names config include_color palette_id g
  = Some (config', g') ->
  full_body_mode config' = full_body_mode config
  /\ (forall n s, slots config !! n = Some s -> locked s = true ->
                  slots config' !! n = Some s)
  /\ (forall n, is_Some (slots config !! n) -> is_Some (slots config' !! n))
  /\ (forall n, In n names -> is_Some (slots config' !! n)).
Proof.
  revert config g. induction names as [|n names IH]; intros config g H; simpl in H.
  - simplify_eq. repeat split; auto. intros n [].
  - assert (Hstep : exists c1 g1,
               randomize_each rng randbelow gen names c1 include_color palette_id g1
               = Some (config', g')
               /\ full_body_mode c1 = full_body_mode config
               /\ (forall m s, slots config !! m = Some s -> locked s = true ->
                               slots c1 !! m = Some s)
               /\ (forall m, is_Some (slots config !! m) -> is_Some (slots c1 !! m))
               /\ is_Some (slots c1 !! n)).
    { destruct (slots config !! n) as [s|] eqn:Hs; [destruct (locked s) eqn:Hl|].
      - exists config, g. rewrite Hs. repeat split; eauto.
      - destruct (randomize_slot _ _ _ _ _ _ _ _) as [[c1 g1]|] eqn:Hr; [|discriminate].
        destruct (randomize_slot_frame _ _ _ _ _ _ _ Hr) as (Hm & Hother & Hpres).
        exists c1, g1. repeat split; auto.
        + intros m s' Hm' Hl'. destruct (decide (m = n)) as [->|Hne].
          * congruence.
          * by rewrite Hother.
        + intros m Hm'. destruct (decide (m = n)) as [->|Hne]; [done|].
          by rewrite Hother.
      - destruct (randomize_slot _ _ _ _ _ _ _ _) as [[c1 g1]|] eqn:Hr; [|discriminate].
        destruct (randomize_slot_frame _ _ _ _ _ _ _ Hr) as (Hm & Hother & Hpres).
        exists c1, g1. repeat split; auto.
        + intros m s' Hm' Hl'. destruct (decide (m = n)) as [->|Hne].
          * congruence.
          * by rewrite Hother.
        + intros m Hm'. destruct (decide (m = n)) as [->|Hne]; [done|].
          by rewrite Hother. }
    destruct Hstep as (c1 & g1 & Hrec & Hm1 & Hl1 & Hp1 & Hn1).
    destruct (IH _ _ Hrec) as (Hm2 & Hl2 & Hp2 & Hin2).
    repeat split.
    + congruence.
    + intros m s Hs Hl. eapply Hl2; eauto.
    + intros m Hs. eauto.
    + intros m [<-|Hin]; eauto.
Qed.

End RandomizationFacts.

(** [_apply_full_body_logic] touches only unlocked [upper_body] and
    [lower_body], and clears them when [full_body] is enabled with a value. *)
Lemma full_body_logic_spec config :
  let config' := _apply_full_body_logic config in
  full_body_mode config' = full_body_mode config
  /\ (forall n, n <> "upper_body" -> n <> "lower_body" ->
                slots config' !! n = slots config !! n)
  /\ (forall n s, slots config !! n = Some s -> locked s = true ->
                  slots config' !! n = Some s)
  /\ (forall n, is_Some (slots config !! n) -> is_Some (slots config' !! n))
  /\ (forall fb, slots config !! "full_body" = Some fb ->
                 enabled fb = true -> PyStr.truthy_opt (value fb) = true ->
                 forall n s, n = "upper_body" \/ n = "lower_body" ->
                             slots config !! n = Some s -> locked s = false ->
                             slots config' !! n = Some (set_value s None None)).
Proof.
  unfold _apply_full_body_logic.
  destruct (slots config !! "full_body") as [fb|] eqn:Hfb;
    [|by repeat split; auto; intros; simplify_eq].
  destruct (enabled fb && PyStr.truthy_opt (value fb)) eqn:Hguard;
    [|repeat split; auto; intros; simplify_eq; rewrite H0, H1 in Hguard; done].
  simpl.
  set (c1 := match slots config !! "upper_body" with
             | Some s => if locked s then config else clear_value config "upper_body"
             | None => config end).
  assert (H1 : forall m, slots c1 !! m =
             if decide (m = "upper_body") then
               (fun s => if locked s then s else set_value s None None)
                 <$> slots config !! "upper_body"
             else slots config !! m).
  { intros m. subst c1. destruct (slots config !! "upper_body") as [s|] eqn:Hu.
    - destruct (locked s) eqn:Hl.
      + destruct (decide _) as [->|]; [by rewrite Hu; simpl; rewrite Hl|done].
      + rewrite clear_value_lookup. destruct (decide _); [by rewrite Hu; simpl; rewrite Hl|done].
    - destruct (decide _) as [->|]; [by rewrite Hu|done]. }
  assert (Hm1 : full_body_mode c1 = full_body_mode config).
  { subst c1. destruct (slots config !! "upper_body") as [s|]; [|done].
    destruct (locked s); [done|apply clear_value_mode]. }
  clearbody c1.
  set (c2 := match slots c1 !! "lower_body" with
             | Some s => if locked s then c1 else clear_value c1 "lower_body"
             | None => c1 end).
  assert (H2 : forall m, slots c2 !! m =
             if decide (m = "lower_body") then
               (fun s => if locked s then s else set_value s None None)
                 <$> slots c1 !! "lower_body"
             else slots c1 !! m).
  { intros m. subst c2. destruct (slots c1 !! "lower_body") as [s|] eqn:Hu.
    - destruct (locked s) eqn:Hl.
      + destruct (decide _) as [->|]; [by rewrite Hu; simpl; rewrite Hl|done].
      + rewrite clear_value_lookup. destruct (decide _); [by rewrite Hu; simpl; rewrite Hl|done].
    - destruct (decide _) as [->|]; [by rewrite Hu|done]. }
  assert (Hm2 : full_body_mode c2 = full_body_mode c1).
  { subst c2. destruct (slots c1 !! "lower_body") as [s|]; [|done].
    destruct (locked s); [done|apply clear_value_mode]. }
  clearbody c2.
  assert (Hall : forall m, slots c2 !! m =
             if decide (m = "upper_body" \/ m = "lower_body") then
               (fun s => if locked s then s else set_value s None None)
                 <$> slots config !! m
             else slots config !! m).
  { intros m. rewrite H2. destruct (decide (m = "lower_body")) as [->|Hne].
    - rewrite H1. destruct (decide ("lower_body" = "upper_body")); [done|].
      destruct (decide (_ \/ _)) as [_|Hn]; [done|]. exfalso; apply Hn; by right.
    - rewrite H1. destruct (decide (m = "upper_body")) as [->|Hne'].
      + destruct (decide (_ \/ _)) as [_|Hn]; [done|]. exfalso; apply Hn; by left.
      + destruct (decide (_ \/ _)) as [[?|?]|Hn]; done. }
  repeat split.
  - congruence.
  - intros n Hn1 Hn2. rewrite Hall.
    destruct (decide (_ \/ _)) as [[?|?]|Hn]; done.
  - intros n s Hs Hl. rewrite Hall, Hs. destruct (decide (_ \/ _)); simpl; by rewrite ?Hl.
  - intros n [s Hs]. rewrite Hall, Hs. destruct (decide (_ \/ _)); simpl; eauto.
  - intros fb' _ _ _ n s Hn Hs Hl. rewrite Hall, Hs.
    destruct (decide (_ \/ _)) as [_|Hn']; [|done]. simpl. by rewrite Hl.
Qed.

(** [_apply_lower_body_leg_logic] touches the [legs] slot only. *)
Lemma leg_logic_frame gen config :
  full_body_mode (_apply_lower_body_leg_logic gen config) = full_body_mode config
  /\ (forall n, n <> "legs" ->
                slots (_apply_lower_body_leg_logic gen config) !! n = slots config !! n).
Proof.
  unfold _apply_lower_body_leg_logic.
  destruct (slots config !! "lower_body") as [lower|]; [|done].
  destruct (slots config !! "legs") as [legs|]; [|done].
  destruct (_ || _); [done|].
  destruct (lower_body_id_covers_legs gen (value_id lower)); [|done].
  split; [apply clear_value_mode|].
  intros n Hn. rewrite clear_value_lookup. by destruct (decide (n = "legs")).
Qed.

(** Every locked slot other than [legs] goes through [randomize_all]
    unchanged. *)
Lemma randomize_all_keeps_locked rng randbelow gen config include_color palette_id
  g config' g' n s :
  randomize_all rng randbelow gen config include_color palette_id g = Some (config', g') ->
  slots config !! n = Some s -> locked s = true -> n <> "legs" ->
  slots config' !! n = Some s.
Proof.
  unfold randomize_all. intros H Hs Hl Hn.
  destruct (randomize_each _ _ _ _ _ _ _ _) as [[c1 g1]|] eqn:Hloop; [|discriminate].
  simplify_eq.
  destruct (randomize_each_frame _ _ _ _ _ _ _ _ _ _ Hloop) as (_ & Hlocked & _ & _).
  rewrite (proj2 (leg_logic_frame gen _)) by done.
  destruct (full_body_mode c1); [|eauto].
  destruct (full_body_logic_spec c1) as (_ & _ & Hkeep & _). eauto.
Qed.

(** [randomize_all] raises no exception. *)
Lemma randomize_all_total rng randbelow gen config include_color palette_id g :
  exists r, randomize_all rng randbelow gen config include_color palette_id g = Some r.
Proof.
  unfold randomize_all.
  destruct (randomize_each_total rng randbelow gen slot_names config include_color
              palette_id g) as [[c1 g1] Hloop]; [auto|].
  rewrite Hloop. eauto.
Qed.

(** C2, at the failing input: the only [lower_body] option is the long
    skirt, which covers the legs, and the locked [legs] slot loses its value
    and its value id in the leg-coverage pass of [randomize_all]. *)
Theorem C2_locked_legs_overwritten :
  slots Sample.locked_legs_config !! "legs" = Some Sample.locked_legs
  /\ locked Sample.locked_legs = true
  /\ value Sample.locked_legs = Some "thighhighs"
  /\ option_map (fun r => slots (fst r) !! "legs")
        (randomize_all nat Sample.counter_randbelow Sample.sample_gen
           Sample.locked_legs_config false None 0%nat)
     = Some (Some (set_value Sample.locked_legs None None)).
Proof. repeat split; vm_compute; reflexivity. Qed.

(** C3, as stated, fails: with [full_body] disabled, [randomize_all] in
    full-body mode leaves a value in [full_body] and a value in the
    unlocked [upper_body]. *)
Lemma C3_disabled_full_body_counterexample :
  full_body_mode Sample.disabled_full_body_config = true
  /\ option_map (fun r => (value <$> slots (fst r) !! "full_body",
                           locked <$> slots (fst r) !! "upper_body",
                           value <$> slots (fst r) !! "upper_body"))
        (randomize_all nat Sample.counter_randbelow Sample.sample_gen
           Sample.disabled_full_body_config false None 0%nat)
     = Some (Some (Some "red dress"), Some false, Some (Some "shirt")).
Proof. split; vm_compute; reflexivity. Qed.

(** C3, amended: [randomize_all] on a configuration in full-body mode
    returns, and if afterwards the [full_body] slot is enabled and has a
    non-empty value, then [upper_body] and [lower_body] are present and each
    is either locked or has neither value nor value id. *)
Theorem C3_full_body_override rng randbelow gen config include_color palette_id g :
  full_body_mode config = true ->
  exists config' g',
    randomize_all rng randbelow gen config include_color palette_id g = Some (config', g')
    /\ forall fb,
         slots config' !! "full_body" = Some fb ->
         enabled fb = true -> PyStr.truthy_opt (value fb) = true ->
         forall n, n = "upper_body" \/ n = "lower_body" ->
           exists s, slots config' !! n = Some s
                     /\ (locked s = true \/ (value s = None /\ value_id s = None)).
Proof.
  intros Hmode. unfold randomize_all.
  destruct (randomize_each_total rng randbelow gen slot_names config include_color
              palette_id g) as [[c1 g1] Hloop]; [auto|].
  rewrite Hloop.
  destruct (randomize_each_frame _ _ _ _ _ _ _ _ _ _ Hloop) as (Hm & _ & _ & Hpres).
  rewrite Hm, Hmode.
  exists (_apply_lower_body_leg_logic gen (_apply_full_body_logic c1)), g1.
  split; [reflexivity|].
  intros fb Hfb Hen Hval n Hn.
  destruct (leg_logic_frame gen (_apply_full_body_logic c1)) as (_ & Hlegs).
  destruct (full_body_logic_spec c1) as (_ & Hother & Hkeep & _ & Hclear).
  rewrite Hlegs in Hfb by done. rewrite Hother in Hfb by done.
  assert (Hin : In n slot_names) by (destruct Hn as [-> | ->]; vm_compute; tauto).
  destruct (Hpres n Hin) as [s Hs].
  assert (Hnl : n <> "legs") by (destruct Hn as [-> | ->]; done).
  rewrite Hlegs by done.
  destruct (locked s) eqn:Hl.
  - exists s. split; [eauto|by left].
  - exists (set_value s None None). split; [eauto|by right].
Qed.

Lemma C3_full_body_override_witness :
  exists config' g',
    randomize_all nat Sample.counter_randbelow Sample.sample_gen
      create_default_config false None 0%nat = Some (config', g')
    /\ forall fb,
         slots config' !! "full_body" = Some fb ->
         enabled fb = true -> PyStr.truthy_opt (value fb) = true ->
         forall n, n = "upper_body" \/ n = "lower_body" ->
           exists s, slots config' !! n = Some s
                     /\ (locked s = true \/ (value s = None /\ value_id s = None)).
Proof.
  apply (C3_full_body_override nat Sample.counter_randbelow Sample.sample_gen
           create_default_config false None 0%nat).
  reflexivity.
Defined.

(** C4: [generate] returns, and its prompt and the generator state it
    leaves are the same whatever the state of the global generator was
    before the call: they are determined by the seed and the inputs. *)
Theorem C4_generate_deterministic rng randbelow seed_rng gen
  (ambient1 ambient2 : rng) seed language palette full_body_mode upper_body_mode
  prefix locks :
  exists prompt g,
    generate rng randbelow seed_rng gen ambient1 seed language palette
      full_body_mode upper_body_mode prefix locks = Some (prompt, g)
    /\ generate rng randbelow seed_rng gen ambient2 seed language palette
         full_body_mode upper_body_mode prefix locks = Some (prompt, g).
Proof.
  unfold generate, random_seed.
  destruct (randomize_all_total rng randbelow gen
              (set_full_body_mode create_default_config full_body_mode)
              (match (if String.eqb palette "none" then None else Some palette) with
               | Some _ => true | None => false end)
              (if String.eqb palette "none" then None else Some palette)
              (seed_rng seed)) as [[c g] Hr].
  rewrite Hr. eauto.
Qed.

(** ** Facts about strings *)

Lemma str_app_nil_l (s : string) : "" +:+ s = s.
Proof. reflexivity. Qed.

Lemma str_app_cons (c : ascii) (s t : string) : String c s +:+ t = String c (s +:+ t).
Proof. reflexivity. Qed.

Lemma str_app_nil_r (s : string) : s +:+ "" = s.
Proof. induction s as [|c s IH]; [done|]. by rewrite str_app_cons, IH. Qed.

Lemma str_app_assoc (s t u : string) : (s +:+ t) +:+ u = s +:+ (t +:+ u).
Proof. induction s as [|c s IH]; [done|]. by rewrite !str_app_cons, IH. Qed.

Lemma str_length_app (s t : string) :
  String.length (s +:+ t) = (String.length s + String.length t)%nat.
Proof. induction s as [|c s IH]; [done|]. rewrite str_app_cons. simpl. by rewrite IH. Qed.

Lemma join_cons sep p q rest :
  PyStr.join sep (p :: q :: rest) = p +:+ sep +:+ PyStr.join sep (q :: rest).
Proof. reflexivity. Qed.

(** A part other than the first one follows a separator in the joined string. *)
Lemma join_in_tail sep p x rest :
  In x rest ->
  exists before after, PyStr.join sep (p :: rest) = before +:+ sep +:+ x +:+ after.
Proof.
  revert p. induction rest as [|q rest IH]; intros p Hin; [destruct Hin|].
  rewrite join_cons. destruct Hin as [->|Hin].
  - destruct rest as [|q' rest].
    + exists p, "". simpl. by rewrite str_app_nil_r.
    + exists p, (sep +:+ PyStr.join sep (q' :: rest)). by rewrite join_cons.
  - destruct (IH q Hin) as (b & a & ->).
    exists (p +:+ sep +:+ b), a. by rewrite !str_app_assoc.
Qed.

(** ** Weight serialization *)

Lemma round_half_even_nearest (q : Q) :
  (Qabs (q - inject_Z (round_half_even q)) <= 1 # 2)%Q.
Proof.
  destruct q as [n d]. unfold round_half_even. simpl Qnum. simpl Qden.
  pose proof (Z.div_mod n (Zpos d) ltac:(lia)) as Hdm.
  pose proof (Z.mod_pos_bound n (Zpos d) ltac:(lia)) as Hr.
  set (fl := (n / Zpos d)%Z) in *. set (r := (n mod Zpos d)%Z) in *.
  clearbody fl r.
  assert (Hgoal : forall t : Z, (Z.abs (2 * (n - t * Zpos d)) <= Zpos d)%Z ->
                      (Qabs ((n # d) - inject_Z t) <= 1 # 2)%Q).
  { intros t Ht. unfold Qle, Qabs, Qminus, Qplus, Qopp, inject_Z. simpl.
    rewrite Z.mul_1_r, Pos.mul_1_r.
    replace (n + - t * Zpos d)%Z with (n - t * Zpos d)%Z by lia. lia. }
  destruct (2 * r ?= Zpos d)%Z eqn:Hc.
  - apply Z.compare_eq in Hc. destruct (Z.even fl); apply Hgoal; lia.
  - rewrite Z.compare_lt_iff in Hc. apply Hgoal; lia.
  - rewrite Z.compare_gt_iff in Hc. apply Hgoal; lia.
Qed.

Lemma decimal_digit (x : Z) : (0 <= x < 10)%Z -> String.length (decimal x) = 1%nat.
Proof.
  intros Hx.
  assert (H : (x = 0 \/ x = 1 \/ x = 2 \/ x = 3 \/ x = 4 \/ x = 5 \/ x = 6 \/ x = 7
               \/ x = 8 \/ x = 9)%Z) by lia.
  repeat (destruct H as [->|H]; [reflexivity|]). by subst.
Qed.

(** The shape of ["%.1f"]: a sign, the integer part, a point and one digit,
    for the number of tenths nearest to the magnitude. *)
Lemma format_1f_shape (w : Q) :
  exists tenths : Z,
    format_1f w = (if (Qnum w <? 0)%Z then "-" else "")
                  +:+ decimal (tenths / 10) +:+ "." +:+ decimal (tenths mod 10)
    /\ String.length (decimal (tenths mod 10)) = 1%nat
    /\ (Qabs (Qabs w * 10 - inject_Z tenths) <= 1 # 2)%Q.
Proof.
  exists (round_half_even (Qabs w * 10)). split; [reflexivity|]. split.
  - apply decimal_digit. apply Z.mod_pos_bound. lia.
  - apply round_half_even_nearest.
Qed.

(** C9: a slot that the assembler emits contributes, after a [", "]
    separator, its bare text when its weight equals 1.0, and otherwise
    [(text:W)] where [W] is the weight with one digit after the point,
    rounded to the nearest tenth. *)
Theorem C9_weight_serialization gen config language slot_name slot :
  In slot_name slot_order ->
  slots config !! slot_name = Some slot ->
  slot_skipped gen config slot_name slot = false ->
  let t := slot_text gen slot_name slot language in
  let segment :=
    if Qeq_bool (weight slot) 1 then t
    else "(" +:+ t +:+ ":" +:+ format_1f (weight slot) +:+ ")" in
  (exists before after,
     _build_prompt_localized gen config language
     = before +:+ ", " +:+ segment +:+ after)
  /\ (exists tenths : Z,
        format_1f (weight slot)
        = (if (Qnum (weight slot) <? 0)%Z then "-" else "")
          +:+ decimal (tenths / 10) +:+ "." +:+ decimal (tenths mod 10)
        /\ String.length (decimal (tenths mod 10)) = 1%nat
        /\ (Qabs (Qabs (weight slot) * 10 - inject_Z tenths) <= 1 # 2)%Q).
Proof.
  intros Hin Hs Hskip t segment. split; [|apply format_1f_shape].
  unfold _build_prompt_localized, prompt_parts. apply join_in_tail.
  apply list_elem_of_In, list_elem_of_omap. exists slot_name.
  split; [by apply list_elem_of_In|].
  unfold slot_part. rewrite Hs, Hskip. subst segment t.
  by destruct (Qeq_bool (weight slot) 1).
Qed.

Lemma C9_weight_serialization_witness :
  (exists before after,
     _build_prompt_localized Sample.sample_gen Sample.weighted_config "en"
     = before +:+ ", " +:+ "(shirt:1.3)" +:+ after)
  /\ (exists tenths : Z,
        format_1f (5854679515581645 # 4503599627370496)
        = "" +:+ decimal (tenths / 10) +:+ "." +:+ decimal (tenths mod 10)
        /\ String.length (decimal (tenths mod 10)) = 1%nat
        /\ (Qabs (Qabs (5854679515581645 # 4503599627370496) * 10 - inject_Z tenths)
            <= 1 # 2)%Q).
Proof.
  apply (C9_weight_serialization Sample.sample_gen Sample.weighted_config "en"
           "upper_body" (Sample.slot_with "shirt" (5854679515581645 # 4503599627370496))).
  - vm_compute. tauto.
  - reflexivity.
  - reflexivity.
Defined.

(** The two scenarios of the specification: weight 1.0 leaves the text
    bare, weight 1.3 (the double nearest to it) gives [(text:1.3)]. *)
Example weight_serialization_scenarios :
  _build_prompt_localized Sample.sample_gen Sample.weighted_config "en"
  = "1girl, blue eyes, (shirt:1.3)".
Proof. vm_compute. reflexivity. Qed.

(** ** Tokenization *)

Lemma split_on_no_sep sep s :
  PyStr.contains sep s = false -> PyStr.split_on sep s = [s].
Proof.
  induction s as [|c s IH]; simpl; [done|].
  intros H. apply orb_false_iff in H as [Hc Hs].
  rewrite Hc, (IH Hs). done.
Qed.

Lemma split_on_app sep p s :
  PyStr.contains sep p = false ->
  PyStr.split_on sep (p +:+ String sep s) = p :: PyStr.split_on sep s.
Proof.
  induction p as [|c p IH]; intros H.
  - rewrite str_app_nil_l. simpl. by rewrite Ascii.eqb_refl.
  - simpl in H. apply orb_false_iff in H as [Hc Hs].
    rewrite str_app_cons. simpl. rewrite Hc, (IH Hs). done.
Qed.

Lemma split_on_prefix sep s' s h t :
  PyStr.contains sep s' = false ->
  PyStr.split_on sep s = h :: t ->
  PyStr.split_on sep (s' +:+ s) = (s' +:+ h) :: t.
Proof.
  intros Hs' Hs. induction s' as [|c s' IH]; [done|].
  simpl in Hs'. apply orb_false_iff in Hs' as [Hc Hs'].
  rewrite str_app_cons. simpl. by rewrite Hc, (IH Hs').
Qed.

(** Splitting at a one-character separator undoes joining with a separator
    string that starts with it: the rest of the separator stays in front of
    every part but the first. *)
Lemma split_on_join sep sep' p rest :
  PyStr.contains sep sep' = false ->
  Forall (fun q => PyStr.contains sep q = false) (p :: rest) ->
  PyStr.split_on sep (PyStr.join (String sep sep') (p :: rest))
  = p :: map (fun q => sep' +:+ q) rest.
Proof.
  intros Hsep'. revert p. induction rest as [|q rest IH]; intros p Hall.
  - simpl. apply split_on_no_sep. by inversion Hall.
  - inversion Hall as [|? ? Hp Hrest]; subst.
    rewrite join_cons, str_app_cons, split_on_app by done.
    f_equal. simpl map. apply split_on_prefix; [done|]. by apply IH.
Qed.

Lemma endswith_char_app c s : PyStr.endswith_char c (s +:+ String c "") = true.
Proof.
  induction s as [|d s IH]; [simpl; apply Ascii.eqb_refl|].
  rewrite str_app_cons. simpl. destruct (s +:+ String c "") eqn:E; [|done].
  by destruct s.
Qed.

Lemma contains_app c s t :
  PyStr.contains c (s +:+ t) = PyStr.contains c s || PyStr.contains c t.
Proof.
  induction s as [|d s IH]; [done|].
  rewrite str_app_cons. simpl. rewrite IH. by rewrite orb_assoc.
Qed.

Lemma drop_last_app c s : PyStr.drop_last (s +:+ String c "") = s.
Proof.
  induction s as [|d s IH]; [done|].
  rewrite str_app_cons. simpl. rewrite IH.
  destruct (s +:+ String c "") eqn:E; [by destruct s|done].
Qed.

Lemma rfind_app c t w :
  PyStr.contains c w = false ->
  PyStr.rfind c (t +:+ String c w) = Some (String.length t).
Proof.
  intros Hw. induction t as [|d t IH].
  - rewrite str_app_nil_l. simpl.
    assert (Hn : PyStr.rfind c w = None).
    { clear -Hw. induction w as [|e w IH]; [done|]. simpl in *.
      apply orb_false_iff in Hw as [He Hw]. by rewrite (IH Hw), He. }
    by rewrite Hn, Ascii.eqb_refl.
  - rewrite str_app_cons. simpl. by rewrite IH.
Qed.

Lemma take_app t x : PyStr.take (String.length t) (t +:+ x) = t.
Proof.
  induction t as [|d t IH]; [by destruct x|].
  rewrite str_app_cons. simpl. by rewrite IH.
Qed.

Lemma drop_app t x : PyStr.drop (String.length t) (t +:+ x) = x.
Proof. induction t as [|d t IH]; [done|]. by rewrite str_app_cons. Qed.

Lemma drop_succ_app t c x :
  PyStr.drop (String.length t + 1) (t +:+ String c x) = x.
Proof.
  induction t as [|d t IH]; [done|]. by rewrite str_app_cons.
Qed.

Section TokenizeFacts.

Variable py_float : string -> option Q.

(** A part [(t:w)] with a non-empty text and a weight suffix without colon. *)
Lemma tokenize_part_weighted t w :
  t <> "" -> PyStr.contains ":"%char w = false ->
  tokenize_part py_float ("(" +:+ t +:+ ":" +:+ w +:+ ")")
  = match py_float w with
    | Some q => {| text := t; tok_weight := q |}
    | None => {| text := "(" +:+ t +:+ ":" +:+ w +:+ ")"; tok_weight := 1 |}
    end.
Proof.
  intros Ht Hw. unfold tokenize_part.
  assert (Hstart : PyStr.startswith "(" ("(" +:+ t +:+ ":" +:+ w +:+ ")") = true)
    by reflexivity.
  assert (Hend : PyStr.endswith_char ")"%char ("(" +:+ t +:+ ":" +:+ w +:+ ")") = true).
  { rewrite <- !str_app_assoc. apply endswith_char_app. }
  assert (Hcolon : PyStr.contains ":"%char ("(" +:+ t +:+ ":" +:+ w +:+ ")") = true).
  { rewrite !contains_app. simpl. by rewrite !orb_true_r. }
  rewrite Hstart, Hend, Hcolon. simpl andb. cbv iota.
  assert (Hinner : PyStr.drop_last (PyStr.drop 1 ("(" +:+ t +:+ ":" +:+ w +:+ ")"))
                   = t +:+ String ":"%char w).
  { change (PyStr.drop 1 ("(" +:+ t +:+ ":" +:+ w +:+ ")"))
      with (t +:+ ":" +:+ w +:+ ")").
    rewrite <- !str_app_assoc. rewrite drop_last_app. by rewrite !str_app_assoc. }
  rewrite Hinner, rfind_app by done.
  destruct (String.length t) as [|n] eqn:El; [by destruct t|].
  rewrite <- El, take_app, drop_succ_app. done.
Qed.

Lemma tokenize_part_plain part :
  PyStr.startswith "(" part = false
  \/ PyStr.endswith_char ")"%char part = false
  \/ PyStr.contains ":"%char part = false ->
  tokenize_part py_float part = {| text := part; tok_weight := 1 |}.
Proof.
  unfold tokenize_part. intros [-> | [-> | ->]]; [done| |].
  - by rewrite andb_false_r.
  - by rewrite andb_false_r.
Qed.

End TokenizeFacts.

(** C8, as stated, fails: white space inside a token text is not
    collapsed, neither in a plain part nor inside the weight syntax. *)
Lemma C8_internal_whitespace_kept :
  _tokenize Sample.decimal_float "long  hair, (red   dress:1.3)"
  = [ {| text := "long  hair"; tok_weight := 1 |};
      {| text := "red   dress"; tok_weight := 13 # 10 |} ].
Proof. vm_compute. reflexivity. Qed.

(** C8, amended: tokenization splits the prompt at the commas, strips the
    white space around each part and drops the parts that are then empty.
    A part [(text:weight)] with a non-empty text gives the text as it
    stands and the weight when [float] accepts the suffix, and the whole
    part with weight 1.0 when it does not; a part that lacks the opening
    parenthesis, the closing one or the colon gives the whole part with
    weight 1.0.  White space inside a token text is kept. *)
Theorem C8_tokenize (py_float : string -> option Q) :
  (forall p rest,
      Forall (fun q => PyStr.contains ","%char q = false) (p :: rest) ->
      _tokenize py_float (PyStr.join "," (p :: rest))
      = omap (fun part =>
                if PyStr.truthy (PyStr.strip part)
                then Some (tokenize_part py_float (PyStr.strip part)) else None)
             (p :: rest))
  /\ (forall t w q,
         t <> "" -> PyStr.contains ":"%char w = false -> py_float w = Some q ->
         tokenize_part py_float ("(" +:+ t +:+ ":" +:+ w +:+ ")")
         = {| text := t; tok_weight := q |})
  /\ (forall t w,
         t <> "" -> PyStr.contains ":"%char w = false -> py_float w = None ->
         tokenize_part py_float ("(" +:+ t +:+ ":" +:+ w +:+ ")")
         = {| text := "(" +:+ t +:+ ":" +:+ w +:+ ")"; tok_weight := 1 |})
  /\ (forall part,
         PyStr.startswith "(" part = false
         \/ PyStr.endswith_char ")"%char part = false
         \/ PyStr.contains ":"%char part = false ->
         tokenize_part py_float part = {| text := part; tok_weight := 1 |}).
Proof.
  repeat split.
  - intros p rest Hall. unfold _tokenize.
    rewrite (split_on_join ","%char "" p rest eq_refl Hall).
    rewrite (map_ext _ (fun q => q)), map_id by done.
    apply list_omap_ext, Forall_Forall2_diag, Forall_forall.
    intros part _. by destruct (PyStr.truthy (PyStr.strip part)).
  - intros t w q Ht Hw Hq. rewrite tokenize_part_weighted by done. by rewrite Hq.
  - intros t w Ht Hw Hq. rewrite tokenize_part_weighted by done. by rewrite Hq.
  - apply tokenize_part_plain.
Qed.

(** ** Where the parser raises, and where it does not *)

Lemma lower_char_dollar c :
  Ascii.eqb c "$"%char = false -> Ascii.eqb (PyStr.lower_char c) "$"%char = false.
Proof. by destruct c as [[] [] [] [] [] [] [] []]. Qed.

(** On a text without the character [$] the trie lookup returns. *)
Lemma find_prefix_go_returns node t i last_match :
  PyStr.contains "$"%char t = false ->
  exists r, ColorTrie.find_prefix_go node t i last_match = Returns r.
Proof.
  revert node i last_match. induction t as [|c t IH]; intros node i last_match H.
  - simpl. eauto.
  - simpl in H. apply orb_false_iff in H as [Hc Ht].
    simpl. rewrite (lower_char_dollar _ Hc).
    destruct (ColorTrie.child_get _ _); eauto.
Qed.

Lemma contains_lstrip c s :
  PyStr.contains c s = false -> PyStr.contains c (PyStr.lstrip s) = false.
Proof.
  induction s as [|d s IH]; [done|]. simpl. intros H.
  destruct (PyStr.is_space d); [|done].
  apply orb_false_iff in H as [_ H]. auto.
Qed.

Lemma contains_rstrip c s :
  PyStr.contains c s = false -> PyStr.contains c (PyStr.rstrip s) = false.
Proof.
  induction s as [|d s IH]; [done|]. simpl. intros H.
  apply orb_false_iff in H as [Hd H]. specialize (IH H).
  destruct (PyStr.rstrip s).
  - destruct (PyStr.is_space d); [done|]. simpl. by rewrite Hd.
  - simpl in *. by rewrite Hd, IH.
Qed.

Lemma contains_strip c s :
  PyStr.contains c s = false -> PyStr.contains c (PyStr.strip s) = false.
Proof. intros H. by apply contains_rstrip, contains_lstrip. Qed.

Lemma contains_drop c n s :
  PyStr.contains c s = false -> PyStr.contains c (PyStr.drop n s) = false.
Proof.
  revert s. induction n as [|n IH]; intros s H; [done|].
  destruct s as [|d s]; [done|]. simpl in *.
  apply orb_false_iff in H as [_ H]. auto.
Qed.

Lemma contains_take c n s :
  PyStr.contains c s = false -> PyStr.contains c (PyStr.take n s) = false.
Proof.
  revert s. induction n as [|n IH]; intros s H; [done|].
  destruct s as [|d s]; [done|]. simpl in *.
  apply orb_false_iff in H as [-> H]. simpl. auto.
Qed.

Lemma contains_drop_last c s :
  PyStr.contains c s = false -> PyStr.contains c (PyStr.drop_last s) = false.
Proof.
  induction s as [|d s IH]; [done|]. simpl. intros H.
  apply orb_false_iff in H as [Hd H]. specialize (IH H).
  destruct s; [done|]. simpl in *. by rewrite Hd, IH.
Qed.

Lemma contains_split_on c sep s :
  PyStr.contains c s = false ->
  Forall (fun p => PyStr.contains c p = false) (PyStr.split_on sep s).
Proof.
  induction s as [|d s IH]; simpl; intros H.
  - by constructor.
  - apply orb_false_iff in H as [Hd H]. specialize (IH H).
    destruct (Ascii.eqb d sep).
    + by constructor.
    + destruct (PyStr.split_on sep s) as [|h t].
      * constructor; [|done]. simpl. by rewrite Hd.
      * inversion IH as [|? ? Hh Ht]; subst. constructor; [|done].
        simpl. by rewrite Hd, Hh.
Qed.

Lemma contains_tokenize_part py_float c part :
  PyStr.contains c part = false ->
  PyStr.contains c (text (tokenize_part py_float part)) = false.
Proof.
  intros H. unfold tokenize_part.
  destruct (_ && _); [|done].
  destruct (PyStr.rfind _ _) as [[|n]|]; try done.
  destruct (py_float _); [|done]. cbn [text].
  by apply contains_take, contains_drop_last, contains_drop.
Qed.

Lemma contains_tokenize py_float c prompt :
  PyStr.contains c prompt = false ->
  Forall (fun t => PyStr.contains c (text t) = false) (_tokenize py_float prompt).
Proof.
  intros H. unfold _tokenize. apply Forall_forall. intros t Ht.
  apply list_elem_of_omap in Ht as (part & Hpart & Hf).
  pose proof (contains_split_on c ","%char prompt H) as Hall.
  rewrite Forall_forall in Hall. specialize (Hall _ Hpart).
  destruct (negb _); [done|]. simplify_eq.
  by apply contains_tokenize_part, contains_strip.
Qed.

Section ParseFacts.

Variable py_float : string -> option Q.
Variable ratio : string -> string -> Q.
Variable py_round3 : Q -> Q.
Variable set_order : list (string * string) -> list (string * string).
Variable parser : PromptParser.

Lemma parse_token_returns use_fuzzy st token :
  PyStr.contains "$"%char (text token) = false ->
  exists st', parse_token ratio set_order parser use_fuzzy st token = Returns st'.
Proof.
  intros H. unfold parse_token. destruct (is_skip _); [eauto|].
  unfold _extract_color, ColorTrie.find_prefix.
  destruct (find_prefix_go_returns (color_trie parser) (text token) 0 None H)
    as [r ->].
  simpl. destruct r as [[c n]|]; simpl; destruct (match_cascade _ _ _ _ _); eauto.
Qed.

Lemma parse_tokens_returns use_fuzzy st tokens :
  Forall (fun t => PyStr.contains "$"%char (text t) = false) tokens ->
  exists st', parse_tokens ratio set_order parser use_fuzzy st tokens = Returns st'.
Proof.
  intros H. revert st. induction H as [|t tokens Ht _ IH]; intros st; simpl; [eauto|].
  destruct (parse_token_returns use_fuzzy st t Ht) as [st1 ->]. simpl. apply IH.
Qed.





End ParseFacts.


(** The scenario of the specification with an unknown tag: the skipped
    ["1girl"] counts nowhere, one token of two is matched. *)
Example parse_unknown_tag :
  option_map (fun r => (unmatched r, matched_count r, total_tokens r, confidence r))
    (match Sample.sample_parse Sample.sample_parser
             "1girl, blue eyes, xyzzy_unknown_tag" false with
     | Returns r => Some r
     | Raises => None
     end)
  = Some (["xyzzy_unknown_tag"], 1%nat, 2%nat, 500 # 1000).
Proof. vm_compute. reflexivity. Qed.

(** ** The matching cascade *)

Section FuzzyFacts.

Variable ratio : string -> string -> Q.

Lemma fuzzy_scan_invariant text_lower threshold entries :
  (0 < threshold)%Q ->
  fuzzy_invariant ratio text_lower threshold entries
    (fuzzy_scan ratio text_lower threshold entries).
Proof.
  intros Hpos. unfold fuzzy_scan.
  assert (Hgen : forall seen best,
             fuzzy_invariant ratio text_lower threshold seen best ->
             fuzzy_invariant ratio text_lower threshold (seen ++ entries)
               (foldl (fun (best : option (list (string * string)) * Q)
                           (entry : string * list (string * string)) =>
                         let score := ratio text_lower (fst entry) in
                         if negb (Qle_bool score (snd best)) && Qle_bool threshold score
                         then (Some (snd entry), score) else best)
                      best entries)).
  { induction entries as [|[k m] entries IH]; intros seen best Hinv.
    - simpl. by rewrite app_nil_r.
    - simpl foldl. replace (seen ++ (k, m) :: entries) with ((seen ++ [(k, m)]) ++ entries)
        by (by rewrite <- app_assoc).
      apply IH. simpl fst. simpl snd.
      destruct (Qle_bool (ratio text_lower k) (snd best)) eqn:Hle; simpl negb; simpl andb.
      + apply Qle_bool_iff in Hle.
        destruct Hinv as [(Hn & Hz & Hlow) | (k0 & m0 & Hb & Hin & Hs & Hth & Hmax)].
        * left. repeat split; auto. intros k' m' Hin'.
          apply in_app_or in Hin' as [Hin'|[Heq|[]]]; [eauto|]. simplify_eq.
          rewrite Hz in Hle. intros Hth.
          apply (Qlt_irrefl 0). eapply Qlt_le_trans; [exact Hpos|].
          eapply Qle_trans; eauto.
        * right. exists k0, m0. repeat split; auto.
          -- apply in_or_app. by left.
          -- intros k' m' Hin'.
             apply in_app_or in Hin' as [Hin'|[Heq|[]]]; [eauto|]. by simplify_eq.
      + assert (Hlt : (snd best < ratio text_lower k)%Q).
        { apply Qnot_le_lt. intros Hc. apply Qle_bool_iff in Hc. congruence. }
        destruct (Qle_bool threshold (ratio text_lower k)) eqn:Hth.
        * apply Qle_bool_iff in Hth. right. exists k, m. simpl.
          repeat split; auto.
          -- apply in_or_app. right. by left.
          -- intros k' m' Hin'.
             apply in_app_or in Hin' as [Hin'|[Heq|[]]]; [|simplify_eq; apply Qle_refl].
             destruct Hinv as [(Hn & Hz & Hlow) | (k0 & m0 & Hb & Hin & Hs & Hth0 & Hmax)].
             ++ apply Qlt_le_weak. apply Qlt_le_trans with threshold; [|done].
                apply Qnot_le_lt. eauto.
             ++ apply Qle_trans with (snd best); [eauto|by apply Qlt_le_weak].
        * assert (Hnth : ~ (threshold <= ratio text_lower k)%Q).
          { intros Hc. apply Qle_bool_iff in Hc. congruence. }
          destruct Hinv as [(Hn & Hz & Hlow) | (k0 & m0 & Hb & Hin & Hs & Hth0 & Hmax)].
          -- left. repeat split; auto. intros k' m' Hin'.
             apply in_app_or in Hin' as [Hin'|[Heq|[]]]; [eauto|]. by simplify_eq.
          -- right. exists k0, m0. repeat split; auto.
             ++ apply in_or_app. by left.
             ++ intros k' m' Hin'.
                apply in_app_or in Hin' as [Hin'|[Heq|[]]]; [eauto|]. simplify_eq.
                apply Qlt_le_weak. apply Qlt_le_trans with threshold; [|done].
                by apply Qnot_le_lt. }
  refine (Hgen [] (None, 0%Q) _). left. repeat split; auto.
Qed.

(** A fuzzy match is the candidate list of an exact-index key whose ratio
    is at least 0.85 and is the highest of all keys. *)
Lemma match_fuzzy_spec parser t m score :
  _match_fuzzy ratio parser t = Some (m, score) ->
  has_matches (Some m) = true
  /\ (85 # 100 <= score)%Q
  /\ exists key, In (key, m) (exact_index (indices parser))
                 /\ score = ratio (PyStr.lower t) key
                 /\ forall key' m', In (key', m') (exact_index (indices parser)) ->
                                    (ratio (PyStr.lower t) key' <= score)%Q.
Proof.
  unfold _match_fuzzy.
  pose proof (fuzzy_scan_invariant (PyStr.lower t) (85 # 100)
                (exact_index (indices parser)) eq_refl) as Hinv.
  destruct (fuzzy_scan _ _ _ _) as [best best_score].
  destruct best as [[|x xs]|]; try done. intros [= <- <-].
  destruct Hinv as [(Hn & _) | (k & m & Hb & Hin & Hs & Hth & Hmax)]; [done|].
  simpl in *. simplify_eq. split; [done|]. split; [done|]. eauto.
Qed.

End FuzzyFacts.

(** C5: the strategies are tried in the order exact, normalized, words,
    fuzzy, and the first one with a non-empty result gives the matches,
    with confidence 1.0, 0.95, 0.85 or the ratio.  The fuzzy strategy
    decides only when the three others found nothing, fuzzy matching is
    enabled and the token text is longer than three characters (otherwise
    the outcome does not depend on the ratio function and there is no
    match); its match is the candidate list of an exact-index key whose
    ratio is at least 0.85 and is the highest of all keys. *)
Theorem C5_matching_cascade ratio set_order parser use_fuzzy item_text :
  let exact := _match_exact parser item_text in
  let normalized := _match_normalized parser item_text in
  let words := _match_words set_order parser item_text in
  let result := match_cascade ratio set_order parser use_fuzzy item_text in
  (has_matches exact = true -> result = (exact, 1%Q))
  /\ (has_matches exact = false -> has_matches normalized = true ->
      result = (normalized, 95 # 100))
  /\ (has_matches exact = false -> has_matches normalized = false ->
      has_matches words = true -> result = (words, 85 # 100))
  /\ (has_matches exact = false -> has_matches normalized = false ->
      has_matches words = false ->
      (use_fuzzy = true /\ (3 < String.length item_text)%nat ->
       match _match_fuzzy ratio parser item_text with
       | Some (m, score) =>
           result = (Some m, score)
           /\ has_matches (Some m) = true
           /\ (85 # 100 <= score)%Q
           /\ exists key,
                In (key, m) (exact_index (indices parser))
                /\ score = ratio (PyStr.lower item_text) key
                /\ forall key' m', In (key', m') (exact_index (indices parser)) ->
                                   (ratio (PyStr.lower item_text) key' <= score)%Q
       | None => has_matches (fst result) = false
       end)
      /\ (use_fuzzy = false \/ (String.length item_text <= 3)%nat ->
          has_matches (fst result) = false
          /\ forall ratio',
               match_cascade ratio' set_order parser use_fuzzy item_text = result)).
Proof.
  intros exact normalized words result. subst result. unfold match_cascade.
  fold exact normalized words.
  split; [|split; [|split]].
  - intros He. rewrite He. simpl. rewrite He. simpl. by rewrite He.
  - intros He Hn. rewrite He. simpl. rewrite Hn. simpl. by rewrite Hn.
  - intros He Hn Hw. rewrite He. simpl. rewrite Hn. simpl. by rewrite Hw.
  - intros He Hn Hw. rewrite He. simpl. rewrite Hn. simpl. rewrite Hw. simpl.
    split.
    + intros [-> Hlen]. apply Nat.ltb_lt in Hlen. rewrite Hlen. simpl.
      destruct (_match_fuzzy ratio parser item_text) as [[m score]|] eqn:Hf; [|done].
      split; [done|]. by apply match_fuzzy_spec.
    + intros Hoff'.
      assert (Hoff : use_fuzzy && (3 <? String.length item_text)%nat = false).
      { destruct Hoff' as [-> | Hlen]; [done|].
        apply andb_false_iff. right. apply Nat.ltb_ge. lia. }
      rewrite Hoff. split; [done|]. intros ratio'. done.
Qed.

(** The four tiers on the sample index: an exact name, a name written with
    a hyphen, two words of a longer name, and a name with one character
    too many (fuzzy, with the stand-in ratio). *)
Example cascade_tiers :
  let cascade := match_cascade Sample.toy_ratio Sample.insertion_order
                   Sample.sample_parser in
  cascade true "Long Skirt" = (Some [("lower_body", "skirt_long")], 1%Q)
  /\ cascade true "long-skirt" = (Some [("lower_body", "skirt_long")], 95 # 100)
  /\ cascade true "skirt  long" = (Some [("lower_body", "skirt_long")], 85 # 100)
  /\ cascade true "shirts" = (Some [("upper_body", "shirt")], 9 # 10)
  /\ cascade false "shirts" = (None, 85 # 100)
  /\ cascade true "xyz" = (None, 85 # 100).
Proof. repeat split; vm_compute; reflexivity. Qed.

(** ** Assignment of a token to a slot *)

(** [first_unassigned] returns the first candidate whose slot is free. *)
Lemma first_unassigned_spec (results : gmap string SlotResult) matches :
  match first_unassigned results matches with
  | Some (slot_name, i) =>
      results !! slot_name = None
      /\ exists before after,
           matches = before ++ (slot_name, i) :: after
           /\ Forall (fun c => is_Some (results !! fst c)) before
  | None => Forall (fun c => is_Some (results !! fst c)) matches
  end.
Proof.
  induction matches as [|[s i] rest IH]; simpl; [done|].
  destruct (results !! s) as [r|] eqn:Hs.
  - destruct (first_unassigned results rest) as [[s' i']|].
    + destruct IH as (Hfree & before & after & -> & Hall).
      split; [done|]. exists ((s, i) :: before), after.
      split; [done|]. constructor; [simpl; rewrite Hs; eauto|done].
    + constructor; [simpl; rewrite Hs; eauto|done].
  - split; [done|]. exists [], rest. split; [done|]. constructor.
Qed.

(** ** Order of the candidates in the name indices *)

Lemma StronglySorted_snoc {A : Type} (R : A -> A -> Prop) l y :
  StronglySorted R l -> Forall (fun x => R x y) l -> StronglySorted R (l ++ [y]).
Proof.
  induction 1 as [|x l Hs IH Hx]; intros Hall; simpl.
  - repeat constructor.
  - inversion Hall as [|? ? Hxy Hrest]; subst. constructor; [auto|].
    apply Forall_app. split; [done|]. by constructor.
Qed.

Lemma dict_append_in {V : Type} k (v : V) d key vs :
  In (key, vs) (dict_append k v d) ->
  In (key, vs) d
  \/ (key = k /\ (vs = [v] \/ exists old, In (k, old) d /\ vs = old ++ [v])).
Proof.
  induction d as [|[k' vs'] d IH]; simpl.
  - intros [[= <- <-]|[]]. right. auto.
  - destruct (String.eqb k k') eqn:Hk.
    + apply String.eqb_eq in Hk as <-. intros [[= <- <-]|Hin]; [|auto].
      right. split; [done|]. right. exists vs'. auto.
    + intros [Heq|Hin]; [auto|].
      destruct (IH Hin) as [?|(-> & [->|(old & Hold & ->)])]; auto.
      right. split; [done|]. right. exists old. auto.
Qed.

(** Appending a candidate of the slot [s] keeps an index sorted when every
    slot seen so far is declared no later than [s]. *)
Lemma dict_append_sorted seen d key s i :
  index_sorted seen d ->
  In s seen -> (forall x, In x seen -> schema_le x s) ->
  index_sorted seen (dict_append key (s, i) d).
Proof.
  intros Hd Hs Hle key' cands Hin.
  apply dict_append_in in Hin as [Hin|(-> & [->|(old & Hold & ->)])].
  - exact (Hd _ _ Hin).
  - simpl. split; repeat constructor; done.
  - destruct (Hd _ _ Hold) as [Hsorted Hseen].
    rewrite map_app. simpl. split.
    + apply StronglySorted_snoc; [done|].
      apply Forall_forall. intros x Hx. apply Hle.
      rewrite Forall_forall in Hseen. by apply Hseen.
    + apply Forall_app. split; [done|]. by constructor.
Qed.

Lemma index_name_sorted seen name s i idx :
  indices_sorted seen idx ->
  In s seen -> (forall x, In x seen -> schema_le x s) ->
  indices_sorted seen (_index_name name s i idx).
Proof.
  intros [He Hn] Hs Hle. unfold _index_name.
  destruct (negb (PyStr.truthy _)); [done|].
  split; simpl.
  - by apply dict_append_sorted.
  - destruct (negb (String.eqb _ _)); [by apply dict_append_sorted|done].
Qed.

Lemma index_item_sorted seen s idx item :
  indices_sorted seen idx ->
  In s seen -> (forall x, In x seen -> schema_le x s) ->
  indices_sorted seen (index_item s idx item).
Proof.
  intros Hidx Hs Hle. unfold index_item.
  destruct (negb (PyStr.truthy (item_id item))); [done|].
  set (idx1 := if PyStr.truthy _ then _ else idx).
  assert (H1 : indices_sorted seen idx1).
  { subst idx1. destruct (PyStr.truthy _); [by apply index_name_sorted|done]. }
  clearbody idx1. revert idx1 H1.
  induction (default [] (item_name_i18n item)) as [|e l IH]; intros idx1 H1; [done|].
  simpl. apply IH. destruct (_ && _); [by apply index_name_sorted|done].
Qed.

Lemma indices_sorted_mono seen seen' idx :
  (forall x, In x seen -> In x seen') ->
  indices_sorted seen idx -> indices_sorted seen' idx.
Proof.
  intros Hsub [He Hn]. split; intros key cands Hin.
  - destruct (He _ _ Hin) as [? Hall]. split; [done|].
    eapply Forall_impl; [exact Hall|]. simpl. auto.
  - destruct (Hn _ _ Hin) as [? Hall]. split; [done|].
    eapply Forall_impl; [exact Hall|]. simpl. auto.
Qed.

Lemma schema_le_prefix seen s todo x :
  slot_names = seen ++ s :: todo -> In x (seen ++ [s]) -> schema_le x s.
Proof.
  intros Hnames Hx. unfold schema_le.
  assert (Hs : slot_names !! length seen = Some s).
  { rewrite Hnames. by rewrite lookup_app_r, Nat.sub_diag by lia. }
  apply in_app_or in Hx as [Hx|[<-|[]]].
  - apply list_elem_of_In, list_elem_of_lookup in Hx as [i Hi].
    exists i, (length seen). split; [apply lookup_lt_Some in Hi; lia|].
    split; [|done]. rewrite Hnames. by rewrite lookup_app_l by (by eapply lookup_lt_Some).
  - exists (length seen), (length seen). auto.
Qed.

Lemma build_item_indices_sorted gen :
  indices_sorted slot_names (build_item_indices gen).
Proof.
  unfold build_item_indices.
  assert (Hgen : forall todo seen idx,
             slot_names = seen ++ todo -> indices_sorted seen idx ->
             indices_sorted slot_names
               (foldl (fun idx slot_name =>
                         foldl (index_item slot_name) idx (get_slot_options gen slot_name))
                      idx todo)).
  { induction todo as [|s todo IH]; intros seen idx Hnames Hidx.
    - simpl. rewrite app_nil_r in Hnames. by subst.
    - simpl. apply (IH (seen ++ [s])); [by rewrite <- app_assoc|].
      assert (Hidx' : indices_sorted (seen ++ [s]) idx).
      { eapply indices_sorted_mono; [|exact Hidx]. intros x Hx. apply in_or_app. auto. }
      clear Hidx. revert idx Hidx'.
      induction (get_slot_options gen s) as [|item items IHi]; intros idx Hidx'; [done|].
      simpl. apply IHi. apply index_item_sorted; [done| |].
      + apply in_or_app. right. by left.
      + intros x Hx. by eapply schema_le_prefix. }
  apply (Hgen slot_names [] empty_indices); [done|].
  split; intros key cands [].
Qed.

(** C6, as stated, fails on the iteration order: the words ["school"] and
    ["uniform"] select a candidate in [upper_body] and one in [lower_body];
    when the candidate set is iterated in the order [lower_body],
    [upper_body], the token goes to [lower_body], although [upper_body] is
    declared first and is free. *)
Lemma C6_word_candidates_order_counterexample :
  match_words_candidates Sample.uniform_parser (PyStr.split_ws "school uniform")
  = Some [("upper_body", "top_school"); ("lower_body", "skirt_school")]
  /\ option_map
       (fun r => (res_value_id <$> res_slots r !! "lower_body", res_slots r !! "upper_body"))
       (match parse Sample.decimal_float Sample.toy_ratio Sample.round3
                Sample.reverse_order Sample.uniform_parser "school uniform" false with
        | Returns r => Some r
        | Raises => None
        end)
     = Some (Some "skirt_school", None).
Proof. split; vm_compute; reflexivity. Qed.

(** C6, amended: a token with candidates goes to the first candidate, in
    the order of the list that the winning strategy returned, whose slot is
    not yet in the results; if every candidate slot is filled the token
    text is appended to the unmatched list and the results stay as they
    are.  The lists of the exact and of the normalized index (which the
    fuzzy strategy returns too) are in Slot Schema declaration order; the
    list of the word strategy is the candidate set in the iteration order
    of the set. *)
Theorem C6_assignment :
  (forall st token c matches conf,
      has_matches matches = true ->
      match first_unassigned (st_results st) (default [] matches) with
      | Some (slot_name, i) =>
          st_results st !! slot_name = None
          /\ (exists before after,
                default [] matches = before ++ (slot_name, i) :: after
                /\ Forall (fun cand => is_Some (st_results st !! fst cand)) before)
          /\ st_results (assign st token c matches conf) !! slot_name
             = Some {| res_value_id := i;
                       res_color := if slot_has_color slot_name then c else None;
                       res_weight := tok_weight token;
                       res_enabled := true;
                       res_confidence := conf |}
          /\ (forall other, other <> slot_name ->
                st_results (assign st token c matches conf) !! other
                = st_results st !! other)
          /\ st_unmatched (assign st token c matches conf) = st_unmatched st
          /\ st_matched_count (assign st token c matches conf) = S (st_matched_count st)
      | None =>
          Forall (fun cand => is_Some (st_results st !! fst cand)) (default [] matches)
          /\ st_results (assign st token c matches conf) = st_results st
          /\ st_unmatched (assign st token c matches conf) = st_unmatched st ++ [text token]
          /\ st_matched_count (assign st token c matches conf) = st_matched_count st
      end)
  /\ (forall gen key cands,
         In (key, cands) (exact_index (build_item_indices gen))
         \/ In (key, cands) (normalized_index (build_item_indices gen)) ->
         StronglySorted schema_le (map fst cands))
  /\ (forall set_order parser t cands,
         _match_words set_order parser t = Some cands ->
         exists set_elements,
           match_words_candidates parser (PyStr.split_ws (PyStr.lower t))
           = Some set_elements
           /\ cands = set_order set_elements).
Proof.
  split; [|split].
  - intros st token c matches conf Hm. unfold assign. rewrite Hm.
    pose proof (first_unassigned_spec (st_results st) (default [] matches)) as Hspec.
    destruct (first_unassigned _ _) as [[slot_name i]|].
    + destruct Hspec as (Hfree & Hsplit). simpl.
      split; [done|]. split; [done|]. split; [by rewrite lookup_insert_eq|].
      split; [|done]. intros other Hne. by rewrite lookup_insert_ne.
    + done.
  - intros gen key cands Hin.
    destruct (build_item_indices_sorted gen) as [He Hn].
    destruct Hin as [Hin|Hin]; [by apply (He _ _ Hin)|by apply (Hn _ _ Hin)].
  - intros set_order parser t cands. unfold _match_words.
    destruct (match_words_candidates _ _) as [[|x xs]|]; try done.
    intros [= <-]. eauto.
Qed.

(** When the only candidate slot is filled, the token is unmatched. *)
Example repeated_item_unmatched :
  option_map (fun r => (res_value_id <$> res_slots r !! "upper_body",
                        unmatched r, matched_count r, total_tokens r))
    (match Sample.sample_parse Sample.sample_parser "shirt, shirt" false with
     | Returns r => Some r
     | Raises => None
     end)
  = Some (Some "shirt", ["shirt"], 1%nat, 2%nat).
Proof. vm_compute. reflexivity. Qed.

(** ** The colour trie *)

Lemma lower_app s t : PyStr.lower (s +:+ t) = PyStr.lower s +:+ PyStr.lower t.
Proof. induction s as [|c s IH]; [done|]. rewrite str_app_cons. simpl. by rewrite IH. Qed.

Lemma trie_walk_app t w1 w2 node :
  trie_walk t w1 = Some node -> trie_walk t (w1 +:+ w2) = trie_walk node w2.
Proof.
  revert t. induction w1 as [|c w1 IH]; intros t.
  - simpl. by intros [= ->].
  - rewrite str_app_cons. simpl.
    destruct (ColorTrie.child_get c (ColorTrie.children t)); [apply IH|done].
Qed.

Lemma child_get_set_eq c t kids :
  ColorTrie.child_get c (ColorTrie.child_set c t kids) = Some t.
Proof.
  induction kids as [|[c' t'] kids IH]; simpl.
  - by rewrite Ascii.eqb_refl.
  - destruct (Ascii.eqb c c') eqn:Hc; simpl; rewrite Hc; [done|apply IH].
Qed.

Lemma child_get_set_ne c c' t kids :
  c <> c' ->
  ColorTrie.child_get c' (ColorTrie.child_set c t kids) = ColorTrie.child_get c' kids.
Proof.
  intros Hne. induction kids as [|[d t'] kids IH]; simpl.
  - destruct (Ascii.eqb c' c) eqn:Hc; [|done].
    apply Ascii.eqb_eq in Hc. congruence.
  - destruct (Ascii.eqb c d) eqn:Hcd; simpl.
    + apply Ascii.eqb_eq in Hcd as <-.
      destruct (Ascii.eqb c' c) eqn:Hc; [|done].
      apply Ascii.eqb_eq in Hc. congruence.
    + by rewrite IH.
Qed.

(** After an insertion the inserted path carries the canonical colour, and
    every other path carries what it carried before. *)
Lemma insert_go_lookup chars canonical node node' :
  ColorTrie.insert_go chars canonical node = Some node' ->
  trie_lookup node' chars = Some canonical
  /\ forall w, w <> chars -> trie_lookup node' w = trie_lookup node w.
Proof.
  unfold trie_lookup.
  revert node node'. induction chars as [|c chars IH]; intros node node'; simpl.
  - intros [= <-]. split; [done|].
    intros [|d w] Hw; [done|]. by destruct node.
  - destruct (Ascii.eqb c "$"%char); [done|].
    destruct (ColorTrie.insert_go chars canonical _) as [child'|] eqn:Hrec; [|done].
    intros [= <-]. simpl. rewrite child_get_set_eq.
    destruct (IH _ _ Hrec) as [Hsame Hother]. split; [done|].
    intros [|d w] Hw; simpl; [by destruct node|].
    destruct (decide (c = d)) as [<-|Hne].
    + rewrite child_get_set_eq.
      assert (Hw' : w <> chars) by congruence.
      rewrite (Hother w Hw').
      destruct (ColorTrie.child_get c (ColorTrie.children node)) as [child|]; [done|].
      simpl. clear. destruct w as [|e w]; [done|]. by simpl.
    + by rewrite child_get_set_ne.
Qed.

(** The invariant of the loop of [find_prefix]: an accepted match is a
    non-empty word of the trie that the text continues with a space. *)
Lemma find_prefix_go_sound root pre t node i last_match c n :
  i = String.length pre ->
  trie_walk root (PyStr.lower pre) = Some node ->
  (forall c' n', last_match = Some (c', n') -> accepted_match root (pre +:+ t) c' n') ->
  ColorTrie.find_prefix_go node t i last_match = Returns (Some (c, n)) ->
  accepted_match root (pre +:+ t) c n.
Proof.
  revert pre node i last_match. induction t as [|ch rest IH];
    intros pre node i last_match Hi Hwalk Hlast; simpl.
  - intros [= ->]. by apply Hlast.
  - destruct (Ascii.eqb (PyStr.lower_char ch) "$"%char).
    + destruct (ColorTrie.marker node) as [canonical|]; [|by intros [= ->]; apply Hlast].
      unfold ColorTrie.find_prefix_str. destruct (_ && _); [done|].
      destruct rest as [|c0 rest']; [by intros [= ->]; apply Hlast|].
      destruct (PyStr.contains _ _); [done|]. by intros [= ->]; apply Hlast.
    + destruct (ColorTrie.child_get _ _) as [child|] eqn:Hchild;
        [|by intros [= ->]; apply Hlast].
      intros Hres.
      replace (pre +:+ String ch rest) with ((pre +:+ String ch "") +:+ rest)
        by (by rewrite str_app_assoc).
      refine (IH (pre +:+ String ch "") child (S i) _ _ _ _ Hres).
      * rewrite str_length_app. simpl. lia.
      * rewrite lower_app. rewrite (trie_walk_app _ _ _ _ Hwalk). simpl.
        by rewrite Hchild.
      * intros c' n' Hnew. rewrite str_app_assoc. simpl.
        destruct (ColorTrie.marker child) as [canonical|] eqn:Hmark; [|by apply Hlast].
        destruct (ColorTrie.next_is_space rest) eqn:Hspace; [|by apply Hlast].
        simplify_eq. destruct rest as [|sp rest']; [done|]. simpl in Hspace.
        apply Ascii.eqb_eq in Hspace as ->.
        exists (pre +:+ String ch ""), rest'. repeat split.
        -- by rewrite !str_app_assoc.
        -- by destruct pre.
        -- rewrite str_length_app. simpl. lia.
        -- unfold trie_lookup. rewrite lower_app, (trie_walk_app _ _ _ _ Hwalk).
           simpl. by rewrite Hchild.
Qed.

Lemma find_prefix_sound root t c n :
  ColorTrie.find_prefix root t = Returns (Some (c, n)) -> accepted_match root t c n.
Proof.
  intros H. apply (find_prefix_go_sound root "" t root 0 None c n); done.
Qed.

Lemma contains_app_space word rest :
  PyStr.contains " "%char (word +:+ " " +:+ rest) = true.
Proof. rewrite contains_app. simpl. by rewrite orb_true_r. Qed.

(** C10, as stated, fails for a surface form of several words: ["light
    blue"] is stored in the trie, and so is ["light"]; from the token text
    ["light blue"] the colour ["light"] is extracted and ["blue"] is what
    goes on to the matching cascade. *)
Lemma C10_multiword_colour_counterexample :
  trie_lookup (color_trie Sample.sample_parser) "light blue" = Some "light blue"
  /\ _extract_color Sample.sample_parser "light blue" = Returns (Some "light", "blue").
Proof. split; vm_compute; reflexivity. Qed.

(** C10, amended: a colour is extracted only for a non-empty surface form
    of the trie that the token text continues with a space, and the prefix
    length covers that word and the space.  Consequently a text without
    [$] in which no surface form is followed by a space is passed on
    unchanged without a colour; this covers every text without a space,
    such as a one-word surface form standing alone, but not a surface
    form of several words whose first words are a surface form too. *)
Theorem C10_colour_extraction (parser : PromptParser) (t : string) :
  (forall c n,
      ColorTrie.find_prefix (color_trie parser) t = Returns (Some (c, n)) ->
      exists word rest,
        t = word +:+ " " +:+ rest /\ word <> ""
        /\ n = (String.length word + 1)%nat
        /\ trie_lookup (color_trie parser) (PyStr.lower word) = Some c
        /\ _extract_color parser t = Returns (Some c, PyStr.strip rest))
  /\ (PyStr.contains "$"%char t = false ->
      (forall word rest,
          t = word +:+ " " +:+ rest -> word <> "" ->
          trie_lookup (color_trie parser) (PyStr.lower word) = None) ->
      _extract_color parser t = Returns (None, t))
  /\ (PyStr.contains "$"%char t = false -> PyStr.contains " "%char t = false ->
      _extract_color parser t = Returns (None, t)).
Proof.
  assert (Hnone : PyStr.contains "$"%char t = false ->
                  (forall word rest,
                      t = word +:+ " " +:+ rest -> word <> "" ->
                      trie_lookup (color_trie parser) (PyStr.lower word) = None) ->
                  _extract_color parser t = Returns (None, t)).
  { intros Hd Hno. unfold _extract_color, ColorTrie.find_prefix.
    destruct (find_prefix_go_returns (color_trie parser) t 0 None Hd) as [r Hr].
    rewrite Hr. simpl. destruct r as [[c n]|]; [|done].
    apply find_prefix_sound in Hr as (word & rest & Ht & Hw & _ & Hl).
    rewrite (Hno word rest Ht Hw) in Hl. done. }
  split; [|split].
  - intros c n Hr. pose proof (find_prefix_sound _ _ _ _ Hr) as (word & rest & Ht & Hw & Hn & Hl).
    exists word, rest. repeat split; try done.
    unfold _extract_color. rewrite Hr. simpl. do 3 f_equal.
    rewrite Hn, Ht. replace (word +:+ " " +:+ rest) with (word +:+ String " "%char rest) by done.
    apply drop_succ_app.
  - exact Hnone.
  - intros Hd Hs. apply Hnone; [done|]. intros word rest Ht _.
    rewrite Ht, contains_app_space in Hs. done.
Qed.

(** A one-word colour standing alone is not split off, a colour in front
    of an item is, and a [$] after a colour word makes the lookup raise. *)
Example extract_color_samples :
  _extract_color Sample.sample_parser "red" = Returns (None, "red")
  /\ _extract_color Sample.sample_parser "Red  dress" = Returns (Some "red", "dress")
  /\ _extract_color Sample.sample_parser "reddish dress" = Returns (None, "reddish dress")
  /\ _extract_color Sample.sample_parser "red$d" = Raises.
Proof. repeat split; vm_compute; reflexivity. Qed.

(** ** Round trip: assembling, then parsing *)

Lemma omap_cons_eq {A B : Type} (f : A -> option B) x l :
  omap f (x :: l) = match f x with Some y => y :: omap f l | None => omap f l end.
Proof. reflexivity. Qed.



Lemma emitted_slots_spec gen config slot_name slot :
  In (slot_name, slot) (emitted_slots gen config)
  <-> In slot_name slot_order /\ slots config !! slot_name = Some slot
      /\ slot_skipped gen config slot_name slot = false.
Proof.
  unfold emitted_slots. rewrite <- !list_elem_of_In, list_elem_of_omap. split.
  - intros (n & Hn & Hf). destruct (slots config !! n) as [sl|] eqn:Hs; [|done].
    destruct (slot_skipped gen config n sl) eqn:Hk; [done|]. by simplify_eq.
  - intros (Hin & Hs & Hk). exists slot_name. by rewrite Hs, Hk.
Qed.

Lemma prompt_parts_emitted gen config language :
  prompt_parts gen config language
  = "1girl" :: map (entry_segment gen language) (emitted_slots gen config).
Proof.
  unfold prompt_parts, emitted_slots. f_equal.
  induction slot_order as [|s l IH]; [done|].
  rewrite !omap_cons_eq. unfold slot_part at 1.
  destruct (slots config !! s) as [slot|]; [|done].
  destruct (slot_skipped gen config s slot); [done|].
  simpl map. rewrite <- IH. unfold entry_segment, entry_text, weighted_segment.
  by destruct (negb _).
Qed.







Section RoundTrip.

Variable py_float : string -> option Q.
Variable ratio : string -> string -> Q.
Variable py_round3 : Q -> Q.
Variable set_order : list (string * string) -> list (string * string).
Variable gen : PromptGenerator.
Variable parser : PromptParser.
Variable language : string.






End RoundTrip.








(** The round trip on the sample: a colour, a weight and two slots. *)
Example round_trip_sample :
  _build_prompt_localized Sample.sample_gen Sample.round_trip_config "en"
  = "1girl, blue eyes, (red shirt:1.3)"
  /\ option_map (fun r => (res_value_id <$> res_slots r !! "eye_color",
                           res_value_id <$> res_slots r !! "upper_body",
                           unmatched r))
       (match Sample.sample_parse Sample.sample_parser
                "1girl, blue eyes, (red shirt:1.3)" false with
        | Returns r => Some r
        | Raises => None
        end)
     = Some (Some "eyes_blue", Some "shirt", []).
Proof. split; vm_compute; reflexivity. Qed.

(** ** The exact index of a catalog *)

Lemma dict_get_dict_append {V : Type} k k' (v : V) d :
  dict_get k (dict_append k' v d)
  = if String.eqb k k' then Some (default [] (dict_get k d) ++ [v]) else dict_get k d.
Proof.
  induction d as [|[k0 vs] d IH]; simpl.
  - by destruct (String.eqb k k').
  - destruct (String.eqb k' k0) eqn:Hk0; simpl.
    + apply String.eqb_eq in Hk0 as <-.
      by destruct (String.eqb k k').
    + rewrite IH. destruct (String.eqb k k0) eqn:Hkk0; [|done].
      apply String.eqb_eq in Hkk0 as ->.
      destruct (String.eqb k0 k') eqn:Hc; [|done].
      apply String.eqb_eq in Hc as ->. by rewrite String.eqb_refl in Hk0.
Qed.

Lemma exact_index_index_name name s i idx :
  exact_index (_index_name name s i idx)
  = if PyStr.truthy (exact_key name)
    then dict_append (exact_key name) (s, i) (exact_index idx)
    else exact_index idx.
Proof.
  unfold _index_name, exact_key. by destruct (PyStr.truthy _).
Qed.

Lemma foldl_flat_map {A B C : Type} (f : A -> C -> A) (g : B -> list C) a l :
  foldl f a (flat_map g l) = foldl (fun a x => foldl f a (g x)) a l.
Proof.
  revert a. induction l as [|x l IH]; intros a; [done|].
  simpl. by rewrite foldl_app, IH.
Qed.

Lemma index_item_calls s idx item :
  index_item s idx item
  = foldl (fun idx (call : string * (string * string)) =>
             _index_name (fst call) (fst (snd call)) (snd (snd call)) idx)
          idx
          (map (fun n => (n, (s, item_id item))) (item_index_names item)).
Proof.
  unfold index_item, item_index_names.
  destruct (negb (PyStr.truthy (item_id item))); [done|].
  rewrite map_app, foldl_app.
  set (name := default "" (item_name item)).
  set (idx1 := if PyStr.truthy name then _index_name name s (item_id item) idx else idx).
  assert (H1 : foldl (fun idx (call : string * (string * string)) =>
                        _index_name (fst call) (fst (snd call)) (snd (snd call)) idx)
                     idx
                     (map (fun n => (n, (s, item_id item)))
                          (if PyStr.truthy name then [name] else []))
               = idx1).
  { subst idx1. by destruct (PyStr.truthy name). }
  rewrite H1. clearbody idx1. clear H1. revert idx1.
  induction (default [] (item_name_i18n item)) as [|e l IH]; intros idx1; [done|].
  rewrite omap_cons_eq. simpl foldl.
  destruct (PyStr.truthy (snd e) && negb (String.eqb (snd e) name)); simpl; apply IH.
Qed.

Lemma build_item_indices_calls gen :
  build_item_indices gen
  = foldl (fun idx (call : string * (string * string)) =>
             _index_name (fst call) (fst (snd call)) (snd (snd call)) idx)
          empty_indices (index_calls gen).
Proof.
  unfold build_item_indices, index_calls. rewrite foldl_flat_map.
  generalize empty_indices as idx.
  induction slot_names as [|s l IH]; intros idx; [done|].
  simpl. rewrite <- IH. f_equal. rewrite foldl_flat_map.
  generalize (get_slot_options gen s) as options. clear.
  intros options. revert idx.
  induction options as [|item options IH]; intros idx; [done|].
  simpl. by rewrite index_item_calls, IH.
Qed.

Lemma exact_index_calls key calls idx :
  dict_get key
    (exact_index
       (foldl (fun idx (call : string * (string * string)) =>
                 _index_name (fst call) (fst (snd call)) (snd (snd call)) idx)
              idx calls))
  = match candidates_of key calls with
    | [] => dict_get key (exact_index idx)
    | c :: cs => Some (default [] (dict_get key (exact_index idx)) ++ c :: cs)
    end.
Proof.
  revert idx. induction calls as [|[n [s i]] calls IH]; intros idx; [done|].
  simpl foldl. rewrite IH. unfold candidates_of. rewrite omap_cons_eq.
  fold (candidates_of key calls). cbn [fst snd].
  rewrite exact_index_index_name.
  destruct (PyStr.truthy (exact_key n)); simpl andb; [|done].
  rewrite dict_get_dict_append.
  destruct (String.eqb key (exact_key n)); [|done].
  destruct (candidates_of key calls) as [|c cs]; simpl; [done|].
  by rewrite <- app_assoc.
Qed.

(** The exact index of the parser of a catalog lists under a key, in the
    order of the schema and of the options, the slot and item of every
    name with that key; a key that no name has is absent. *)
Lemma match_exact_built gen parser t :
  indices parser = build_item_indices gen ->
  _match_exact parser t
  = match candidates_of (PyStr.lower t) (index_calls gen) with
    | [] => None
    | c :: cs => Some (c :: cs)
    end.
Proof.
  intros Hidx. unfold _match_exact. rewrite Hidx, build_item_indices_calls.
  rewrite exact_index_calls. simpl. by destruct (candidates_of _ _).
Qed.

Example index_calls_sample :
  index_calls Sample.uniform_gen
  = [ ("school uniform top", ("upper_body", "top_school"));
      ("school uniform skirt", ("lower_body", "skirt_school")) ].
Proof. vm_compute. reflexivity. Qed.

(** ** Randomization: the effect of a call on every slot *)

Section RandomizeSpec.

Variable rng : Type.
Variable randbelow : rng -> nat -> nat * rng.
Variable gen : PromptGenerator.

Lemma choice_In {A : Type} (x : A) rest g :
  In (fst (choice rng randbelow x rest g)) (x :: rest).
Proof.
  unfold choice. destruct (randbelow g (S (length rest))) as [i g']. cbn [fst].
  apply nth_In. apply Nat.mod_upper_bound. discriminate.
Qed.

Lemma sample_slot_spec slot_name g :
  match sample_slot rng randbelow gen slot_name g with
  | (Some it, _) => In it (get_slot_options gen slot_name)
  | (None, g') => get_slot_options gen slot_name = [] /\ g' = g
  end.
Proof.
  unfold sample_slot. destruct (get_slot_options gen slot_name) as [|x rest]; [done|].
  pose proof (choice_In x rest g) as Hin.
  destruct (choice rng randbelow x rest g) as [it g']. exact Hin.
Qed.

Lemma sample_color_from_palette_spec p g :
  match sample_color_from_palette rng randbelow gen p g with
  | (Some c, _) => exists colors, dict_get p (palettes gen) = Some colors /\ In c colors
  | (None, g') =>
      (dict_get p (palettes gen) = None \/ dict_get p (palettes gen) = Some []) /\ g' = g
  end.
Proof.
  unfold sample_color_from_palette.
  destruct (dict_get p (palettes gen)) as [[|c rest]|]; [by auto| |by auto].
  pose proof (choice_In c rest g) as Hin.
  destruct (choice rng randbelow c rest g) as [x g']. eauto.
Qed.

Lemma sample_random_color_spec g :
  exists c, fst (sample_random_color rng randbelow gen g) = Some c
            /\ In c (match individual_colors gen with
                     | [] => ["white"; "black"; "red"; "blue"; "pink"; "purple";
                              "green"; "yellow"]
                     | l => l
                     end).
Proof.
  unfold sample_random_color. destruct (individual_colors gen) as [|c rest].
  - pose proof (choice_In "white"
        ["black"; "red"; "blue"; "pink"; "purple"; "green"; "yellow"] g) as Hin.
    destruct (choice _ _ _ _ _) as [x g']. eauto.
  - pose proof (choice_In c rest g) as Hin.
    destruct (choice _ _ _ _ _) as [x g']. eauto.
Qed.

End RandomizeSpec.

Lemma set_slots_id config : set_slots config (slots config) = config.
Proof. by destruct config. Qed.

Section RandomizeSpec2.

Variable rng : Type.
Variable randbelow : rng -> nat -> nat * rng.
Variable gen : PromptGenerator.

Lemma randomize_slot_spec config slot_name include_color palette_id g config' g' :
  randomize_slot rng randbelow gen config slot_name include_color palette_id g
  = Some (config', g') ->
  let s0 := default default_SlotConfig (slots config !! slot_name) in
  exists s',
    config' = set_slots config (<[slot_name := s']> (slots config))
    /\ enabled s' = enabled s0 /\ locked s' = locked s0 /\ weight s' = weight s0
    /\ (locked s0 = true -> s' = s0 /\ g' = g)
    /\ (locked s0 = false ->
        value_drawn gen slot_name s'
        /\ color_drawn gen (color_mode config) include_color palette_id slot_name s0 s').
Proof.
  intros H. cbv zeta.
  set (s0 := default default_SlotConfig (slots config !! slot_name)).
  unfold randomize_slot in H.
  set (cfg1 := match slots config !! slot_name with Some _ => config | None => _ end) in H.
  assert (Hs0 : default default_SlotConfig (slots cfg1 !! slot_name) = s0).
  { subst cfg1 s0. destruct (slots config !! slot_name) as [s|] eqn:Hs.
    - by rewrite Hs.
    - simpl. by rewrite lookup_insert_eq. }
  assert (Hins : forall s, set_slots cfg1 (<[slot_name := s]> (slots cfg1))
                           = set_slots config (<[slot_name := s]> (slots config))).
  { intros s. subst cfg1. destruct (slots config !! slot_name); [reflexivity|].
    unfold set_slots; simpl. by rewrite insert_insert_eq. }
  assert (Hid : cfg1 = set_slots config (<[slot_name := s0]> (slots config))).
  { subst cfg1 s0. destruct (slots config !! slot_name) as [s|] eqn:Hs; simpl.
    - rewrite insert_id by done. by rewrite set_slots_id.
    - reflexivity. }
  assert (Hmode : color_mode cfg1 = color_mode config).
  { subst cfg1. by destruct (slots config !! slot_name). }
  rewrite Hs0, Hmode in H. clearbody cfg1 s0.
  destruct (locked s0) eqn:Hl.
  { simplify_eq. exists s0. repeat split; cbn [enabled locked weight color color_enabled value value_id set_color set_value]; try congruence; auto. }
  pose proof (sample_slot_spec rng randbelow gen slot_name g) as Hsample.
  destruct (sample_slot _ _ _ _ _) as [item g1].
  set (slot := match item with Some _ => _ | None => _ end) in H.
  assert (Hslot : enabled slot = enabled s0 /\ locked slot = locked s0
                  /\ weight slot = weight s0 /\ color slot = color s0
                  /\ color_enabled slot = color_enabled s0
                  /\ value_drawn gen slot_name slot).
  { subst slot. destruct item as [it|]; simpl; repeat split; auto.
    - right. exists it. by destruct (item_name it).
    - left. by destruct Hsample. }
  clearbody slot. clear Hsample.
  destruct Hslot as (He & Hlk & Hw & Hc & Hce & Hv).
  unfold color_drawn, slot_has_color.
  destruct include_color; cbn [andb].
  - destruct (dict_get slot_name SLOT_DEFINITIONS) as [d|]; [|discriminate].
    destruct (def_has_color d).
    + destruct (PyStr.truthy_opt palette_id
                && dict_has (default "" palette_id) (palettes gen)) eqn:Hpal.
      * pose proof (sample_color_from_palette_spec rng randbelow gen
                      (default "" palette_id) g1) as Hcol.
        destruct (sample_color_from_palette _ _ _ _ _) as [c g2]. simplify_eq.
        rewrite Hins. exists (set_color slot c).
        repeat split; cbn [enabled locked weight color color_enabled value value_id set_color set_value]; try congruence; auto.
        cbn [color set_color]. destruct c as [c|].
        -- destruct Hcol as (colors & -> & Hin). exact Hin.
        -- destruct Hcol as [[Hn | Hn] _]; by rewrite Hn.
      * destruct (String.eqb (color_mode config) "random").
        -- pose proof (sample_random_color_spec rng randbelow gen g1) as (c & Hcol & Hin).
           destruct (sample_random_color _ _ _ _) as [c' g2]. simpl in Hcol.
           simplify_eq. rewrite Hins. exists (set_color slot (Some c)).
           repeat split; cbn [enabled locked weight color color_enabled value value_id set_color set_value]; try congruence; auto. eauto.
        -- simplify_eq. rewrite Hins. exists slot. repeat split; cbn [enabled locked weight color color_enabled value value_id set_color set_value]; try congruence; auto.
    + simplify_eq. rewrite Hins. exists slot. repeat split; cbn [enabled locked weight color color_enabled value value_id set_color set_value]; try congruence; auto.
  - simplify_eq. rewrite Hins. exists slot. repeat split; cbn [enabled locked weight color color_enabled value value_id set_color set_value]; try congruence; auto.
Qed.

End RandomizeSpec2.

Lemma clear_value_fields config n :
  color_mode (clear_value config n) = color_mode config
  /\ active_palette_id (clear_value config n) = active_palette_id config.
Proof. unfold clear_value. by destruct (slots config !! n). Qed.

(** A loop that clears unlocked slots leaves every slot as it was or
    without value. *)
Lemma clear_unlocked_cases names config n :
  let config' :=
    foldl (fun cfg slot_name =>
             match slots cfg !! slot_name with
             | Some s => if locked s then cfg else clear_value cfg slot_name
             | None => cfg
             end) config names in
  color_mode config' = color_mode config
  /\ active_palette_id config' = active_palette_id config
  /\ full_body_mode config' = full_body_mode config
  /\ (slots config' !! n = slots config !! n
      \/ exists s, In n names /\ slots config !! n = Some s /\ locked s = false
                   /\ slots config' !! n = Some (set_value s None None)).
Proof.
  cbv zeta. revert config. induction names as [|m names IH]; intros config.
  - simpl. auto.
  - simpl foldl.
    set (c1 := match slots config !! m with
               | Some s => if locked s then config else clear_value config m
               | None => config end).
    assert (H1 : color_mode c1 = color_mode config
                 /\ active_palette_id c1 = active_palette_id config
                 /\ full_body_mode c1 = full_body_mode config
                 /\ (slots c1 !! n = slots config !! n
                     \/ exists s, n = m /\ slots config !! n = Some s /\ locked s = false
                                  /\ slots c1 !! n = Some (set_value s None None))).
    { subst c1. destruct (slots config !! m) as [s|] eqn:Hs; [|by auto].
      destruct (locked s) eqn:Hl; [by auto|].
      destruct (clear_value_fields config m) as [-> ->].
      rewrite clear_value_mode, clear_value_lookup.
      repeat split. destruct (decide (n = m)) as [->|]; [|by left].
      right. exists s. by rewrite Hs. }
    clearbody c1. destruct H1 as (E1 & E2 & E3 & H1).
    destruct (IH c1) as (F1 & F2 & F3 & H2).
    split; [congruence|]. split; [congruence|]. split; [congruence|].
    destruct H2 as [-> | (s1 & Hin1 & Hs1 & Hl1 & ->)].
    + destruct H1 as [H1 | (s & -> & Hs & Hl & H1)]; [by left|].
      right. exists s. repeat split; auto. by left.
    + right. destruct H1 as [H1 | (s & -> & Hs & Hl & H1)].
      * exists s1. rewrite <- H1. repeat split; auto. by right.
      * exists s. rewrite H1 in Hs1. simplify_eq. repeat split; auto. by left.
Qed.

Lemma full_body_logic_cases config n :
  color_mode (_apply_full_body_logic config) = color_mode config
  /\ active_palette_id (_apply_full_body_logic config) = active_palette_id config
  /\ (slots (_apply_full_body_logic config) !! n = slots config !! n
      \/ exists s, (n = "upper_body" \/ n = "lower_body")
                   /\ slots config !! n = Some s /\ locked s = false
                   /\ slots (_apply_full_body_logic config) !! n
                      = Some (set_value s None None)).
Proof.
  unfold _apply_full_body_logic.
  destruct (slots config !! "full_body") as [fb|]; [|by auto].
  destruct (enabled fb && PyStr.truthy_opt (value fb)); [|by auto].
  destruct (clear_unlocked_cases ["upper_body"; "lower_body"] config n)
    as (H1 & H2 & _ & H3).
  split; [done|]. split; [done|].
  destruct H3 as [H3 | (s & Hin & H3)]; [by left|].
  right. exists s. split; [|done]. simpl in Hin. intuition congruence.
Qed.

Lemma leg_logic_cases gen config n :
  color_mode (_apply_lower_body_leg_logic gen config) = color_mode config
  /\ active_palette_id (_apply_lower_body_leg_logic gen config) = active_palette_id config
  /\ (slots (_apply_lower_body_leg_logic gen config) !! n = slots config !! n
      \/ exists s, n = "legs" /\ slots config !! n = Some s
                   /\ slots (_apply_lower_body_leg_logic gen config) !! n
                      = Some (set_value s None None)).
Proof.
  unfold _apply_lower_body_leg_logic.
  destruct (slots config !! "lower_body") as [lower|]; [|by auto].
  destruct (slots config !! "legs") as [legs|] eqn:Hlegs; [|by auto].
  destruct (_ || _); [by auto|].
  destruct (lower_body_id_covers_legs gen (value_id lower)); [|by auto].
  destruct (clear_value_fields config "legs") as [-> ->].
  rewrite clear_value_lookup. repeat split.
  destruct (decide (n = "legs")) as [->|]; [|by left].
  right. exists legs. by rewrite Hlegs.
Qed.

Lemma leg_logic_invariant gen config legs :
  prompt_lower_covers_legs gen (_apply_lower_body_leg_logic gen config) = true ->
  slots (_apply_lower_body_leg_logic gen config) !! "legs" = Some legs ->
  value legs = None /\ value_id legs = None.
Proof.
  unfold prompt_lower_covers_legs.
  rewrite (proj2 (leg_logic_frame gen config) "lower_body") by done.
  unfold _apply_lower_body_leg_logic.
  destruct (slots config !! "lower_body") as [lower|]; [|discriminate].
  destruct (enabled lower && PyStr.truthy_opt (value_id lower)) eqn:Hg; [|discriminate].
  apply andb_true_iff in Hg as [-> ->]. intros ->. simpl.
  destruct (slots config !! "legs") as [l|] eqn:Hl.
  - rewrite clear_value_lookup. simpl. rewrite Hl. simpl. intros. by simplify_eq.
  - by rewrite Hl.
Qed.

(** The leg-coverage pass does not change the flag that the assembler
    computes from the lower-body slot, and it clears [legs] exactly when that
    flag is set. *)
Lemma lower_covers_after_leg_logic gen config :
  prompt_lower_covers_legs gen (_apply_lower_body_leg_logic gen config)
  = prompt_lower_covers_legs gen config.
Proof.
  unfold prompt_lower_covers_legs.
  by rewrite (proj2 (leg_logic_frame gen config) "lower_body").
Qed.

Lemma leg_logic_lookup gen config legs :
  slots config !! "legs" = Some legs ->
  slots (_apply_lower_body_leg_logic gen config) !! "legs"
  = Some (if prompt_lower_covers_legs gen config then set_value legs None None else legs).
Proof.
  intros Hlegs. unfold _apply_lower_body_leg_logic, prompt_lower_covers_legs.
  rewrite Hlegs.
  destruct (slots config !! "lower_body") as [lower|]; [|done].
  destruct (enabled lower), (PyStr.truthy_opt (value_id lower)); simpl; try done.
  destruct (lower_body_id_covers_legs gen (value_id lower)); [|done].
  rewrite clear_value_lookup.
  destruct (decide ("legs" = "legs")); [|done]. by rewrite Hlegs.
Qed.

Section RandomizeLoop.

Variable rng : Type.
Variable randbelow : rng -> nat -> nat * rng.
Variable gen : PromptGenerator.

Lemma randomize_all_unfold config include_color palette_id g :
  randomize_all rng randbelow gen config include_color palette_id g
  = match randomize_each rng randbelow gen slot_names config include_color palette_id g with
    | Some (c1, g1) =>
        Some (_apply_lower_body_leg_logic gen
                (if full_body_mode c1 then _apply_full_body_logic c1 else c1), g1)
    | None => None
    end.
Proof. unfold randomize_all. by destruct (randomize_each _ _ _ _ _ _ _ _) as [[c1 g1]|]. Qed.

End RandomizeLoop.

Lemma color_drawn_trans gen mode include_color palette_id n s0 s1 s2 :
  color_drawn gen mode include_color palette_id n s0 s1 ->
  color_drawn gen mode include_color palette_id n s1 s2 ->
  color_drawn gen mode include_color palette_id n s0 s2.
Proof.
  unfold color_drawn.
  destruct (include_color && slot_has_color n); [|intuition congruence].
  destruct (_ && _); [done|].
  destruct (String.eqb mode "random"); [done|intuition congruence].
Qed.

Lemma slot_drawn_trans gen mode include_color palette_id n s0 s1 s2 :
  slot_drawn gen mode include_color palette_id n s0 s1 ->
  slot_drawn gen mode include_color palette_id n s1 s2 ->
  slot_drawn gen mode include_color palette_id n s0 s2.
Proof.
  intros (E1 & L1 & W1 & V1 & C1) (E2 & L2 & W2 & V2 & C2).
  split; [congruence|]. split; [congruence|]. split; [congruence|].
  split; [done|]. eapply color_drawn_trans; eauto.
Qed.

Lemma slot_drawn_clear gen mode include_color palette_id n s0 s' :
  slot_drawn gen mode include_color palette_id n s0 s' ->
  enabled (set_value s' None None) = enabled s0
  /\ locked (set_value s' None None) = locked s0
  /\ weight (set_value s' None None) = weight s0
  /\ color_drawn gen mode include_color palette_id n s0 (set_value s' None None).
Proof.
  intros (E & L & W & _ & C). repeat split; auto.
Qed.

Section RandomizeCases.

Variable rng : Type.
Variable randbelow : rng -> nat -> nat * rng.
Variable gen : PromptGenerator.

(** The loop of [randomize_all]: a slot comes out as it went in, which is
    the case of a locked slot and of a name the loop does not visit, or it
    holds what a draw left in it. *)
Lemma randomize_each_cases names config include_color palette_id g config' g' :
  randomize_each rng randbelow gen names config include_color palette_id g
  = Some (config', g') ->
  color_mode config' = color_mode config
  /\ active_palette_id config' = active_palette_id config
  /\ full_body_mode config' = full_body_mode config
  /\ forall n,
       (slots config' !! n = slots config !! n
        /\ (In n names ->
            exists s, slots config !! n = Some s /\ locked s = true))
       \/ (In n names
           /\ locked (default default_SlotConfig (slots config !! n)) = false
           /\ exists s', slots config' !! n = Some s'
                /\ slot_drawn gen (color_mode config) include_color palette_id n
                     (default default_SlotConfig (slots config !! n)) s').
Proof.
  revert config g. induction names as [|m names IH]; intros config g H; simpl in H.
  - simplify_eq. repeat split. intros n. left. split; [done|]. intros [].
  - assert (Hstep : exists c1 g1 s1,
               randomize_each rng randbelow gen names c1 include_color palette_id g1
               = Some (config', g')
               /\ c1 = set_slots config (<[m := s1]> (slots config))
               /\ ((slots config !! m = Some s1 /\ locked s1 = true)
                   \/ (locked (default default_SlotConfig (slots config !! m)) = false
                       /\ slot_drawn gen (color_mode config) include_color palette_id m
                            (default default_SlotConfig (slots config !! m)) s1))).
    { assert (Hcall : forall c1 g1,
                 randomize_slot rng randbelow gen config m include_color palette_id g
                 = Some (c1, g1) ->
                 locked (default default_SlotConfig (slots config !! m)) = false ->
                 exists s1, c1 = set_slots config (<[m := s1]> (slots config))
                   /\ slot_drawn gen (color_mode config) include_color palette_id m
                        (default default_SlotConfig (slots config !! m)) s1).
      { intros c1 g1 Hr Hl.
        apply randomize_slot_spec in Hr as (s1 & -> & He & Hlk & Hw & _ & Hd).
        destruct (Hd Hl) as [Hv Hc]. exists s1. by repeat split. }
      destruct (slots config !! m) as [s|] eqn:Hs; [destruct (locked s) eqn:Hl|].
      - exists config, g, s. split; [done|]. split.
        + rewrite insert_id by done. by rewrite set_slots_id.
        + left. done.
      - destruct (randomize_slot _ _ _ _ _ _ _ _) as [[c1 g1]|] eqn:Hr; [|discriminate].
        destruct (Hcall c1 g1 eq_refl Hl) as (s1 & -> & Hd).
        exists (set_slots config (<[m := s1]> (slots config))), g1, s1.
        split; [done|]. split; [done|]. right. done.
      - destruct (randomize_slot _ _ _ _ _ _ _ _) as [[c1 g1]|] eqn:Hr; [|discriminate].
        destruct (Hcall c1 g1 eq_refl eq_refl) as (s1 & -> & Hd).
        exists (set_slots config (<[m := s1]> (slots config))), g1, s1.
        split; [done|]. split; [done|]. right. done. }
    destruct Hstep as (c1 & g1 & s1 & Hrec & -> & Hfirst).
    destruct (IH _ _ Hrec) as (F1 & F2 & F3 & Hall). simpl in F1, F2, F3.
    split; [done|]. split; [done|]. split; [done|].
    intros n. specialize (Hall n). simpl in Hall.
    destruct (decide (n = m)) as [->|Hne].
    + rewrite lookup_insert_eq in Hall. simpl in Hall.
      destruct Hfirst as [[Hs Hl] | [Hl Hd]].
      * rewrite Hs. destruct Hall as [[Heq _] | (_ & Hl' & _)]; [|congruence].
        left. split; [done|]. intros _. eauto.
      * right. split; [by left|]. split; [done|].
        destruct Hall as [[Heq _] | (_ & Hl' & s' & Hs' & Hd')].
        -- exists s1. done.
        -- exists s'. split; [done|]. eapply slot_drawn_trans; eauto.
    + rewrite lookup_insert_ne in Hall by done.
      destruct Hall as [[Heq Hin] | (Hin & Hl & s' & Hs' & Hd')].
      * left. split; [done|]. intros [->|Hin']; [done|auto].
      * right. split; [by right|]. split; [done|]. eauto.
Qed.

(** [randomize_all]: a slot comes out as it went in; or it is [legs],
    locked, and the leg-coverage pass has cleared it; or it holds what a
    draw left in it, possibly cleared by one of the two passes. *)
Lemma randomize_all_cases config include_color palette_id g config' g' :
  randomize_all rng randbelow gen config include_color palette_id g = Some (config', g') ->
  color_mode config' = color_mode config
  /\ active_palette_id config' = active_palette_id config
  /\ full_body_mode config' = full_body_mode config
  /\ forall n,
       (slots config' !! n = slots config !! n
        /\ (In n slot_names ->
            exists s, slots config !! n = Some s /\ locked s = true))
       \/ (n = "legs"
           /\ exists s, slots config !! n = Some s /\ locked s = true
                /\ slots config' !! n = Some (set_value s None None))
       \/ (In n slot_names
           /\ locked (default default_SlotConfig (slots config !! n)) = false
           /\ exists s', slot_drawn gen (color_mode config) include_color palette_id n
                           (default default_SlotConfig (slots config !! n)) s'
                /\ (slots config' !! n = Some s'
                    \/ slots config' !! n = Some (set_value s' None None))).
Proof.
  unfold randomize_all. intros H.
  destruct (randomize_each _ _ _ _ _ _ _ _) as [[c1 g1]|] eqn:Hloop; [|discriminate].
  simplify_eq.
  destruct (randomize_each_cases _ _ _ _ _ _ _ Hloop) as (F1 & F2 & F3 & Hall).
  set (c2 := if full_body_mode c1 then _apply_full_body_logic c1 else c1).
  assert (H2 : color_mode c2 = color_mode c1
               /\ active_palette_id c2 = active_palette_id c1
               /\ full_body_mode c2 = full_body_mode c1
               /\ forall n,
                    slots c2 !! n = slots c1 !! n
                    \/ exists s, (n = "upper_body" \/ n = "lower_body")
                         /\ slots c1 !! n = Some s /\ locked s = false
                         /\ slots c2 !! n = Some (set_value s None None)).
  { subst c2. destruct (full_body_mode c1) eqn:Hfm.
    - split; [apply (full_body_logic_cases c1 "")|].
      split; [apply (full_body_logic_cases c1 "")|].
      split; [rewrite <- Hfm; apply (full_body_logic_spec c1)|].
      intros n. apply (full_body_logic_cases c1 n).
    - repeat split; auto. }
  clearbody c2. destruct H2 as (G1 & G2 & G3 & H2).
  destruct (leg_logic_cases gen c2 "") as (K1 & K2 & _).
  split; [congruence|]. split; [congruence|].
  split; [rewrite (proj1 (leg_logic_frame gen c2)); congruence|].
  intros n. destruct (leg_logic_cases gen c2 n) as (_ & _ & H3).
  specialize (Hall n). specialize (H2 n).
  destruct Hall as [[Heq Hin] | (Hin & Hl & s' & Hs' & Hd)].
  - (* the loop has left the slot as it was *)
    destruct H2 as [H2 | (s & Hn & Hs & Hl & H2)].
    + destruct H3 as [H3 | (s & -> & Hs & H3)].
      * left. split; [congruence|done].
      * right. left. split; [done|]. destruct Hin as (s0 & Hs0 & Hl0).
        { vm_compute. tauto. }
        exists s0. rewrite H2, Heq, Hs0 in Hs. simplify_eq. done.
    + destruct Hin as (s0 & Hs0 & Hl0).
      { destruct Hn as [-> | ->]; vm_compute; tauto. }
      rewrite Heq, Hs0 in Hs. simplify_eq. congruence.
  - (* the loop has drawn the slot *)
    right. right. split; [done|]. split; [done|].
    destruct H2 as [H2 | (s & Hn & Hs & Hl2 & H2)].
    + destruct H3 as [H3 | (s & -> & Hs & H3)].
      * exists s'. split; [done|]. left. congruence.
      * exists s'. split; [done|]. right. rewrite H2, Hs' in Hs. by simplify_eq.
    + rewrite Hs' in Hs. simplify_eq. exists s. split; [done|]. right.
      destruct H3 as [H3 | (s1 & -> & Hs1 & H3)]; [congruence|].
      rewrite H2 in Hs1. by simplify_eq.
Qed.

End RandomizeCases.

(** [randomize_slot] raises ([KeyError]) exactly when a colour is requested
    for a name that the schema does not declare and the slot of that name
    is not locked; in every other case it returns. *)
Theorem randomize_slot_raises_iff rng randbelow gen config slot_name include_color
  palette_id g :
  randomize_slot rng randbelow gen config slot_name include_color palette_id g = None
  <-> include_color = true
      /\ dict_get slot_name SLOT_DEFINITIONS = None
      /\ forall s, slots config !! slot_name = Some s -> locked s = false.
Proof.
  unfold randomize_slot.
  set (cfg1 := match slots config !! slot_name with Some _ => config | None => _ end).
  assert (Hs0 : default default_SlotConfig (slots cfg1 !! slot_name)
                = default default_SlotConfig (slots config !! slot_name)).
  { subst cfg1. destruct (slots config !! slot_name) as [s|] eqn:Hs.
    - by rewrite Hs.
    - simpl. by rewrite lookup_insert_eq. }
  rewrite Hs0. clearbody cfg1.
  destruct (slots config !! slot_name) as [s|]; cbn [default from_option id locked default_SlotConfig].
  - destruct (locked s) eqn:Hl.
    + split; [discriminate|]. intros (_ & _ & H). specialize (H s eq_refl). congruence.
    + destruct (sample_slot _ _ _ _ _) as [item g1].
      destruct include_color; [|split; [discriminate|by intros [? _]]].
      destruct (dict_get slot_name SLOT_DEFINITIONS) as [d|].
      * split; [|by intros (_ & ? & _)].
        destruct (def_has_color d); [|discriminate].
        destruct (_ && _).
        -- by destruct (sample_color_from_palette _ _ _ _ _).
        -- destruct (String.eqb _ _); [|discriminate].
           by destruct (sample_random_color _ _ _ _).
      * split; [|done]. intros _. repeat split. intros s' ?. by simplify_eq.
  - destruct (sample_slot _ _ _ _ _) as [item g1].
    destruct include_color; [|split; [discriminate|by intros [? _]]].
    destruct (dict_get slot_name SLOT_DEFINITIONS) as [d|].
    * split; [|by intros (_ & ? & _)].
      destruct (def_has_color d); [|discriminate].
      destruct (_ && _).
      -- by destruct (sample_color_from_palette _ _ _ _ _).
      -- destruct (String.eqb _ _); [|discriminate].
         by destruct (sample_random_color _ _ _ _).
    * split; [|done]. intros _. repeat split. intros s' ?. by simplify_eq.
Qed.

(** [randomize_all] returns, keeps the three settings of the configuration,
    leaves every slot of the configuration in place with its [enabled],
    [locked] and [weight] as they were, leaves a slot that the schema does not
    declare untouched, and leaves every slot of the schema present. *)
Theorem randomize_all_frame rng randbelow gen config include_color palette_id g :
  exists config' g',
    randomize_all rng randbelow gen config include_color palette_id g = Some (config', g')
    /\ color_mode config' = color_mode config
    /\ active_palette_id config' = active_palette_id config
    /\ full_body_mode config' = full_body_mode config
    /\ (forall n s, slots config !! n = Some s ->
          exists s', slots config' !! n = Some s'
                     /\ enabled s' = enabled s /\ locked s' = locked s
                     /\ weight s' = weight s)
    /\ (forall n, ~ In n slot_names -> slots config' !! n = slots config !! n)
    /\ (forall n, In n slot_names -> is_Some (slots config' !! n)).
Proof.
  destruct (randomize_all_total rng randbelow gen config include_color palette_id g)
    as [[config' g'] Hr].
  exists config', g'. split; [done|].
  destruct (randomize_all_cases _ _ _ _ _ _ _ _ _ Hr) as (F1 & F2 & F3 & Hall).
  split; [done|]. split; [done|]. split; [done|]. split; [|split].
  - intros n s Hs. destruct (Hall n) as [[Heq _] | [(-> & s0 & Hs0 & Hl & H) | H]].
    + exists s. by rewrite Heq.
    + exists (set_value s0 None None). rewrite Hs in Hs0. by simplify_eq.
    + destruct H as (_ & _ & s' & (E & L & W & _) & Hfin). rewrite Hs in E, L, W.
      destruct Hfin as [-> | ->]; eauto.
  - intros n Hn. destruct (Hall n) as [[Heq _] | [(-> & _) | (Hin & _)]]; [done| |done].
    exfalso. apply Hn. vm_compute. tauto.
  - intros n Hn. destruct (Hall n) as [[Heq Hin] | [(-> & s0 & _ & _ & ->) | H]].
    + destruct (Hin Hn) as (s & Hs & _). rewrite Heq, Hs. eauto.
    + eauto.
    + destruct H as (_ & _ & s' & _ & [-> | ->]); eauto.
Qed.

(** After [randomize_all], a slot either is exactly as it was before the
    call (locked, or not a slot of the schema), or has neither value nor
    value id, or holds the id and the name of one of the options of that
    slot (the empty string for an option without name). *)
Theorem randomize_all_values_from_options rng randbelow gen config include_color
  palette_id g :
  exists config' g',
    randomize_all rng randbelow gen config include_color palette_id g = Some (config', g')
    /\ forall n s',
         slots config' !! n = Some s' ->
         (slots config !! n = Some s' /\ (locked s' = true \/ ~ In n slot_names))
         \/ (value s' = None /\ value_id s' = None)
         \/ exists it, In it (get_slot_options gen n)
                       /\ value_id s' = Some (item_id it)
                       /\ value s' = Some (default "" (item_name it)).
Proof.
  destruct (randomize_all_total rng randbelow gen config include_color palette_id g)
    as [[config' g'] Hr].
  exists config', g'. split; [done|].
  destruct (randomize_all_cases _ _ _ _ _ _ _ _ _ Hr) as (_ & _ & _ & Hall).
  intros n s' Hs'. destruct (Hall n) as [[Heq Hin] | [(-> & s0 & Hs0 & Hl & H) | H]].
  - left. split; [congruence|].
    destruct (decide (In n slot_names)) as [Hn|Hn]; [|by right].
    destruct (Hin Hn) as (s & Hs & Hl). left. rewrite Heq, Hs in Hs'. by simplify_eq.
  - right. left. rewrite Hs' in H. by simplify_eq.
  - destruct H as (_ & _ & s1 & (_ & _ & _ & Hv & _) & Hfin).
    rewrite Hs' in Hfin. destruct Hfin as [? | ?]; simplify_eq.
    + destruct Hv as [(Hv & Hi & _) | Hv]; [right; by left|right; by right].
    + right. by left.
Qed.

(** After [randomize_all], when the flag that the prompt assembler computes
    says that the lower-body item covers the legs, the [legs] slot has
    neither value nor value id. *)
Theorem randomize_all_leg_coverage rng randbelow gen config include_color palette_id g :
  exists config' g',
    randomize_all rng randbelow gen config include_color palette_id g = Some (config', g')
    /\ (prompt_lower_covers_legs gen config' = true ->
        forall legs, slots config' !! "legs" = Some legs ->
                     value legs = None /\ value_id legs = None).
Proof.
  destruct (randomize_each_total rng randbelow gen slot_names config include_color
              palette_id g) as [[c1 g1] Hloop]; [auto|].
  exists (_apply_lower_body_leg_logic gen
            (if full_body_mode c1 then _apply_full_body_logic c1 else c1)), g1.
  split; [by rewrite randomize_all_unfold, Hloop|].
  intros Hcov legs Hlegs. exact (leg_logic_invariant gen _ legs Hcov Hlegs).
Qed.

(** Every locked slot goes through [randomize_all] unchanged, except that
    a locked [legs] slot loses its value and value id when the lower-body
    item of the result covers the legs. *)
Theorem randomize_all_locked_slots rng randbelow gen config include_color palette_id g :
  exists config' g',
    randomize_all rng randbelow gen config include_color palette_id g = Some (config', g')
    /\ forall n s,
         slots config !! n = Some s -> locked s = true ->
         (n <> "legs" -> slots config' !! n = Some s)
         /\ (n = "legs" ->
             if prompt_lower_covers_legs gen config'
             then slots config' !! n = Some (set_value s None None)
             else slots config' !! n = Some s).
Proof.
  destruct (randomize_each_total rng randbelow gen slot_names config include_color
              palette_id g) as [[c1 g1] Hloop]; [auto|].
  set (c2 := if full_body_mode c1 then _apply_full_body_logic c1 else c1).
  exists (_apply_lower_body_leg_logic gen c2), g1.
  split; [by rewrite randomize_all_unfold, Hloop|].
  destruct (randomize_each_frame _ _ _ _ _ _ _ _ _ _ Hloop) as (_ & Hlocked & _ & _).
  assert (Hc2 : forall n s, slots config !! n = Some s -> locked s = true ->
                            slots c2 !! n = Some s).
  { intros n s Hs Hl. subst c2. destruct (full_body_mode c1); [|eauto].
    destruct (full_body_logic_spec c1) as (_ & _ & Hkeep & _). eauto. }
  clearbody c2. intros n s Hs Hl. specialize (Hc2 n s Hs Hl). split.
  - intros Hn. by rewrite (proj2 (leg_logic_frame gen c2)).
  - intros ->. rewrite (lower_covers_after_leg_logic gen c2).
    rewrite (leg_logic_lookup gen c2 s Hc2).
    by destruct (prompt_lower_covers_legs gen c2).
Qed.



(** Without a colour request, and for the slots that support no colour,
    [randomize_all] leaves [color] and [color_enabled] as they were; so it
    does when a colour is requested but the palette is unknown and the
    colour mode is not ["random"]. *)
Theorem randomize_all_colors_kept rng randbelow gen config include_color palette_id g :
  exists config' g',
    randomize_all rng randbelow gen config include_color palette_id g = Some (config', g')
    /\ forall n s s',
         slots config !! n = Some s -> slots config' !! n = Some s' ->
         include_color = false
         \/ slot_has_color n = false
         \/ (PyStr.truthy_opt palette_id
             && dict_has (default "" palette_id) (palettes gen) = false
             /\ String.eqb (color_mode config) "random" = false) ->
         color s' = color s /\ color_enabled s' = color_enabled s.
Proof.
  destruct (randomize_all_total rng randbelow gen config include_color palette_id g)
    as [[config' g'] Hr].
  exists config', g'. split; [done|].
  destruct (randomize_all_cases _ _ _ _ _ _ _ _ _ Hr) as (_ & _ & _ & Hall).
  intros n s s' Hs Hs' Hcond.
  destruct (Hall n) as [[Heq _] | [(-> & s0 & Hs0 & Hl & H) | H]].
  - rewrite Heq, Hs in Hs'. by simplify_eq.
  - rewrite Hs' in H. rewrite Hs in Hs0. by simplify_eq.
  - destruct H as (_ & _ & s1 & (_ & _ & _ & _ & Hc) & Hfin).
    rewrite Hs in Hc. simpl in Hc.
    assert (Hkeep : color s1 = color s /\ color_enabled s1 = color_enabled s).
    { unfold color_drawn in Hc.
      destruct Hcond as [Hic | [Hhc | [Hpal Hmode]]].
      - by rewrite Hic in Hc.
      - rewrite Hhc, andb_false_r in Hc. exact Hc.
      - rewrite Hpal, Hmode in Hc. by destruct (include_color && slot_has_color n). }
    rewrite Hs' in Hfin. destruct Hfin as [? | ?]; simplify_eq; exact Hkeep.
Qed.

(** ** Catalog queries *)

Lemma find_last_Some {A : Type} (p : A -> bool) l y :
  find_last p l = Some y -> p y = true /\ In y l.
Proof.
  induction l as [|x l IH]; [discriminate|]. simpl.
  destruct (find_last p l) as [z|].
  - intros ?; simplify_eq. destruct IH as [? ?]; auto.
  - destruct (p x) eqn:Hp; [|discriminate]. intros ?; simplify_eq. auto.
Qed.

Lemma find_last_exists {A : Type} (p : A -> bool) l x :
  In x l -> p x = true -> exists y, find_last p l = Some y.
Proof.
  induction l as [|z l IH]; [intros []|]. simpl. intros [-> | Hin] Hp.
  - destruct (find_last p l); [eauto|]. rewrite Hp. eauto.
  - destruct (IH Hin Hp) as [y ->]. eauto.
Qed.

Lemma dict_get_In {V : Type} k (d : list (string * V)) v :
  dict_get k d = Some v -> In (k, v) d.
Proof.
  induction d as [|[k' v'] d IH]; [discriminate|]. simpl.
  destruct (String.eqb k k') eqn:Hk.
  - apply String.eqb_eq in Hk as ->. intros ?; simplify_eq. by left.
  - intros H. right. auto.
Qed.

(** An item found under an id carries that id, and is found again under
    its own id. *)
Lemma items_by_id_Some gen catalog_name i it :
  items_by_id gen catalog_name i = Some it ->
  item_id it = i
  /\ items_by_id gen catalog_name (item_id it) = Some it
  /\ exists c, dict_get catalog_name (catalogs gen) = Some c /\ In it (items c).
Proof.
  unfold items_by_id. destruct (dict_get catalog_name (catalogs gen)) as [c|]; [|discriminate].
  intros H. destruct (find_last_Some _ _ _ H) as [Hp Hin].
  apply String.eqb_eq in Hp. subst i. eauto.
Qed.

Lemma items_by_id_exists gen catalog_name c it :
  dict_get catalog_name (catalogs gen) = Some c -> In it (items c) ->
  exists it', items_by_id gen catalog_name (item_id it) = Some it'
              /\ item_id it' = item_id it.
Proof.
  intros Hc Hin. unfold items_by_id. rewrite Hc.
  destruct (find_last_exists (fun x => String.eqb (item_id x) (item_id it)) (items c) it Hin)
    as [y Hy]; [apply String.eqb_refl|].
  exists y. split; [done|]. apply find_last_Some in Hy as [Hp _].
  by apply String.eqb_eq in Hp.
Qed.

(** The options of a slot, case by case. *)
Lemma get_slot_options_In gen n it :
  In it (get_slot_options gen n) ->
  exists d c,
    dict_get n SLOT_DEFINITIONS = Some d
    /\ dict_get (def_catalog d) (catalogs gen) = Some c
    /\ In it (items c)
    /\ (is_Some (def_index_key d) -> String.eqb (def_catalog d) "expressions" = false ->
        items_by_id gen (def_catalog d) (item_id it) = Some it).
Proof.
  unfold get_slot_options.
  destruct (dict_get n SLOT_DEFINITIONS) as [d|]; [|intros []].
  destruct (dict_get (def_catalog d) (catalogs gen)) as [c|] eqn:Hc; [|intros []].
  intros Hin. exists d, c. split; [done|]. split; [done|].
  destruct (String.eqb (def_catalog d) "expressions").
  { split; [done|]. intros _ ?. discriminate. }
  destruct (def_index_key d) as [key|].
  - unfold items_of_ids in Hin. apply list_elem_of_In, list_elem_of_omap in Hin.
    destruct Hin as (i & _ & Hi).
    destruct (items_by_id_Some _ _ _ _ Hi) as (_ & Hself & c' & Hc' & Hin').
    rewrite Hc in Hc'. simplify_eq. auto.
  - split; [|intros [? ?]; discriminate].
    destruct (_ && _); [|done].
    apply list_elem_of_In, list_elem_of_filter in Hin as [_ Hin].
    by apply list_elem_of_In.
Qed.

(** Every option of a slot is an item of the catalog of the slot; an
    option with a non-empty id resolves by that id, through
    [get_slot_item_by_id] and through [resolve_slot_item] whatever name
    comes with it, to an item of that id; and where the slot has an index
    key, to the option itself. *)
Theorem slot_options_resolve gen n it :
  In it (get_slot_options gen n) ->
  exists d c,
    dict_get n SLOT_DEFINITIONS = Some d
    /\ dict_get (def_catalog d) (catalogs gen) = Some c
    /\ In it (items c)
    /\ (PyStr.truthy (item_id it) = true ->
        exists it',
          get_slot_item_by_id gen n (Some (item_id it)) = Some it'
          /\ item_id it' = item_id it
          /\ (forall vname,
                resolve_slot_item gen n (Some (item_id it)) vname = Some it')
          /\ (is_Some (def_index_key d) -> it' = it)).
Proof.
  intros Hin. destruct (get_slot_options_In gen n it Hin) as (d & c & Hd & Hc & Hitems & Hself).
  exists d, c. split; [done|]. split; [done|]. split; [done|].
  intros Hid.
  destruct (items_by_id_exists gen (def_catalog d) c it Hc Hitems) as (it' & Hit' & Hsame).
  exists it'. unfold get_slot_item_by_id, resolve_slot_item. rewrite Hd, Hid, Hit'.
  split; [done|]. split; [done|]. split; [done|].
  intros Hkey.
  assert (Hexpr : String.eqb (def_catalog d) "expressions" = false).
  { clear -Hd Hkey. apply dict_get_In in Hd. revert Hkey.
    unfold SLOT_DEFINITIONS in Hd. simpl in Hd.
    repeat (destruct Hd as [Hd|Hd]; [injection Hd as <- <-; simpl; first [done | by intros [? ?]]|]).
    destruct Hd. }
  specialize (Hself Hkey Hexpr). congruence.
Qed.

Lemma slot_options_resolve_witness :
  exists d c,
    dict_get "upper_body" SLOT_DEFINITIONS = Some d
    /\ dict_get (def_catalog d) (catalogs Sample.sample_gen) = Some c
    /\ In (Sample.mkitem "shirt" "shirt" false) (items c)
    /\ (PyStr.truthy "shirt" = true ->
        exists it',
          get_slot_item_by_id Sample.sample_gen "upper_body" (Some "shirt") = Some it'
          /\ item_id it' = "shirt"
          /\ (forall vname,
                resolve_slot_item Sample.sample_gen "upper_body" (Some "shirt") vname
                = Some it')
          /\ (is_Some (def_index_key d) -> it' = Sample.mkitem "shirt" "shirt" false)).
Proof.
  apply (slot_options_resolve Sample.sample_gen "upper_body"
           (Sample.mkitem "shirt" "shirt" false)).
  vm_compute. left. reflexivity.
Defined.

Lemma dict_get_dict_set {V : Type} k k' (v : V) d :
  dict_get k (dict_set k' v d) = if String.eqb k k' then Some v else dict_get k d.
Proof.
  induction d as [|[k0 v0] d IH]; simpl.
  - by destruct (String.eqb k k').
  - destruct (String.eqb k' k0) eqn:Hk0; simpl.
    + apply String.eqb_eq in Hk0 as <-. by destruct (String.eqb k k').
    + rewrite IH. destruct (String.eqb k k0) eqn:Hkk0; [|done].
      apply String.eqb_eq in Hkk0 as ->.
      destruct (String.eqb k0 k') eqn:Hc; [|done].
      apply String.eqb_eq in Hc as ->. by rewrite String.eqb_refl in Hk0.
Qed.

Lemma covers_map_fold i options mapping :
  dict_get i
    (foldl (fun mapping item =>
              if negb (PyStr.truthy (item_id item)) then mapping
              else dict_set (item_id item) (item_covers_legs item) mapping)
           mapping options)
  = match find_last (fun it => PyStr.truthy (item_id it) && String.eqb (item_id it) i)
                    options with
    | Some it => Some (item_covers_legs it)
    | None => dict_get i mapping
    end.
Proof.
  revert mapping. induction options as [|x options IH]; intros mapping; [done|].
  simpl. rewrite IH.
  destruct (find_last _ options) as [it|]; [done|].
  destruct (PyStr.truthy (item_id x)); simpl; [|done].
  rewrite dict_get_dict_set. rewrite (String.eqb_sym i). by destruct (String.eqb _ _).
Qed.

(** The map of [get_lower_body_covers_legs_by_id] has an entry for an id
    exactly when the id is not empty and is the id of a lower-body option,
    and then the entry is what [lower_body_id_covers_legs] answers for it. *)
Theorem covers_legs_map_consistent gen i :
  match dict_get i (get_lower_body_covers_legs_by_id gen) with
  | Some b =>
      PyStr.truthy i = true
      /\ (exists it, In it (get_slot_options gen "lower_body") /\ item_id it = i)
      /\ lower_body_id_covers_legs gen (Some i) = b
  | None =>
      PyStr.truthy i = false
      \/ forall it, In it (get_slot_options gen "lower_body") -> item_id it <> i
  end.
Proof.
  unfold get_lower_body_covers_legs_by_id. rewrite covers_map_fold. cbn [dict_get].
  destruct (find_last _ _) as [it|] eqn:Hfind.
  - apply find_last_Some in Hfind as [Hp Hin].
    apply andb_true_iff in Hp as [Hid Heq]. apply String.eqb_eq in Heq. subst i.
    split; [done|]. split; [eauto|].
    destruct (get_slot_options_In gen "lower_body" it Hin)
      as (d & c & Hd & _ & _ & Hself).
    unfold lower_body_id_covers_legs, get_slot_item_by_id. rewrite Hd, Hid.
    vm_compute in Hd. injection Hd as <-. rewrite Hself; [done|by eexists|done].
  - destruct (PyStr.truthy i) eqn:Hi; [|by left]. right.
    intros it Hin Heq.
    destruct (find_last_exists
                (fun it => PyStr.truthy (item_id it) && String.eqb (item_id it) i)
                _ it Hin) as [y Hy].
    + rewrite Heq, Hi. apply String.eqb_refl.
    + congruence.
Qed.

(** ** The prompt node: configuration and prompt of [generate] *)

Lemma generate_unfold rng randbelow seed_rng gen ambient seed language palette
  full_body_mode upper_body_mode prefix locks :
  generate rng randbelow seed_rng gen ambient seed language palette full_body_mode
    upper_body_mode prefix locks
  = match generate_config rng randbelow seed_rng gen ambient seed palette full_body_mode
            upper_body_mode locks with
    | Some (config, g) =>
        Some (with_prefix prefix (_build_prompt_localized gen config language), g)
    | None => None
    end.
Proof.
  unfold generate, generate_config, with_prefix.
  by destruct (randomize_all _ _ _ _ _ _ _) as [[c g]|].
Qed.

Lemma default_slots_lookup names n :
  foldl (fun (m : gmap string SlotConfig) n => <[n := default_SlotConfig]> m) ∅ names !! n
  = if decide (n ∈ names) then Some default_SlotConfig else None.
Proof.
  assert (H : forall (m : gmap string SlotConfig),
             foldl (fun (m : gmap string SlotConfig) n => <[n := default_SlotConfig]> m)
                   m names !! n
             = if decide (n ∈ names) then Some default_SlotConfig else m !! n).
  { induction names as [|k names IH]; intros m.
    - cbn [foldl]. destruct (decide (n ∈ [])) as [Hin|]; [|done].
      by apply elem_of_nil in Hin.
    - cbn [foldl]. rewrite IH.
      destruct (decide (n ∈ k :: names)) as [Hc|Hc];
        destruct (decide (n ∈ names)) as [Hin|Hnin];
        try done; try (exfalso; rewrite elem_of_cons in Hc; intuition congruence).
      + destruct (decide (n = k)) as [->|Hne]; [by rewrite lookup_insert_eq|].
        exfalso; rewrite elem_of_cons in Hc; intuition congruence.
      + rewrite lookup_insert_ne; [done|]. intros <-. apply Hc, elem_of_cons. by left. }
  rewrite H. destruct (decide (n ∈ names)); [done|]. apply lookup_empty.
Qed.

Lemma create_default_config_lookup n :
  In n slot_names -> slots create_default_config !! n = Some default_SlotConfig.
Proof.
  intros Hin. unfold create_default_config. cbn [slots].
  rewrite default_slots_lookup. rewrite decide_True; [done|]. by apply list_elem_of_In.
Qed.

(** The loop of the upper-body mode. *)
Lemma disable_slots_lookup names config n :
  let config' :=
    foldl (fun cfg slot_name =>
             match slots cfg !! slot_name with
             | Some s => set_slots cfg (<[slot_name := set_enabled s false]> (slots cfg))
             | None => cfg
             end) config names in
  full_body_mode config' = full_body_mode config
  /\ slots config' !! n
     = if decide (n ∈ names) then (fun s => set_enabled s false) <$> slots config !! n
       else slots config !! n.
Proof.
  cbv zeta. revert config. induction names as [|m names IH]; intros config.
  - cbn [foldl]. split; [done|]. destruct (decide (n ∈ [])) as [Hin|]; [|done].
    by apply elem_of_nil in Hin.
  - simpl foldl.
    set (c1 := match slots config !! m with
               | Some s => set_slots config (<[m := set_enabled s false]> (slots config))
               | None => config end).
    assert (H1 : full_body_mode c1 = full_body_mode config
                 /\ slots c1 !! n
                    = if decide (n = m) then (fun s => set_enabled s false) <$> slots config !! n
                      else slots config !! n).
    { subst c1. destruct (slots config !! m) as [s|] eqn:Hs; simpl.
      - split; [done|]. destruct (decide (n = m)) as [->|Hne].
        + by rewrite lookup_insert_eq, Hs.
        + by rewrite lookup_insert_ne.
      - split; [done|]. destruct (decide (n = m)) as [->|Hne]; [by rewrite Hs|done]. }
    clearbody c1. destruct H1 as [E1 H1]. destruct (IH c1) as [F1 H2].
    split; [congruence|]. rewrite H2, H1.
    destruct (decide (n ∈ m :: names)) as [Hc|Hc];
      destruct (decide (n ∈ names)) as [Hin|Hnin];
      destruct (decide (n = m)) as [->|Hne];
      try done; try (exfalso; rewrite elem_of_cons in Hc; intuition congruence).
    by destruct (slots config !! m).
Qed.

(** The loop of the locks. *)
Lemma lock_slots_lookup locks names config n :
  let config' :=
    foldl (fun cfg slot_name =>
             let locked_value := locks slot_name in
             if PyStr.truthy locked_value && PyStr.truthy (PyStr.strip locked_value) then
               match slots cfg !! slot_name with
               | Some s =>
                   set_slots cfg
                     (<[slot_name := set_value s (Some (PyStr.strip locked_value))
                                                (Some (PyStr.strip locked_value))]>
                        (slots cfg))
               | None => cfg
               end
             else cfg) config names in
  full_body_mode config' = full_body_mode config
  /\ slots config' !! n
     = if decide (n ∈ names) then
         (fun s => if lock_given (locks n)
                   then set_value s (Some (PyStr.strip (locks n)))
                                    (Some (PyStr.strip (locks n)))
                   else s) <$> slots config !! n
       else slots config !! n.
Proof.
  cbv zeta. revert config. induction names as [|m names IH]; intros config.
  - cbn [foldl]. split; [done|]. destruct (decide (n ∈ [])) as [Hin|]; [|done].
    by apply elem_of_nil in Hin.
  - simpl foldl. fold (lock_given (locks m)).
    set (c1 := if lock_given (locks m) then _ else config).
    assert (H1 : full_body_mode c1 = full_body_mode config
                 /\ slots c1 !! n
                    = if decide (n = m) then
                        (fun s => if lock_given (locks n)
                                  then set_value s (Some (PyStr.strip (locks n)))
                                                   (Some (PyStr.strip (locks n)))
                                  else s) <$> slots config !! n
                      else slots config !! n).
    { subst c1. destruct (lock_given (locks m)) eqn:Hlk.
      - destruct (slots config !! m) as [s|] eqn:Hs; simpl.
        + split; [done|]. destruct (decide (n = m)) as [->|Hne].
          * by rewrite lookup_insert_eq, Hs, Hlk.
          * by rewrite lookup_insert_ne.
        + split; [done|]. destruct (decide (n = m)) as [->|Hne]; [by rewrite Hs|done].
      - split; [done|]. destruct (decide (n = m)) as [->|Hne]; [|done].
        rewrite Hlk. by destruct (slots config !! m). }
    clearbody c1. destruct H1 as [E1 H1]. destruct (IH c1) as [F1 H2].
    split; [congruence|]. rewrite H2, H1.
    destruct (decide (n ∈ m :: names)) as [Hc|Hc];
      destruct (decide (n ∈ names)) as [Hin|Hnin];
      destruct (decide (n = m)) as [->|Hne];
      try done; try (exfalso; rewrite elem_of_cons in Hc; intuition congruence).
    destruct (slots config !! m); [|done]. simpl. by destruct (lock_given (locks m)).
Qed.

Lemma slot_names_lock_order n : In n slot_names -> n ∈ lock_order.
Proof.
  intros Hin.
  assert (H : forallb (fun n => bool_decide (n ∈ lock_order)) slot_names = true)
    by (vm_compute; reflexivity).
  rewrite forallb_forall in H. specialize (H n Hin). by apply bool_decide_eq_true in H.
Qed.

Section GenerateFacts.

Variable rng : Type.
Variable randbelow : rng -> nat -> nat * rng.
Variable seed_rng : Z -> rng.
Variable gen : PromptGenerator.

(** The state of every slot of the schema in the configuration that
    [generate] assembles. *)
Lemma generate_config_spec ambient seed palette fbm ubm locks :
  exists config g,
    generate_config rng randbelow seed_rng gen ambient seed palette fbm ubm locks
    = Some (config, g)
    /\ full_body_mode config = fbm
    /\ forall n, In n slot_names ->
         exists s, slots config !! n = Some s
           /\ enabled s = negb (ubm && bool_decide (n ∈ upper_body_mode_slots))
           /\ locked s = false
           /\ weight s = 1%Q
           /\ (if lock_given (locks n)
               then value s = Some (PyStr.strip (locks n))
                    /\ value_id s = Some (PyStr.strip (locks n))
               else (value s = None /\ value_id s = None)
                    \/ exists it, In it (get_slot_options gen n)
                                  /\ value_id s = Some (item_id it)
                                  /\ value s = Some (default "" (item_name it)))
           /\ (palette = "none" -> color s = None /\ color_enabled s = false).
Proof.
  unfold generate_config.
  set (config0 := set_full_body_mode create_default_config fbm).
  set (palette_id := if String.eqb palette "none" then None else Some palette).
  set (include_color := match palette_id with Some _ => true | None => false end).
  set (g0 := random_seed rng seed_rng seed ambient).
  destruct (randomize_all_total rng randbelow gen config0 include_color palette_id g0)
    as [[c1 g1] Hr].
  rewrite Hr.
  destruct (randomize_all_cases _ _ _ _ _ _ _ _ _ Hr) as (_ & _ & Hmode & Hall).
  set (c2 := if ubm then apply_upper_body_mode c1 else c1).
  exists (apply_locks locks c2), g1. split; [done|].
  assert (H2 : full_body_mode c2 = full_body_mode c1
               /\ forall n, slots c2 !! n
                  = if ubm && bool_decide (n ∈ upper_body_mode_slots)
                    then (fun s => set_enabled s false) <$> slots c1 !! n
                    else slots c1 !! n).
  { subst c2. destruct ubm; [|done]. unfold apply_upper_body_mode.
    split; [apply (disable_slots_lookup _ c1 "")|].
    intros n. rewrite (proj2 (disable_slots_lookup _ c1 n)).
    fold upper_body_mode_slots. simpl andb.
    destruct (decide (n ∈ upper_body_mode_slots)) as [Hin|Hnin].
    - by rewrite bool_decide_true.
    - by rewrite bool_decide_false. }
  clearbody c2. destruct H2 as [Hm2 H2].
  assert (H3 : full_body_mode (apply_locks locks c2) = full_body_mode c2
               /\ forall n, n ∈ lock_order ->
                    slots (apply_locks locks c2) !! n
                    = (fun s => if lock_given (locks n)
                                then set_value s (Some (PyStr.strip (locks n)))
                                                 (Some (PyStr.strip (locks n)))
                                else s) <$> slots c2 !! n).
  { split; [apply (lock_slots_lookup locks lock_order c2 "")|].
    intros n Hn. pose proof (proj2 (lock_slots_lookup locks lock_order c2 n)) as H.
    cbv zeta in H. rewrite decide_True in H by done. exact H. }
  destruct H3 as [Hm3 H3].
  split; [by rewrite Hm3, Hm2, Hmode|].
  intros n Hn. rewrite (H3 n (slot_names_lock_order n Hn)).
  rewrite H2. clear H2 H3.
  assert (H1 : exists s1, slots c1 !! n = Some s1
                 /\ enabled s1 = true /\ locked s1 = false /\ weight s1 = 1%Q
                 /\ ((value s1 = None /\ value_id s1 = None)
                     \/ exists it, In it (get_slot_options gen n)
                                   /\ value_id s1 = Some (item_id it)
                                   /\ value s1 = Some (default "" (item_name it)))
                 /\ (palette = "none" -> color s1 = None /\ color_enabled s1 = false)).
  { specialize (Hall n).
    assert (Hd : slots config0 !! n = Some default_SlotConfig).
    { subst config0. cbn [slots set_full_body_mode]. by apply create_default_config_lookup. }
    rewrite Hd in Hall. cbn [default from_option id] in Hall.
    destruct Hall as [[_ Hin] | [(_ & s & Hs & Hl & _) | (_ & _ & s' & Hdrawn & Hfin)]].
    - destruct (Hin Hn) as (s & Hs & Hl). by simplify_eq.
    - by simplify_eq.
    - destruct Hdrawn as (He & Hlk & Hw & Hv & Hc).
      assert (Hcol : palette = "none" -> color s' = None /\ color_enabled s' = false).
      { intros ->. subst include_color palette_id. simpl in Hc.
        unfold color_drawn in Hc. simpl in Hc. exact Hc. }
      assert (Hval : (value s' = None /\ value_id s' = None)
                     \/ exists it, In it (get_slot_options gen n)
                                   /\ value_id s' = Some (item_id it)
                                   /\ value s' = Some (default "" (item_name it))).
      { destruct Hv as [(? & ? & _) | ?]; [by left|by right]. }
      destruct Hfin as [Hfin | Hfin].
      + exists s'. repeat split; auto; tauto.
      + exists (set_value s' None None). repeat split; auto; try tauto. }
  destruct H1 as (s1 & Hs1 & He1 & Hl1 & Hw1 & Hv1 & Hc1). rewrite Hs1.
  destruct (ubm && bool_decide (n ∈ upper_body_mode_slots)) eqn:Hub; cbn [fmap option_fmap option_map].
  - destruct (lock_given (locks n)); eexists; (split; [reflexivity|]);
      repeat split; simpl; auto; tauto.
  - destruct (lock_given (locks n)); eexists; (split; [reflexivity|]);
      repeat split; simpl; auto; tauto.
Qed.

End GenerateFacts.

Lemma slot_order_slot_names n : In n slot_order -> In n slot_names.
Proof.
  intros Hin.
  assert (H : forallb (fun n => bool_decide (n ∈ slot_names)) slot_order = true)
    by (vm_compute; reflexivity).
  rewrite forallb_forall in H. specialize (H n Hin).
  apply bool_decide_eq_true in H. by apply list_elem_of_In.
Qed.

(** [generate] returns the prompt of a configuration, behind the prefix,
    in which every slot of the schema is present, unlocked and of weight 1;
    enabled unless the upper-body mode disables it; with the stripped lock
    string as value and value id when a lock is given, and else without
    value or with the id and name of one of its options; and without
    colour when the palette is ["none"].  No segment of the prompt carries
    the weight syntax. *)
Theorem generate_configuration rng randbelow seed_rng gen ambient seed language palette
  fbm ubm prefix locks :
  exists config g,
    generate rng randbelow seed_rng gen ambient seed language palette fbm ubm prefix locks
    = Some (with_prefix prefix (_build_prompt_localized gen config language), g)
    /\ _build_prompt_localized gen config language
       = PyStr.join ", "
           ("1girl" :: map (fun e => slot_text gen (fst e) (snd e) language)
                           (emitted_slots gen config))
    /\ full_body_mode config = fbm
    /\ forall n, In n slot_names ->
         exists s, slots config !! n = Some s
           /\ enabled s = negb (ubm && bool_decide (n ∈ upper_body_mode_slots))
           /\ locked s = false
           /\ weight s = 1%Q
           /\ (if lock_given (locks n)
               then value s = Some (PyStr.strip (locks n))
                    /\ value_id s = Some (PyStr.strip (locks n))
               else (value s = None /\ value_id s = None)
                    \/ exists it, In it (get_slot_options gen n)
                                  /\ value_id s = Some (item_id it)
                                  /\ value s = Some (default "" (item_name it)))
           /\ (palette = "none" -> color s = None /\ color_enabled s = false).
Proof.
  destruct (generate_config_spec rng randbelow seed_rng gen ambient seed palette fbm ubm
              locks) as (config & g & Hcfg & Hmode & Hslots).
  exists config, g. rewrite generate_unfold, Hcfg.
  split; [done|]. split; [|by split].
  unfold _build_prompt_localized. rewrite prompt_parts_emitted. do 2 f_equal.
  apply map_ext_in. intros [n s] Hin.
  apply emitted_slots_spec in Hin as (Hn & Hs & _).
  destruct (Hslots n (slot_order_slot_names n Hn)) as (s' & Hs' & _ & _ & Hw & _).
  rewrite Hs in Hs'. injection Hs' as <-.
  unfold entry_segment, weighted_segment, entry_text. cbn [fst snd]. by rewrite Hw.
Qed.

(** In upper-body mode the prompt of [generate] has no segment for
    [waist], [lower_body], [full_body], [legs] and [feet], whatever the
    locks say. *)
Theorem generate_upper_body_mode rng randbelow seed_rng gen ambient seed language palette
  fbm prefix locks :
  exists config g,
    generate rng randbelow seed_rng gen ambient seed language palette fbm true prefix locks
    = Some (with_prefix prefix (_build_prompt_localized gen config language), g)
    /\ forall n, In n upper_body_mode_slots ->
         slot_part gen config language n = None
         /\ ~ In n (map fst (emitted_slots gen config)).
Proof.
  destruct (generate_config_spec rng randbelow seed_rng gen ambient seed palette fbm true
              locks) as (config & g & Hcfg & Hmode & Hslots).
  exists config, g. rewrite generate_unfold, Hcfg. split; [done|].
  intros n Hn.
  assert (Hnames : In n slot_names).
  { unfold upper_body_mode_slots in Hn. simpl in Hn.
    repeat (destruct Hn as [<-|Hn]; [vm_compute; tauto|]). destruct Hn. }
  destruct (Hslots n Hnames) as (s & Hs & He & _).
  rewrite bool_decide_true in He by (by apply list_elem_of_In).
  assert (Hskip : slot_skipped gen config n s = true).
  { unfold slot_skipped. by rewrite He. }
  split.
  - unfold slot_part. by rewrite Hs, Hskip.
  - intros Hin. apply in_map_iff in Hin as ([n' s'] & Hfst & Hin). simpl in Hfst. subst n'.
    apply emitted_slots_spec in Hin as (_ & Hs' & Hns).
    rewrite Hs in Hs'. injection Hs' as <-. congruence.
Qed.

(** In full-body mode, and not in upper-body mode, a lock on [full_body]
    removes the segments of [upper_body] and [lower_body] from the prompt of
    [generate], even when these are locked as well. *)
Theorem generate_full_body_lock rng randbelow seed_rng gen ambient seed language palette
  prefix locks :
  lock_given (locks "full_body") = true ->
  exists config g,
    generate rng randbelow seed_rng gen ambient seed language palette true false prefix locks
    = Some (with_prefix prefix (_build_prompt_localized gen config language), g)
    /\ (exists fb, slots config !! "full_body" = Some fb
                   /\ enabled fb = true
                   /\ value_id fb = Some (PyStr.strip (locks "full_body")))
    /\ forall n, n = "upper_body" \/ n = "lower_body" ->
                 slot_part gen config language n = None.
Proof.
  intros Hlock.
  destruct (generate_config_spec rng randbelow seed_rng gen ambient seed palette true false
              locks) as (config & g & Hcfg & Hmode & Hslots).
  exists config, g. rewrite generate_unfold, Hcfg. split; [done|].
  destruct (Hslots "full_body") as (fb & Hfb & He & _ & _ & Hv & _); [vm_compute; tauto|].
  rewrite Hlock in Hv. destruct Hv as [_ Hvid]. simpl in He.
  split; [by exists fb|].
  intros n Hn.
  destruct (Hslots n) as (s & Hs & _); [destruct Hn as [-> | ->]; vm_compute; tauto|].
  unfold slot_part. rewrite Hs.
  assert (Hskip : slot_skipped gen config n s = true).
  { unfold slot_skipped. rewrite Hmode, Hfb, He, Hvid.
    assert (Ht : PyStr.truthy_opt (Some (PyStr.strip (locks "full_body"))) = true).
    { unfold lock_given in Hlock. apply andb_true_iff in Hlock as [_ Hlock]. exact Hlock. }
    rewrite Ht.
    assert (Hname : String.eqb n "upper_body" || String.eqb n "lower_body" = true).
    { destruct Hn as [-> | ->]; reflexivity. }
    rewrite Hname. simpl. by rewrite orb_true_r. }
  by rewrite Hskip.
Qed.

Lemma generate_full_body_lock_witness :
  exists config g,
    generate nat Sample.counter_randbelow Sample.counter_seed Sample.sample_gen 0%nat 7%Z
      "en" "none" true false ""
      (fun n => if String.eqb n "full_body" then "dress_casual" else "")
    = Some (with_prefix "" (_build_prompt_localized Sample.sample_gen config "en"), g)
    /\ (exists fb, slots config !! "full_body" = Some fb
                   /\ enabled fb = true
                   /\ value_id fb = Some (PyStr.strip "dress_casual"))
    /\ forall n, n = "upper_body" \/ n = "lower_body" ->
                 slot_part Sample.sample_gen config "en" n = None.
Proof.
  apply (generate_full_body_lock nat Sample.counter_randbelow Sample.counter_seed
           Sample.sample_gen 0%nat 7%Z "en" "none" ""
           (fun n => if String.eqb n "full_body" then "dress_casual" else "")).
  reflexivity.
Defined.

(** The prompt of the sample catalog with [full_body] locked. *)
Example generate_full_body_lock_sample :
  option_map fst
    (generate nat Sample.counter_randbelow Sample.counter_seed Sample.sample_gen 0%nat 7%Z
       "en" "none" true false " masterpiece "
       (fun n => if String.eqb n "full_body" then "dress_casual"
                 else if String.eqb n "upper_body" then "shirt" else ""))
  = Some "masterpiece, 1girl, blue eyes, dress, thighhighs".
Proof. vm_compute. reflexivity. Qed.

(** ** The parser: invariants of the results *)

Section ParseInvariants.

Variable ratio : string -> string -> Q.
Variable set_order : list (string * string) -> list (string * string).
Variable parser : PromptParser.

Lemma match_cascade_confidence use_fuzzy item_text :
  (85 # 100 <= snd (match_cascade ratio set_order parser use_fuzzy item_text))%Q.
Proof.
  unfold match_cascade.
  destruct (negb (has_matches (_match_exact parser item_text))).
  - destruct (negb (has_matches (_match_normalized parser item_text))).
    + destruct (_ && _ && _).
      * destruct (_match_fuzzy ratio parser item_text) as [[m c]|] eqn:Hf.
        -- apply match_fuzzy_spec in Hf as (_ & Hc & _). exact Hc.
        -- simpl. apply Qle_refl.
      * simpl. apply Qle_refl.
    + destruct (_ && _ && _).
      * destruct (_match_fuzzy ratio parser item_text) as [[m c]|] eqn:Hf.
        -- apply match_fuzzy_spec in Hf as (_ & Hc & _). exact Hc.
        -- simpl. unfold Qle. simpl. lia.
      * simpl. unfold Qle. simpl. lia.
  - destruct (negb (has_matches (_match_exact parser item_text))) eqn:Hn.
    + destruct (_ && _ && _).
      * destruct (_match_fuzzy ratio parser item_text) as [[m c]|] eqn:Hf.
        -- apply match_fuzzy_spec in Hf as (_ & Hc & _). exact Hc.
        -- simpl. apply Qle_refl.
      * simpl. apply Qle_refl.
    + destruct (_ && _ && _).
      * destruct (_match_fuzzy ratio parser item_text) as [[m c]|] eqn:Hf.
        -- apply match_fuzzy_spec in Hf as (_ & Hc & _). exact Hc.
        -- simpl. unfold Qle. simpl. lia.
      * simpl. unfold Qle. simpl. lia.
Qed.

(** The invariant of the loop of [parse]. *)
Lemma assign_invariant tokens st token c matches conf :
  In token tokens -> is_skip (text token) = false -> (85 # 100 <= conf)%Q ->
  st_matched_count st = size (st_results st) ->
  map_Forall (result_ok tokens) (st_results st) ->
  st_matched_count (assign st token c matches conf)
  = size (st_results (assign st token c matches conf))
  /\ map_Forall (result_ok tokens) (st_results (assign st token c matches conf)).
Proof.
  intros Hin Hskip Hconf Hcount Hall. unfold assign.
  destruct (has_matches matches); [|done].
  pose proof (first_unassigned_spec (st_results st) (default [] matches)) as Hfirst.
  destruct (first_unassigned _ _) as [[slot_name i]|]; [|done].
  destruct Hfirst as [Hfresh _]. cbn [st_results st_matched_count]. split.
  - rewrite map_size_insert_None by done. by rewrite Hcount.
  - apply map_Forall_insert; [done|]. split; [|done].
    unfold result_ok. cbn [res_enabled res_confidence res_color res_weight].
    split; [done|]. split; [done|]. split; [|eauto].
    by destruct (slot_has_color slot_name).
Qed.

Lemma parse_tokens_invariant use_fuzzy tokens l st st' :
  (forall t, In t l -> In t tokens) ->
  st_matched_count st = size (st_results st) ->
  map_Forall (result_ok tokens) (st_results st) ->
  parse_tokens ratio set_order parser use_fuzzy st l = Returns st' ->
  st_matched_count st' = size (st_results st')
  /\ map_Forall (result_ok tokens) (st_results st').
Proof.
  revert st. induction l as [|token l IH]; intros st Hsub Hcount Hall H; simpl in H.
  - by simplify_eq.
  - destruct (parse_token ratio set_order parser use_fuzzy st token) as [st1|] eqn:Htok;
      [|discriminate].
    simpl in H. apply (IH st1); [intros t Ht; apply Hsub; by right| | |exact H].
    + unfold parse_token in Htok. destruct (is_skip (text token)) eqn:Hskip.
      * by simplify_eq.
      * destruct (_extract_color parser (text token)) as [ct|]; [|discriminate].
        simpl in Htok.
        pose proof (match_cascade_confidence use_fuzzy (snd ct)) as Hconf.
        destruct (match_cascade _ _ _ _ _) as [matches conf]. simplify_eq.
        apply (assign_invariant tokens); auto. apply Hsub. by left.
    + unfold parse_token in Htok. destruct (is_skip (text token)) eqn:Hskip.
      * by simplify_eq.
      * destruct (_extract_color parser (text token)) as [ct|]; [|discriminate].
        simpl in Htok.
        pose proof (match_cascade_confidence use_fuzzy (snd ct)) as Hconf.
        destruct (match_cascade _ _ _ _ _) as [matches conf]. simplify_eq.
        apply (assign_invariant tokens); auto. apply Hsub. by left.
Qed.

Lemma considered_cons token l :
  considered (token :: l)
  = if is_skip (text token) then considered l else token :: considered l.
Proof. unfold considered. simpl. by destruct (is_skip (text token)). Qed.

(** The texts that the loop of [parse] adds to [unmatched] are texts of
    tokens that it considers, in the order of the tokens. *)
Lemma parse_tokens_unmatched use_fuzzy l st st' :
  parse_tokens ratio set_order parser use_fuzzy st l = Returns st' ->
  exists added, st_unmatched st' = st_unmatched st ++ added
                /\ sublist added (map text (considered l)).
Proof.
  revert st. induction l as [|token l IH]; intros st H; simpl in H.
  - simplify_eq. exists []. by rewrite app_nil_r.
  - destruct (parse_token ratio set_order parser use_fuzzy st token) as [st1|] eqn:Htok;
      [|discriminate].
    simpl in H. destruct (IH st1 H) as (added & Hadd & Hsub).
    unfold parse_token in Htok. rewrite considered_cons.
    destruct (is_skip (text token)) eqn:Hskip; simpl.
    + injection Htok as <-. exists added. by split.
    + destruct (_extract_color parser (text token)) as [ct|]; [|discriminate].
      simpl in Htok. destruct (match_cascade _ _ _ _ _) as [matches conf].
      injection Htok as <-. rewrite Hadd. unfold assign.
      destruct (has_matches matches).
      * destruct (first_unassigned _ _) as [[slot_name i]|]; cbn [st_unmatched].
        -- exists added. split; [done|]. by apply sublist_cons.
        -- exists (text token :: added). rewrite <- app_assoc. split; [done|].
           by apply sublist_skip.
      * cbn [st_unmatched]. exists (text token :: added). rewrite <- app_assoc.
        split; [done|]. by apply sublist_skip.
Qed.

End ParseInvariants.

(** Whenever [parse] returns: [matched_count] is the number of slots of
    the result; every slot of the result is enabled, has a confidence of at
    least 0.85 and the weight of one of the tokens that are not skipped; and
    it has a colour only if the schema gives the slot colour support.  On a
    prompt without the character [$], [parse] returns. *)
Theorem parse_result_invariants py_float ratio py_round3 set_order parser prompt use_fuzzy :
  (PyStr.contains "$"%char prompt = false ->
   exists r, parse py_float ratio py_round3 set_order parser prompt use_fuzzy = Returns r)
  /\ forall r,
       parse py_float ratio py_round3 set_order parser prompt use_fuzzy = Returns r ->
       matched_count r = size (res_slots r)
       /\ forall slot_name res,
            res_slots r !! slot_name = Some res ->
            res_enabled res = true
            /\ (85 # 100 <= res_confidence res)%Q
            /\ (res_color res <> None -> slot_has_color slot_name = true)
            /\ exists token,
                 In token (considered (_tokenize py_float prompt))
                 /\ res_weight res = tok_weight token.
Proof.
  split.
  - intros Hd. unfold parse.
    destruct (parse_tokens_returns ratio set_order parser use_fuzzy initial_state
                (_tokenize py_float prompt)) as [st Hst].
    { by apply contains_tokenize. }
    rewrite Hst. simpl. eauto.
  - intros r H. unfold parse in H.
    destruct (parse_tokens _ _ _ _ _ _) as [st|] eqn:Hloop; [|discriminate].
    simpl in H. injection H as <-. cbn [matched_count res_slots summarize].
    destruct (parse_tokens_invariant ratio set_order parser use_fuzzy
                (_tokenize py_float prompt) (_tokenize py_float prompt)
                initial_state st) as [Hcount Hall]; auto.
    { apply map_Forall_empty. }
    split; [done|]. intros slot_name res Hres.
    destruct (Hall slot_name res Hres) as (He & Hc & Hcol & token & Hin & Hskip & Hw).
    split; [done|]. split; [done|]. split; [done|].
    exists token. split; [|done]. unfold considered. apply filter_In.
    by rewrite Hskip.
Qed.

(** [parse] raises only on a prompt with the character [$]; when it
    returns, [unmatched] lists texts of tokens that are not skipped, in the
    order of the prompt, each token at most once. *)
Theorem parse_unmatched_sublist py_float ratio py_round3 set_order parser prompt use_fuzzy :
  match parse py_float ratio py_round3 set_order parser prompt use_fuzzy with
  | Returns r =>
      sublist (unmatched r) (map text (considered (_tokenize py_float prompt)))
  | Raises => PyStr.contains "$"%char prompt = true
  end.
Proof.
  unfold parse.
  destruct (parse_tokens _ _ _ _ _ _) as [st|] eqn:Hloop; simpl.
  - destruct (parse_tokens_unmatched ratio set_order parser use_fuzzy _ _ _ Hloop)
      as (added & Hadd & Hsub).
    rewrite Hadd. exact Hsub.
  - destruct (PyStr.contains "$"%char prompt) eqn:Hd; [done|].
    destruct (parse_tokens_returns ratio set_order parser use_fuzzy initial_state
                (_tokenize py_float prompt)) as [st Hst].
    { by apply contains_tokenize. }
    congruence.
Qed.

(** ** The colour trie: insertion, and the longest match *)

Lemma insert_go_succeeds chars canonical node :
  PyStr.contains "$"%char chars = false ->
  exists node', ColorTrie.insert_go chars canonical node = Some node'.
Proof.
  revert node. induction chars as [|c chars IH]; intros node; simpl; [eauto|].
  intros H. apply orb_false_iff in H as [Hc Hrest]. rewrite Hc.
  destruct (IH (default ColorTrie.empty
                  (ColorTrie.child_get c (ColorTrie.children node))) Hrest)
    as [child' ->].
  eauto.
Qed.

Lemma contains_lower_dollar s :
  PyStr.contains "$"%char s = false -> PyStr.contains "$"%char (PyStr.lower s) = false.
Proof.
  induction s as [|c s IH]; [done|]. simpl.
  intros H. apply orb_false_iff in H as [Hc Hs].
  by rewrite (lower_char_dollar _ Hc), IH.
Qed.

(** Inserting a word without the character [$] succeeds; afterwards the
    lowered word carries the canonical colour (the word itself when no
    canonical colour is given), and every other word carries what it carried
    before. *)
Theorem trie_insert_lookup word canonical root :
  PyStr.contains "$"%char word = false ->
  exists root',
    ColorTrie.insert word canonical root = Some root'
    /\ trie_lookup root' (PyStr.lower word)
       = Some (if PyStr.truthy_opt canonical then default "" canonical else word)
    /\ forall w, w <> PyStr.lower word -> trie_lookup root' w = trie_lookup root w.
Proof.
  intros Hd. unfold ColorTrie.insert.
  destruct (insert_go_succeeds (PyStr.lower word)
              (if PyStr.truthy_opt canonical then default "" canonical else word) root)
    as [root' Hins].
  { by apply contains_lower_dollar. }
  exists root'. split; [done|]. by apply insert_go_lookup.
Qed.

Lemma trie_insert_lookup_witness :
  exists root',
    ColorTrie.insert "Light Blue" None ColorTrie.empty = Some root'
    /\ trie_lookup root' (PyStr.lower "Light Blue")
       = Some (if PyStr.truthy_opt None then default "" None else "Light Blue")
    /\ forall w, w <> PyStr.lower "Light Blue" ->
                 trie_lookup root' w = trie_lookup ColorTrie.empty w.
Proof.
  apply (trie_insert_lookup "Light Blue" None ColorTrie.empty). reflexivity.
Defined.

Lemma str_app_eq_app (a b c d : string) :
  a +:+ b = c +:+ d ->
  (exists x, c = a +:+ x /\ b = x +:+ d) \/ (exists x, a = c +:+ x /\ d = x +:+ b).
Proof.
  revert c. induction a as [|ch a IH]; intros c H.
  - left. exists c. by rewrite !str_app_nil_l in *.
  - destruct c as [|ch' c].
    + right. exists (String ch a). by rewrite !str_app_nil_l in *.
    + rewrite !str_app_cons in H. injection H as <- H.
      destruct (IH c H) as [(x & -> & ->) | (x & -> & ->)].
      * left. by exists x.
      * right. by exists x.
Qed.

Lemma trie_lookup_walk root pre node w :
  trie_walk root pre = Some node ->
  trie_lookup root (pre +:+ w) = trie_lookup node w.
Proof. intros H. unfold trie_lookup. by rewrite (trie_walk_app _ _ _ _ H). Qed.

(** The loop of [find_prefix] keeps the longest accepted match among the
    words that end at or before its position. *)
Lemma find_prefix_go_longest root pre t node i last_match r :
  PyStr.contains "$"%char t = false ->
  i = String.length pre ->
  trie_walk root (PyStr.lower pre) = Some node ->
  (forall word rest c,
      pre +:+ t = word +:+ " " +:+ rest -> word <> "" ->
      trie_lookup root (PyStr.lower word) = Some c ->
      (String.length word <= String.length pre)%nat ->
      exists c' n', last_match = Some (c', n') /\ (String.length word + 1 <= n')%nat) ->
  ColorTrie.find_prefix_go node t i last_match = Returns r ->
  forall word rest c,
    pre +:+ t = word +:+ " " +:+ rest -> word <> "" ->
    trie_lookup root (PyStr.lower word) = Some c ->
    exists c' n', r = Some (c', n') /\ (String.length word + 1 <= n')%nat.
Proof.
  revert pre node i last_match.
  induction t as [|ch t IH]; intros pre node i last_match Hd Hi Hwalk Hlast; simpl.
  - intros [= <-] word rest c Heq Hne Hlook. apply (Hlast word rest c Heq Hne Hlook).
    apply (f_equal String.length) in Heq. rewrite !str_length_app in Heq. simpl in Heq. lia.
  - simpl in Hd. apply orb_false_iff in Hd as [Hch Hd].
    rewrite (lower_char_dollar _ Hch).
    (* a word longer than the prefix goes through the child of this character *)
    assert (Hlong : forall word rest c,
               pre +:+ String ch t = word +:+ " " +:+ rest ->
               trie_lookup root (PyStr.lower word) = Some c ->
               (String.length pre < String.length word)%nat ->
               exists w' child,
                 word = (pre +:+ String ch "") +:+ w'
                 /\ t = w' +:+ " " +:+ rest
                 /\ ColorTrie.child_get (PyStr.lower_char ch) (ColorTrie.children node)
                    = Some child
                 /\ trie_lookup child (PyStr.lower w') = Some c).
    { intros word rest c Heq Hlook Hlen.
      apply str_app_eq_app in Heq as [(x & -> & Hx) | (x & -> & Hx)].
      - rewrite str_length_app in Hlen.
        destruct x as [|xc x]; [simpl in Hlen; lia|].
        rewrite str_app_cons in Hx. injection Hx as <- ->.
        rewrite lower_app, (trie_lookup_walk _ _ _ _ Hwalk) in Hlook.
        unfold trie_lookup in Hlook. simpl in Hlook.
        destruct (ColorTrie.child_get _ _) as [child|]; [|discriminate].
        exists x, child. rewrite str_app_assoc. by repeat split.
      - rewrite str_length_app in Hlen. lia. }
    destruct (ColorTrie.child_get (PyStr.lower_char ch) (ColorTrie.children node))
      as [child|] eqn:Hchild.
    + intros Hres word rest c Heq Hne Hlook.
      replace (pre +:+ String ch t) with ((pre +:+ String ch "") +:+ t) in Heq
        by (by rewrite str_app_assoc).
      refine (IH (pre +:+ String ch "") child (S i) _ Hd _ _ _ Hres word rest c Heq Hne Hlook).
      * rewrite str_length_app. simpl. lia.
      * rewrite lower_app. rewrite (trie_walk_app _ _ _ _ Hwalk). simpl.
        by rewrite Hchild.
      * clear word rest c Heq Hne Hlook.
        intros word rest c Heq Hne Hlook Hlen.
        rewrite str_app_assoc in Heq. simpl in Heq.
        rewrite str_length_app in Hlen. simpl in Hlen.
        destruct (decide (String.length word <= String.length pre)%nat) as [Hle|Hgt].
        -- destruct (Hlast word rest c Heq Hne Hlook Hle) as (c' & n' & -> & Hn').
           destruct (ColorTrie.marker child); [|eauto].
           destruct (ColorTrie.next_is_space t); [|eauto].
           eexists _, _. split; [reflexivity|]. lia.
        -- destruct (Hlong word rest c Heq Hlook) as (w' & child' & -> & -> & Hc' & Hl');
             [lia|].
           simplify_eq. rewrite !str_length_app in Hlen. simpl in Hlen.
           destruct w' as [|wc w']; [|simpl in Hlen; lia].
           simpl in Hl'. unfold trie_lookup in Hl'. simpl in Hl'. rewrite Hl'.
           simpl. eexists _, _. split; [reflexivity|].
           rewrite !str_length_app. simpl. lia.
    + intros [= <-] word rest c Heq Hne Hlook.
      destruct (decide (String.length word <= String.length pre)%nat) as [Hle|Hgt].
      * by apply (Hlast word rest c Heq Hne Hlook Hle).
      * destruct (Hlong word rest c Heq Hlook) as (w' & child' & _ & _ & Hc' & _); [lia|].
        discriminate.
Qed.

(** On a text without the character [$], [find_prefix] returns; what it
    returns is an accepted match (a non-empty word of the trie that the text
    continues with a space, with the length of the word and the space), and
    no accepted match of the text is longer. *)
Theorem find_prefix_longest root t :
  PyStr.contains "$"%char t = false ->
  exists r,
    ColorTrie.find_prefix root t = Returns r
    /\ (forall c n, r = Some (c, n) -> accepted_match root t c n)
    /\ (forall c n, accepted_match root t c n ->
          exists c' n', r = Some (c', n') /\ (n <= n')%nat).
Proof.
  intros Hd. unfold ColorTrie.find_prefix.
  destruct (find_prefix_go_returns root t 0 None Hd) as [r Hr].
  exists r. split; [done|]. split.
  - intros c n ->. by apply find_prefix_sound.
  - intros c n (word & rest & Heq & Hne & -> & Hlook).
    apply (find_prefix_go_longest root "" t root 0 None r Hd eq_refl eq_refl) with (rest := rest) (c := c);
      try done.
    intros word' rest' c' _ Hne' _ Hlen. destruct word'; [done|simpl in Hlen; lia].
Qed.

Lemma find_prefix_longest_witness :
  exists r,
    ColorTrie.find_prefix (color_trie Sample.sample_parser) "Light Blue dress" = Returns r
    /\ (forall c n, r = Some (c, n) ->
                    accepted_match (color_trie Sample.sample_parser) "Light Blue dress" c n)
    /\ (forall c n,
          accepted_match (color_trie Sample.sample_parser) "Light Blue dress" c n ->
          exists c' n', r = Some (c', n') /\ (n <= n')%nat).
Proof.
  apply (find_prefix_longest (color_trie Sample.sample_parser) "Light Blue dress").
  reflexivity.
Defined.

(** With both ["light"] and ["light blue"] stored, the longer one wins when
    the text goes on after it. *)
Example find_prefix_longest_sample :
  ColorTrie.find_prefix (color_trie Sample.sample_parser) "Light Blue dress"
  = Returns (Some ("light blue", 11%nat)).
Proof. vm_compute. reflexivity. Qed.

(** ** The colour trie of a generator *)

Lemma find_last_app {A : Type} (p : A -> bool) l x :
  find_last p (l ++ [x]) = if p x then Some x else find_last p l.
Proof.
  induction l as [|y l IH]; simpl; [by destruct (p x)|].
  rewrite IH. destruct (p x); [done|]. done.
Qed.

Lemma foldl_omap {A B C : Type} (f : A -> C -> A) (g : B -> option C) a l :
  foldl f a (omap g l)
  = foldl (fun a x => match g x with Some y => f a y | None => a end) a l.
Proof.
  revert a. induction l as [|x l IH]; intros a; [done|].
  rewrite omap_cons_eq. simpl. destruct (g x); simpl; apply IH.
Qed.

Lemma build_color_trie_inserts gen :
  build_color_trie gen
  = foldl (fun acc (call : string * string) =>
             match acc with
             | Some t => ColorTrie.insert (fst call) (Some (snd call)) t
             | None => None
             end)
          (Some ColorTrie.empty) (color_inserts gen).
Proof.
  unfold build_color_trie, color_inserts. rewrite foldl_app, foldl_flat_map.
  assert (H1 : forall acc l,
             foldl (fun acc c => match acc with
                                 | Some t => ColorTrie.insert c (Some c) t
                                 | None => None
                                 end) acc l
             = foldl (fun acc (call : string * string) =>
                        match acc with
                        | Some t => ColorTrie.insert (fst call) (Some (snd call)) t
                        | None => None
                        end) acc (map (fun c => (c, c)) l)).
  { intros acc l. revert acc. induction l as [|c l IH]; intros acc; [done|].
    simpl. by rewrite IH. }
  rewrite H1. clear H1.
  generalize (foldl (fun acc (call : string * string) =>
                       match acc with
                       | Some t => ColorTrie.insert (fst call) (Some (snd call)) t
                       | None => None
                       end) (Some ColorTrie.empty)
                    (map (fun c => (c, c)) (individual_colors gen))).
  induction (color_i18n gen) as [|[key names] l IH]; intros acc0; [done|].
  simpl foldl. rewrite <- IH. f_equal. rewrite foldl_omap. cbn [fst snd].
  generalize acc0. clear.
  induction names as [|[lang loc] names IH]; intros acc; [done|].
  simpl. destruct (PyStr.truthy loc); apply IH.
Qed.

Lemma trie_lookup_empty w : trie_lookup ColorTrie.empty w = None.
Proof. by destruct w. Qed.

(** The trie after a sequence of insertions: a word carries what the last
    insertion of that word stored. *)
Lemma insert_calls_lookup calls t w :
  foldl (fun acc (call : string * string) =>
           match acc with
           | Some t => ColorTrie.insert (fst call) (Some (snd call)) t
           | None => None
           end)
        (Some ColorTrie.empty) calls = Some t ->
  trie_lookup t w
  = stored_canonical
      <$> find_last (fun call => String.eqb (PyStr.lower (fst call)) w) calls.
Proof.
  revert t. induction calls as [|call calls IH] using rev_ind; intros t.
  - simpl. intros [= <-]. apply trie_lookup_empty.
  - rewrite foldl_app. simpl.
    destruct (foldl _ _ calls) as [t0|]; [|discriminate].
    intros Hins. unfold ColorTrie.insert in Hins.
    apply insert_go_lookup in Hins as [Hsame Hother].
    rewrite find_last_app.
    destruct (String.eqb (PyStr.lower (fst call)) w) eqn:Hw.
    + apply String.eqb_eq in Hw as <-. rewrite Hsame. done.
    + rewrite Hother; [by apply IH|].
      intros ->. by rewrite String.eqb_refl in Hw.
Qed.

(** The trie of a constructed parser carries, for a lowered word, the
    canonical colour of the last insertion that [_build_indices] makes for
    that word, and nothing for any other word; so a colour that
    [_extract_color] returns is the canonical colour of a colour word of the
    generator, and the text begins with that word, in any case of letters,
    followed by a space. *)
Theorem color_trie_built gen parser :
  PromptParser_init gen = Some parser ->
  (forall w,
      trie_lookup (color_trie parser) w
      = stored_canonical
          <$> find_last (fun call => String.eqb (PyStr.lower (fst call)) w)
                        (color_inserts gen))
  /\ (forall t c item_text,
         _extract_color parser t = Returns (Some c, item_text) ->
         exists call word rest,
           In call (color_inserts gen)
           /\ c = stored_canonical call
           /\ t = word +:+ " " +:+ rest
           /\ PyStr.lower word = PyStr.lower (fst call)).
Proof.
  unfold PromptParser_init. intros Hinit.
  destruct (build_color_trie gen) as [trie|] eqn:Hbuild; [|discriminate].
  injection Hinit as <-. cbn [color_trie].
  rewrite build_color_trie_inserts in Hbuild.
  split; [intros w; by apply insert_calls_lookup|].
  intros t c item_text Hex. unfold _extract_color in Hex. cbn [color_trie] in Hex.
  destruct (ColorTrie.find_prefix trie t) as [[[c' n]|]|] eqn:Hfind; simpl in Hex;
    [|discriminate|discriminate].
  injection Hex as -> _.
  apply find_prefix_sound in Hfind as (word & rest & -> & _ & _ & Hlook).
  rewrite (insert_calls_lookup _ _ _ Hbuild) in Hlook.
  destruct (find_last _ _) as [call|] eqn:Hlast; [|discriminate].
  apply find_last_Some in Hlast as [Hp Hin]. apply String.eqb_eq in Hp.
  injection Hlook as <-. exists call, word, rest. by repeat split.
Qed.

Lemma color_trie_built_witness :
  (forall w,
      trie_lookup (color_trie Sample.sample_parser) w
      = stored_canonical
          <$> find_last (fun call => String.eqb (PyStr.lower (fst call)) w)
                        (color_inserts Sample.sample_gen))
  /\ (forall t c item_text,
         _extract_color Sample.sample_parser t = Returns (Some c, item_text) ->
         exists call word rest,
           In call (color_inserts Sample.sample_gen)
           /\ c = stored_canonical call
           /\ t = word +:+ " " +:+ rest
           /\ PyStr.lower word = PyStr.lower (fst call)).
Proof.
  apply (color_trie_built Sample.sample_gen Sample.sample_parser).
  vm_compute. reflexivity.
Defined.

(** ** The normalized index of a catalog *)

Lemma normalized_index_index_name name s i idx :
  normalized_index (_index_name name s i idx)
  = if PyStr.truthy (exact_key name)
       && negb (String.eqb (_normalize (exact_key name)) (exact_key name))
    then dict_append (_normalize (exact_key name)) (s, i) (normalized_index idx)
    else normalized_index idx.
Proof.
  unfold _index_name, exact_key. destruct (PyStr.truthy _); [|done].
  simpl. by destruct (negb _).
Qed.

Lemma normalized_index_calls key calls idx :
  dict_get key
    (normalized_index
       (foldl (fun idx (call : string * (string * string)) =>
                 _index_name (fst call) (fst (snd call)) (snd (snd call)) idx)
              idx calls))
  = match normalized_candidates_of key calls with
    | [] => dict_get key (normalized_index idx)
    | c :: cs => Some (default [] (dict_get key (normalized_index idx)) ++ c :: cs)
    end.
Proof.
  revert idx. induction calls as [|[n [s i]] calls IH]; intros idx; [done|].
  simpl foldl. rewrite IH. unfold normalized_candidates_of. rewrite omap_cons_eq.
  fold (normalized_candidates_of key calls). cbn [fst snd].
  rewrite normalized_index_index_name.
  destruct (PyStr.truthy (exact_key n)
            && negb (String.eqb (_normalize (exact_key n)) (exact_key n))); simpl andb;
    [|done].
  rewrite dict_get_dict_append.
  destruct (String.eqb key (_normalize (exact_key n))); [|done].
  destruct (normalized_candidates_of key calls) as [|c cs]; simpl; [done|].
  by rewrite <- app_assoc.
Qed.

(** The normalized index of the parser of a catalog lists under a key, in
    the order of the schema and of the options, the slot and item of every
    name whose normalized form is the key and differs from the lowered and
    stripped name; a name without white space, hyphen and underscore is not
    in this index. *)
Theorem match_normalized_built gen parser t :
  indices parser = build_item_indices gen ->
  _match_normalized parser t
  = match normalized_candidates_of (_normalize t) (index_calls gen) with
    | [] => None
    | c :: cs => Some (c :: cs)
    end.
Proof.
  intros Hidx. unfold _match_normalized. rewrite Hidx, build_item_indices_calls.
  rewrite normalized_index_calls. simpl. by destruct (normalized_candidates_of _ _).
Qed.

Lemma match_normalized_built_witness :
  _match_normalized Sample.sample_parser "Long_Skirt"
  = match normalized_candidates_of (_normalize "Long_Skirt")
            (index_calls Sample.sample_gen) with
    | [] => None
    | c :: cs => Some (c :: cs)
    end.
Proof.
  apply (match_normalized_built Sample.sample_gen Sample.sample_parser "Long_Skirt").
  vm_compute. reflexivity.
Defined.

(** ["long skirt"] is found by any spelling of its separators; the
    one-word name ["thighhighs"] is in the exact index only, and a spelling
    with a separator does not reach it in the normalized tier. *)
Example match_normalized_sample :
  _match_normalized Sample.sample_parser "Long_Skirt" = Some [("lower_body", "skirt_long")]
  /\ _match_normalized Sample.sample_parser "longskirt" = Some [("lower_body", "skirt_long")]
  /\ _match_exact Sample.sample_parser "thighhighs" = Some [("legs", "thighhighs")]
  /\ _normalize "thigh-highs" = "thighhighs"
  /\ _match_normalized Sample.sample_parser "thigh-highs" = None.
Proof. repeat split; vm_compute; reflexivity. Qed.

Lemma match_exact_built_witness :
  _match_exact Sample.uniform_parser "School Uniform Top"
  = match candidates_of (PyStr.lower "School Uniform Top")
            (index_calls Sample.uniform_gen) with
    | [] => None
    | c :: cs => Some (c :: cs)
    end.
Proof.
  apply (match_exact_built Sample.uniform_gen Sample.uniform_parser "School Uniform Top").
  vm_compute. reflexivity.
Defined.

(** ** Saved configurations: the round trip through [to_dict] *)

Lemma SlotConfig_round_trip_eq s :
  SlotConfig_from_dict (SlotConfig_to_dict s) = Returns (Some s).
Proof.
  destruct s as [e l v vid c ce w].
  unfold SlotConfig_from_dict, SlotConfig_to_dict. cbn [enabled locked value value_id color color_enabled weight].
  destruct v, vid, c; reflexivity.
Qed.

Lemma foldl_insert_lookup {V : Type} (l : list (string * V)) (m0 : gmap string V) k :
  NoDup (l.*1) ->
  foldl (fun m (kv : string * V) => <[fst kv := snd kv]> m) m0 l !! k
  = match (list_to_map l : gmap string V) !! k with
    | Some v => Some v
    | None => m0 !! k
    end.
Proof.
  revert m0. induction l as [|[k1 v1] l IH]; intros m0 Hnd.
  - simpl. by rewrite lookup_empty.
  - apply NoDup_cons in Hnd as [Hnotin Hnd]. simpl. rewrite (IH _ Hnd).
    destruct (decide (k = k1)) as [->|Hne].
    + rewrite lookup_insert_eq.
      rewrite (not_elem_of_list_to_map_1 _ _ Hnotin). by rewrite lookup_insert_eq.
    + rewrite !lookup_insert_ne by done. done.
Qed.

Lemma slots_round_trip (m : gmap string SlotConfig) :
  slots_from_dict
    (map (fun kv : string * SlotConfig => (fst kv, PDict (SlotConfig_to_dict (snd kv))))
         (map_to_list m))
  = Returns (Some m).
Proof.
  unfold slots_from_dict.
  assert (H : forall l (m0 : gmap string SlotConfig),
             foldl (fun (acc : outcome (option (gmap string SlotConfig)))
                        (kv : string * pyval) =>
                      match acc with
                      | Returns (Some m) =>
                          match snd kv with
                          | PDict slot_data =>
                              match SlotConfig_from_dict slot_data with
                              | Returns (Some s) => Returns (Some (<[fst kv := s]> m))
                              | Returns None => Returns None
                              | Raises => Raises
                              end
                          | _ => Returns None
                          end
                      | other => other
                      end)
                   (Returns (Some m0))
                   (map (fun kv : string * SlotConfig =>
                           (fst kv, PDict (SlotConfig_to_dict (snd kv)))) l)
             = Returns (Some (foldl (fun m (kv : string * SlotConfig) =>
                                       <[fst kv := snd kv]> m) m0 l))).
  { induction l as [|[k v] l IH]; intros m0; [done|].
    cbn [map foldl fst snd]. rewrite SlotConfig_round_trip_eq. apply IH. }
  rewrite H. do 2 f_equal. apply map_eq. intros k.
  rewrite foldl_insert_lookup by apply NoDup_fst_map_to_list.
  rewrite list_to_map_to_list, lookup_empty. by destruct (m !! k).
Qed.

(** [SlotConfig.from_dict] reads back what [SlotConfig.to_dict] writes; it
    fills the fields that a dict leaves out with the defaults of the
    dataclass, and raises on a key that is not a field. *)
Theorem SlotConfig_round_trip s :
  SlotConfig_from_dict (SlotConfig_to_dict s) = Returns (Some s)
  /\ SlotConfig_from_dict [] = Returns (Some default_SlotConfig)
  /\ (forall data,
        SlotConfig_from_dict data = Raises
        <-> exists k v, In (k, v) data /\ ~ In k SlotConfig_fields).
Proof.
  split; [apply SlotConfig_round_trip_eq|]. split; [reflexivity|].
  intros data. unfold SlotConfig_from_dict.
  destruct (forallb _ data) eqn:Hall; simpl.
  - split; [discriminate|]. intros (k & v & Hin & Hk).
    rewrite forallb_forall in Hall. specialize (Hall _ Hin). simpl in Hall.
    apply bool_decide_eq_true in Hall. by apply list_elem_of_In in Hall.
  - split; [|done]. intros _.
    assert (Hex : existsb (fun kv : string * pyval =>
                             negb (bool_decide (fst kv ∈ SlotConfig_fields))) data = true).
    { clear -Hall. induction data as [|kv data IH]; [discriminate|].
      simpl in Hall |- *. destruct (bool_decide _); simpl in *; auto. }
    apply existsb_exists in Hex as ([k v] & Hin & Hk). exists k, v. split; [done|].
    simpl in Hk. apply negb_true_iff, bool_decide_eq_false in Hk.
    intros Hk'. by apply Hk, list_elem_of_In.
Qed.

(** [GeneratorConfig.from_dict] reads back what [GeneratorConfig.to_dict]
    writes: the same slots and settings and the same name; the creation time
    comes back as written, which is the time of the call of [to_dict] for a
    configuration that had none. *)
Theorem GeneratorConfig_round_trip now meta config :
  GeneratorConfig_from_dict (GeneratorConfig_to_dict now meta config)
  = Returns
      (Some ({| meta_name := meta_name meta;
                meta_created_at :=
                  Some (if PyStr.truthy_opt (meta_created_at meta)
                        then default "" (meta_created_at meta) else now) |},
             config)).
Proof.
  unfold GeneratorConfig_from_dict, GeneratorConfig_to_dict.
  unfold str_field, opt_str_field, bool_field.
  cbn [dict_get String.eqb Ascii.eqb Bool.eqb].
  set (created := if PyStr.truthy_opt (meta_created_at meta) then _ else now).
  assert (Hp : opt_str_field "active_palette_id"
                 [("active_palette_id", of_opt_str (active_palette_id config))]
               = Some (active_palette_id config)).
  { unfold opt_str_field. cbn. by destruct (active_palette_id config). }
  unfold opt_str_field in Hp. cbn [dict_get String.eqb Ascii.eqb Bool.eqb] in Hp.
  rewrite Hp. rewrite slots_round_trip. by destruct config.
Qed.

(** ** The randomization routes *)

Lemma dict_has_slot_names n : dict_has n SLOT_DEFINITIONS = true <-> In n slot_names.
Proof.
  unfold dict_has, slot_names.
  induction SLOT_DEFINITIONS as [|[k v] l IH]; simpl; [split; [discriminate|tauto]|].
  destruct (String.eqb n k) eqn:Hk.
  - apply String.eqb_eq in Hk as ->. split; auto.
  - rewrite IH. split; [auto|]. intros [->|H]; [|done].
    by rewrite String.eqb_refl in Hk.
Qed.

Section RouteFacts.

Variable rng : Type.
Variable randbelow : rng -> nat -> nat * rng.
Variable gen : PromptGenerator.
Variable locked : gmap string bool.
Variable palette_enabled : bool.
Variable palette_id : option string.

(** What the sampling of a route puts in an entry. *)
Lemma route_draw_ok name g :
  let '(value_id, value, g1) := route_sample rng randbelow gen name g in
  let (color, g2) := route_color rng randbelow gen name palette_enabled palette_id g1 in
  route_entry_ok gen palette_enabled palette_id name
    {| rr_value_id := value_id; rr_value := value; rr_color := color |}.
Proof.
  unfold route_sample, route_color.
  pose proof (sample_slot_spec rng randbelow gen name g) as Hs.
  destruct (sample_slot rng randbelow gen name g) as [item g1].
  set (triple := match item with Some it => _ | None => _ end).
  assert (Hv : (fst (fst triple) = None /\ snd (fst triple) = None
                /\ get_slot_options gen name = [])
               \/ exists it, In it (get_slot_options gen name)
                             /\ fst (fst triple) = Some (item_id it)
                             /\ snd (fst triple) = item_name it).
  { subst triple. destruct item as [it|]; simpl.
    - right. eauto.
    - left. by destruct Hs. }
  destruct triple as [[value_id value] g1']. simpl in Hv.
  destruct (slot_has_color name) eqn:Hcol.
  - destruct (palette_enabled && PyStr.truthy_opt palette_id) eqn:Hpal.
    + pose proof (sample_color_from_palette_spec rng randbelow gen
                    (default "" palette_id) g1') as Hc.
      destruct (sample_color_from_palette _ _ _ _ _) as [color g2].
      split; [exact Hv|]. cbn [rr_color]. intros c ->.
      apply andb_true_iff in Hpal as [-> Hp]. destruct Hc as (colors & Hd & Hin).
      destruct palette_id as [p|]; [|discriminate]. simpl in *.
      split; [done|]. split; [done|]. exists p, colors. by split; [|split; [|split]].
    + split; [exact Hv|]. cbn [rr_color]. discriminate.
  - split; [exact Hv|]. cbn [rr_color]. discriminate.
Qed.

Lemma all_route_step_inv processed st name :
  all_route_inv gen locked palette_enabled palette_id processed st ->
  all_route_inv gen locked palette_enabled palette_id (processed ++ [name])
    (randomize_all_route_step rng randbelow gen locked palette_enabled palette_id st name).
Proof.
  destruct st as [[results fbv] g]. intros [Hfb Hall]. simpl in Hfb.
  unfold randomize_all_route_step.
  destruct (route_locked locked name) eqn:Hl.
  - split; [done|]. intros n. specialize (Hall n). cbn [fst snd] in *.
    destruct (results !! n) as [r|].
    + destruct Hall as (Hin & ? & ?). split; [apply in_or_app; by left|]. by split.
    + destruct (decide (n = name)) as [->|Hne]; [by right|].
      destruct Hall as [Hnin|?]; [left|by right].
      intros Hin. apply in_app_or in Hin as [?|[?|[]]]; congruence.
  - pose proof (route_draw_ok name g) as Hdraw.
    destruct (route_sample rng randbelow gen name g) as [[value_id value] g1].
    destruct (route_color rng randbelow gen name palette_enabled palette_id g1)
      as [color g2].
    split.
    + cbn [fst snd]. destruct (String.eqb name "full_body") eqn:Hn.
      * apply String.eqb_eq in Hn as ->. by rewrite lookup_insert_eq.
      * rewrite lookup_insert_ne; [done|]. intros ->. by rewrite String.eqb_refl in Hn.
    + intros n. specialize (Hall n). cbn [fst snd] in *.
      destruct (decide (n = name)) as [->|Hne].
      * rewrite lookup_insert_eq. split; [apply in_or_app; right; by left|]. by split.
      * rewrite lookup_insert_ne by done.
        destruct (results !! n) as [r|].
        -- destruct Hall as (Hin & ? & ?). split; [apply in_or_app; by left|]. by split.
        -- destruct Hall as [Hnin|?]; [left|by right].
           intros Hin. apply in_app_or in Hin as [?|[?|[]]]; congruence.
Qed.

Lemma all_route_loop_inv names processed st :
  all_route_inv gen locked palette_enabled palette_id processed st ->
  all_route_inv gen locked palette_enabled palette_id (processed ++ names)
    (foldl (randomize_all_route_step rng randbelow gen locked palette_enabled palette_id)
           st names).
Proof.
  revert processed st. induction names as [|name names IH]; intros processed st Hinv.
  - by rewrite app_nil_r.
  - simpl. replace (processed ++ name :: names) with ((processed ++ [name]) ++ names)
      by (by rewrite <- app_assoc).
    apply IH. by apply all_route_step_inv.
Qed.

Lemma route_override_lookup results n :
  route_full_body_override locked results !! n
  = if bool_decide (n = "upper_body" \/ n = "lower_body") && negb (route_locked locked n)
    then (fun r => {| rr_value_id := None; rr_value := None; rr_color := rr_color r |})
           <$> results !! n
    else results !! n.
Proof.
  unfold route_full_body_override. cbn [foldl].
  set (r1 := match results !! "upper_body" with
             | Some r => if negb (route_locked locked "upper_body")
                         then <["upper_body" := {| rr_value_id := None; rr_value := None; rr_color := rr_color r |}]> results else results
             | None => results end).
  assert (H1 : forall m, r1 !! m
               = if bool_decide (m = "upper_body") && negb (route_locked locked m)
                 then (fun r => {| rr_value_id := None; rr_value := None; rr_color := rr_color r |}) <$> results !! m else results !! m).
  { intros m. subst r1. destruct (decide (m = "upper_body")) as [->|Hne].
    - rewrite bool_decide_true by done. simpl.
      destruct (results !! "upper_body") as [r|] eqn:Hr.
      + destruct (negb _); [by rewrite lookup_insert_eq|by rewrite Hr].
      + rewrite Hr. by destruct (negb _).
    - rewrite bool_decide_false by done. simpl.
      destruct (results !! "upper_body") as [r|]; [|done].
      destruct (negb _); [by rewrite lookup_insert_ne|done]. }
  clearbody r1.
  set (r2 := match r1 !! "lower_body" with
             | Some r => if negb (route_locked locked "lower_body")
                         then <["lower_body" := {| rr_value_id := None; rr_value := None; rr_color := rr_color r |}]> r1 else r1
             | None => r1 end).
  assert (H2 : forall m, r2 !! m
               = if bool_decide (m = "lower_body") && negb (route_locked locked m)
                 then (fun r => {| rr_value_id := None; rr_value := None; rr_color := rr_color r |}) <$> r1 !! m else r1 !! m).
  { intros m. subst r2. destruct (decide (m = "lower_body")) as [->|Hne].
    - rewrite bool_decide_true by done. simpl.
      destruct (r1 !! "lower_body") as [r|] eqn:Hr.
      + destruct (negb _); [by rewrite lookup_insert_eq|by rewrite Hr].
      + rewrite Hr. by destruct (negb _).
    - rewrite bool_decide_false by done. simpl.
      destruct (r1 !! "lower_body") as [r|]; [|done].
      destruct (negb _); [by rewrite lookup_insert_ne|done]. }
  clearbody r2. rewrite H2, H1.
  destruct (decide (n = "lower_body")) as [->|Hl].
  - rewrite (bool_decide_true ("lower_body" = "lower_body")) by done.
    rewrite (bool_decide_false ("lower_body" = "upper_body")) by done.
    rewrite bool_decide_true by (by right). done.
  - rewrite (bool_decide_false (n = "lower_body")) by done. simpl.
    destruct (decide (n = "upper_body")) as [->|Hu].
    + rewrite (bool_decide_true ("upper_body" = "upper_body")) by done.
      rewrite bool_decide_true by (by left). done.
    + rewrite (bool_decide_false (n = "upper_body")) by done.
      rewrite bool_decide_false by (intros [?|?]; done). done.
Qed.

End RouteFacts.

(** The route [/randomize-all] returns an entry exactly for the slots of
    the schema that are not locked.  The entry holds what was drawn for the
    slot (no value, or id and name of one of its options; a palette colour
    where the slot supports one and a palette is enabled and named), except
    that in full-body mode, when the entry of [full_body] has a non-empty
    id, the entries of [upper_body] and [lower_body] keep the colour only
    and have neither id nor value.  A locked [full_body] has no entry, and
    nothing is overridden then. *)
Theorem randomize_all_route_spec rng randbelow gen locked palette_enabled palette_id
  full_body_mode g :
  let results :=
    fst (randomize_all_route rng randbelow gen locked palette_enabled palette_id
           full_body_mode g) in
  let override n :=
    full_body_mode
    && bool_decide (n = "upper_body" \/ n = "lower_body")
    && PyStr.truthy_opt ((results !! "full_body") ≫= rr_value_id) in
  forall n,
    match results !! n with
    | None => ~ In n slot_names \/ route_locked locked n = true
    | Some r =>
        In n slot_names /\ route_locked locked n = false
        /\ exists drawn,
             route_entry_ok gen palette_enabled palette_id n drawn
             /\ rr_color r = rr_color drawn
             /\ if override n then rr_value_id r = None /\ rr_value r = None
                else r = drawn
    end.
Proof.
  cbv zeta. unfold randomize_all_route.
  pose proof (all_route_loop_inv rng randbelow gen locked palette_enabled palette_id
                slot_names [] (∅, None, g)) as Hinv.
  destruct (foldl _ _ slot_names) as [[results fbv] g1].
  destruct Hinv as [Hfb Hall].
  { split; [done|]. intros n. cbn [fst]. rewrite lookup_empty. left. tauto. }
  cbn [fst snd] in Hfb, Hall. rewrite app_nil_l in Hall. cbn [fst].
  intros n.
  destruct (full_body_mode && PyStr.truthy_opt fbv) eqn:Hov.
  - apply andb_true_iff in Hov as [-> Hfbv].
    rewrite !route_override_lookup.
    rewrite (bool_decide_false ("full_body" = "upper_body" \/ "full_body" = "lower_body"))
      by (intros [?|?]; done).
    cbn [andb]. rewrite <- Hfb, Hfbv, andb_true_r.
    specialize (Hall n). destruct (results !! n) as [r|] eqn:Hr.
    + destruct Hall as (Hin & Hl & Hok). rewrite Hl. cbn [negb]. rewrite andb_true_r.
      destruct (bool_decide (n = "upper_body" \/ n = "lower_body")); simpl.
      * split; [done|]. split; [done|]. exists r. by split; [|split].
      * split; [done|]. split; [done|]. exists r. by split; [|split].
    + destruct (_ && _); simpl; exact Hall.
  - specialize (Hall n). destruct (results !! n) as [r|] eqn:Hr; [|exact Hall].
    destruct Hall as (Hin & Hl & Hok). split; [done|]. split; [done|]. exists r.
    split; [done|]. split; [done|].
    rewrite <- Hfb.
    destruct full_body_mode; [|done]. simpl in Hov. rewrite Hov. by rewrite andb_false_r.
Qed.

Section SlotsRouteFacts.

Variable rng : Type.
Variable randbelow : rng -> nat -> nat * rng.
Variable gen : PromptGenerator.
Variable locked : gmap string bool.
Variable palette_enabled : bool.
Variable palette_id : option string.
Variable full_body_mode : bool.
Variable current_full_body : option string.

Lemma slots_route_entry_mono (P Q : Prop) n r :
  (P -> Q) ->
  slots_route_entry gen palette_enabled palette_id full_body_mode current_full_body P n r ->
  slots_route_entry gen palette_enabled palette_id full_body_mode current_full_body Q n r.
Proof.
  intros HQP (drawn & Hok & Hc & Hcase & Hcur). exists drawn.
  split; [done|]. split; [done|]. split; [done|]. intros HQ. apply Hcur. tauto.
Qed.

Lemma slots_route_step_inv processed st name :
  slots_route_inv gen locked palette_enabled palette_id full_body_mode current_full_body
    processed st ->
  slots_route_inv gen locked palette_enabled palette_id full_body_mode current_full_body
    (processed ++ [name])
    (randomize_slots_route_step rng randbelow gen locked palette_enabled palette_id
       full_body_mode st name).
Proof.
  destruct st as [[results fbv] g]. intros [Hfb Hall]. cbn [fst snd] in Hfb.
  assert (Hprev : ~ In "full_body" (processed ++ [name]) -> ~ In "full_body" processed).
  { intros H Hin. apply H, in_or_app. by left. }
  assert (Hskip : slots_route_inv gen locked palette_enabled palette_id full_body_mode
                    current_full_body (processed ++ [name]) (results, fbv, g)
                  \/ (In name slot_names /\ route_locked locked name = false)).
  { destruct (dict_has name SLOT_DEFINITIONS) eqn:Hdecl.
    - apply dict_has_slot_names in Hdecl.
      destruct (route_locked locked name) eqn:Hl; [|by right]. left.
      split; [intros H; by apply Hfb, Hprev|].
      intros n. specialize (Hall n). cbn [fst snd] in *.
      destruct (results !! n) as [r|].
      + destruct Hall as (Hin & Hn & Hl' & He).
        split; [apply in_or_app; by left|]. split; [done|]. split; [done|].
        eapply slots_route_entry_mono; [|exact He]. intros H. apply in_or_app. by left.
      + destruct (decide (n = name)) as [->|Hne]; [right; by right|].
        destruct Hall as [Hnin|?]; [left|by right].
        intros Hin. apply in_app_or in Hin as [?|[?|[]]]; congruence.
    - left. assert (Hnd : ~ In name slot_names).
      { intros H. apply dict_has_slot_names in H. congruence. }
      split; [intros H; by apply Hfb, Hprev|].
      intros n. specialize (Hall n). cbn [fst snd] in *.
      destruct (results !! n) as [r|].
      + destruct Hall as (Hin & Hn & Hl' & He).
        split; [apply in_or_app; by left|]. split; [done|]. split; [done|].
        eapply slots_route_entry_mono; [|exact He]. intros H. apply in_or_app. by left.
      + destruct (decide (n = name)) as [->|Hne]; [right; by left|].
        destruct Hall as [Hnin|?]; [left|by right].
        intros Hin. apply in_app_or in Hin as [?|[?|[]]]; congruence. }
  unfold randomize_slots_route_step.
  destruct (dict_has name SLOT_DEFINITIONS) eqn:Hdecl; cbn [negb].
  2: { destruct Hskip as [H|[H _]]; [exact H|].
       apply dict_has_slot_names in H. congruence. }
  destruct (route_locked locked name) eqn:Hl.
  { destruct Hskip as [H|[_ H]]; [exact H|discriminate]. }
  clear Hskip. apply dict_has_slot_names in Hdecl.
  pose proof (route_draw_ok rng randbelow gen palette_enabled palette_id name g) as Hdraw.
  destruct (route_sample rng randbelow gen name g) as [[value_id value] g1].
  destruct (route_color rng randbelow gen name palette_enabled palette_id g1)
    as [color g2].
  split.
  - cbn [fst snd]. intros Hnin.
    destruct (String.eqb name "full_body") eqn:Hn.
    + apply String.eqb_eq in Hn as ->. exfalso. apply Hnin, in_or_app. right. by left.
    + by apply Hfb, Hprev.
  - intros n. specialize (Hall n). cbn [fst snd] in *.
    destruct (decide (n = name)) as [->|Hne].
    + rewrite lookup_insert_eq.
      split; [apply in_or_app; right; by left|]. split; [done|]. split; [done|].
      exists {| rr_value_id := value_id; rr_value := value; rr_color := color |}.
      split; [done|]. split; [done|].
      set (ul := String.eqb name "upper_body" || String.eqb name "lower_body").
      assert (Hul : ul = true -> (name = "upper_body" \/ name = "lower_body")
                                 /\ String.eqb name "full_body" = false).
      { subst ul. intros H. apply orb_true_iff in H as [H|H];
          apply String.eqb_eq in H as ->; auto. }
      destruct (full_body_mode && ul) eqn:Hg; cbn [andb].
      * apply andb_true_iff in Hg as [-> Hu]. destruct (Hul Hu) as [Hname Hnfb].
        rewrite Hnfb. split.
        -- destruct (PyStr.truthy_opt fbv); [right; by repeat split|by left].
        -- intros Hnin. rewrite (Hfb (Hprev Hnin)).
           by destruct (PyStr.truthy_opt current_full_body).
      * split; [by left|]. intros _. done.
    + rewrite lookup_insert_ne by done.
      destruct (results !! n) as [r|].
      * destruct Hall as (Hin & Hn & Hl' & He).
        split; [apply in_or_app; by left|]. split; [done|]. split; [done|].
        eapply slots_route_entry_mono; [|exact He]. intros H. apply in_or_app. by left.
      * destruct Hall as [Hnin|?]; [left|by right].
        intros Hin. apply in_app_or in Hin as [?|[?|[]]]; congruence.
Qed.

Lemma slots_route_loop_inv names processed st :
  slots_route_inv gen locked palette_enabled palette_id full_body_mode current_full_body
    processed st ->
  slots_route_inv gen locked palette_enabled palette_id full_body_mode current_full_body
    (processed ++ names)
    (foldl (randomize_slots_route_step rng randbelow gen locked palette_enabled palette_id
              full_body_mode) st names).
Proof.
  revert processed st. induction names as [|name names IH]; intros processed st Hinv.
  - by rewrite app_nil_r.
  - simpl. replace (processed ++ name :: names) with ((processed ++ [name]) ++ names)
      by (by rewrite <- app_assoc).
    apply IH. by apply slots_route_step_inv.
Qed.

End SlotsRouteFacts.

(** The route [/randomize] returns an entry exactly for the requested
    names that the schema declares and that are not locked.  The colour of an
    entry is the drawn one; the entry is what was drawn for the slot, or, in
    full-body mode and for [upper_body] and [lower_body] only, an entry
    without id and value.  When [full_body] is not among the requested
    names, the second case holds exactly when the current full-body id of the
    request is not empty. *)
Theorem randomize_slots_route_spec rng randbelow gen requested locked palette_enabled
  palette_id full_body_mode current_full_body g :
  let results :=
    fst (randomize_slots_route rng randbelow gen requested locked palette_enabled
           palette_id full_body_mode current_full_body g) in
  forall n,
    match results !! n with
    | None => ~ In n requested \/ ~ In n slot_names \/ route_locked locked n = true
    | Some r =>
        In n requested /\ In n slot_names /\ route_locked locked n = false
        /\ exists drawn,
             route_entry_ok gen palette_enabled palette_id n drawn
             /\ rr_color r = rr_color drawn
             /\ (r = drawn
                 \/ (full_body_mode = true /\ (n = "upper_body" \/ n = "lower_body")
                     /\ rr_value_id r = None /\ rr_value r = None))
             /\ (~ In "full_body" requested ->
                 if full_body_mode
                    && (String.eqb n "upper_body" || String.eqb n "lower_body")
                    && PyStr.truthy_opt current_full_body
                 then rr_value_id r = None /\ rr_value r = None
                 else r = drawn)
    end.
Proof.
  cbv zeta. unfold randomize_slots_route.
  pose proof (slots_route_loop_inv rng randbelow gen locked palette_enabled palette_id
                full_body_mode current_full_body requested [] (∅, current_full_body, g))
    as Hinv.
  destruct (foldl _ _ requested) as [[results fbv] g1].
  destruct Hinv as [_ Hall].
  { split; [done|]. intros n. cbn [fst]. rewrite lookup_empty. left. tauto. }
  cbn [fst snd] in Hall. rewrite app_nil_l in Hall. cbn [fst].
  intros n. specialize (Hall n). destruct (results !! n) as [r|]; exact Hall.
Qed.

(** On the sample catalog: [upper_body] asked for alone is judged against
    the current full-body id; asked for before [full_body] in one request it
    is judged against the current id as well, not against the id drawn in
    that request. *)
Example randomize_slots_route_sample :
  let route requested current :=
    (fun results => (rr_value_id <$> results !! "upper_body",
                     rr_value_id <$> results !! "full_body"))
      (fst (randomize_slots_route nat Sample.counter_randbelow Sample.sample_gen
              requested ∅ true None true current 0%nat)) in
  route ["upper_body"] (Some "dress_casual") = (Some None, None)
  /\ route ["upper_body"] None = (Some (Some "shirt"), None)
  /\ route ["upper_body"; "full_body"] None = (Some (Some "shirt"), Some (Some "dress_red"))
  /\ route ["full_body"; "upper_body"] None = (Some None, Some (Some "dress_casual")).
Proof. repeat split; vm_compute; reflexivity. Qed.

(** ** The tokens of a prompt *)






(** A lock on [lower_body] whose text is the id of an item that covers the
    legs removes the [legs] segment from the prompt of [generate], whatever
    the full-body mode is and whether or not the lower-body item is in the
    prompt itself. *)
Theorem generate_lower_body_lock_covers_legs rng randbelow seed_rng gen ambient seed
  language palette fbm prefix locks :
  lock_given (locks "lower_body") = true ->
  lower_body_id_covers_legs gen (Some (PyStr.strip (locks "lower_body"))) = true ->
  exists config g,
    generate rng randbelow seed_rng gen ambient seed language palette fbm false prefix locks
    = Some (with_prefix prefix (_build_prompt_localized gen config language), g)
    /\ prompt_lower_covers_legs gen config = true
    /\ slot_part gen config language "legs" = None.
Proof.
  intros Hlock Hcov.
  destruct (generate_config_spec rng randbelow seed_rng gen ambient seed palette fbm false
              locks) as (config & g & Hcfg & Hmode & Hslots).
  exists config, g. rewrite generate_unfold, Hcfg. split; [done|].
  destruct (Hslots "lower_body") as (lower & Hlower & He & _ & _ & Hv & _);
    [vm_compute; tauto|].
  rewrite Hlock in Hv. destruct Hv as [_ Hvid]. simpl in He.
  assert (Ht : PyStr.truthy_opt (Some (PyStr.strip (locks "lower_body"))) = true).
  { unfold lock_given in Hlock. apply andb_true_iff in Hlock as [_ Hlock]. exact Hlock. }
  assert (Hflag : prompt_lower_covers_legs gen config = true).
  { unfold prompt_lower_covers_legs. by rewrite Hlower, He, Hvid, Ht, Hcov. }
  split; [done|].
  destruct (Hslots "legs") as (legs & Hlegs & _); [vm_compute; tauto|].
  unfold slot_part. rewrite Hlegs.
  assert (Hskip : slot_skipped gen config "legs" legs = true).
  { unfold slot_skipped. rewrite Hflag. cbn [String.eqb Ascii.eqb Bool.eqb andb].
    by rewrite orb_true_r. }
  by rewrite Hskip.
Qed.

Lemma generate_lower_body_lock_covers_legs_witness :
  exists config g,
    generate nat Sample.counter_randbelow Sample.counter_seed Sample.sample_gen 0%nat 7%Z
      "en" "none" true false ""
      (fun n => if String.eqb n "lower_body" then " skirt_long " else "")
    = Some (with_prefix "" (_build_prompt_localized Sample.sample_gen config "en"), g)
    /\ prompt_lower_covers_legs Sample.sample_gen config = true
    /\ slot_part Sample.sample_gen config "en" "legs" = None.
Proof.
  apply (generate_lower_body_lock_covers_legs nat Sample.counter_randbelow
           Sample.counter_seed Sample.sample_gen 0%nat 7%Z "en" "none" true ""
           (fun n => if String.eqb n "lower_body" then " skirt_long " else ""));
    reflexivity.
Defined.

(** ** The word index of a catalog *)

Lemma word_fold_lookup (v : string * string * string) ws wi w x :
  In x (default []
          (dict_get w
             (foldl (fun wi w' =>
                       if (2 <? String.length w')%nat then dict_append w' v wi else wi)
                    wi ws)))
  <-> In x (default [] (dict_get w wi))
      \/ (x = v /\ In w ws /\ (2 < String.length w)%nat).
Proof.
  revert wi. induction ws as [|w' ws IH]; intros wi.
  - simpl. tauto.
  - simpl foldl. rewrite IH. clear IH.
    destruct (2 <? String.length w')%nat eqn:Hlen.
    + apply Nat.ltb_lt in Hlen. rewrite dict_get_dict_append.
      destruct (String.eqb w w') eqn:Hw.
      * apply String.eqb_eq in Hw as ->. simpl. rewrite in_app_iff. simpl.
        intuition (subst; auto).
      * assert (w' <> w) by (intros ->; by rewrite String.eqb_refl in Hw).
        simpl. intuition congruence.
    + apply Nat.ltb_ge in Hlen. simpl. split; [tauto|].
      intros [?|(-> & [->|?] & ?)]; [tauto|lia|tauto].
Qed.

Lemma in_index_words w name :
  In w (index_words name)
  <-> PyStr.truthy (exact_key name) = true
      /\ (1 < length (PyStr.split_ws (exact_key name)))%nat
      /\ In w (PyStr.split_ws (exact_key name)) /\ (2 < String.length w)%nat.
Proof.
  unfold index_words. destruct (PyStr.truthy (exact_key name)); simpl.
  - destruct (1 <? _)%nat eqn:Hl.
    + apply Nat.ltb_lt in Hl. rewrite filter_In, Nat.ltb_lt. tauto.
    + apply Nat.ltb_ge in Hl. simpl. split; [tauto|]. intros (_ & ? & _). lia.
  - split; [tauto|]. by intros [? _].
Qed.

Lemma word_index_index_name name s i idx w x :
  In x (default [] (dict_get w (word_index (_index_name name s i idx))))
  <-> In x (default [] (dict_get w (word_index idx)))
      \/ (x = (s, i, exact_key name) /\ In w (index_words name)).
Proof.
  rewrite in_index_words. unfold _index_name. fold (exact_key name).
  destruct (PyStr.truthy (exact_key name)); cbn [negb word_index].
  - destruct (1 <? length (PyStr.split_ws (exact_key name)))%nat eqn:Hl.
    + apply Nat.ltb_lt in Hl. rewrite word_fold_lookup. tauto.
    + apply Nat.ltb_ge in Hl. split; [tauto|]. intros [?|(_ & _ & ? & _)]; [done|lia].
  - split; [tauto|]. intros [?|(_ & ? & _)]; [done|discriminate].
Qed.

Lemma word_index_calls calls idx w x :
  In x (default []
          (dict_get w
             (word_index
                (foldl (fun idx (call : string * (string * string)) =>
                          _index_name (fst call) (fst (snd call)) (snd (snd call)) idx)
                       idx calls))))
  <-> In x (default [] (dict_get w (word_index idx)))
      \/ exists name s i,
           In (name, (s, i)) calls /\ x = (s, i, exact_key name)
           /\ In w (index_words name).
Proof.
  revert idx. induction calls as [|[n [s i]] calls IH]; intros idx.
  - simpl. split; [tauto|]. intros [?|(? & ? & ? & [] & _)]. done.
  - simpl foldl. rewrite IH, word_index_index_name. simpl. split.
    + intros [[?|[-> ?]]|(name & s' & i' & ? & ? & ?)]; [by left| |].
      * right. exists n, s, i. auto.
      * right. exists name, s', i'. auto.
    + intros [?|(name & s' & i' & [Heq|?] & ? & ?)]; [by left; left| |].
      * injection Heq as -> -> ->. left. right. auto.
      * right. exists name, s', i'. auto.
Qed.

Lemma candidate_set_built gen w c :
  c ∈ candidate_set (default [] (dict_get w (word_index (build_item_indices gen))))
  <-> exists name, In (name, c) (index_calls gen) /\ In w (index_words name).
Proof.
  unfold candidate_set. rewrite elem_of_remove_dups, list_elem_of_In, in_map_iff.
  rewrite build_item_indices_calls. split.
  - intros ([[s i] full] & <- & Hin). apply word_index_calls in Hin as [[]|Hin].
    destruct Hin as (name & s' & i' & Hcall & Heq & Hw). injection Heq as -> -> ->.
    exists name. auto.
  - intros (name & Hcall & Hw). destruct c as [s i].
    exists (s, i, exact_key name). split; [done|].
    apply word_index_calls. right. exists name, s, i. auto.
Qed.

(** The loop of [_match_words] keeps the candidates of the first long word
    that all the later long words have as well. *)
Lemma match_words_fold (cand : string -> list (string * string)) ws processed acc :
  (forall w, NoDup (cand w)) ->
  match acc with
  | None => forall w, In w processed -> (String.length w <= 2)%nat
  | Some cs =>
      NoDup cs /\ (exists w, In w processed /\ (2 < String.length w)%nat)
      /\ forall c, c ∈ cs <-> forall w, In w processed -> (2 < String.length w)%nat ->
                                         c ∈ cand w
  end ->
  match foldl (fun candidates word =>
                 if (String.length word <=? 2)%nat then candidates
                 else match candidates with
                      | None => Some (cand word)
                      | Some cs => Some (filter (fun c => c ∈ cand word) cs)
                      end) acc ws with
  | None => forall w, In w (processed ++ ws) -> (String.length w <= 2)%nat
  | Some cs =>
      NoDup cs /\ (exists w, In w (processed ++ ws) /\ (2 < String.length w)%nat)
      /\ forall c, c ∈ cs <-> forall w, In w (processed ++ ws) ->
                                         (2 < String.length w)%nat -> c ∈ cand w
  end.
Proof.
  intros Hnd. revert processed acc. induction ws as [|w0 ws IH]; intros processed acc Hacc.
  - simpl. by rewrite app_nil_r.
  - simpl foldl.
    replace (processed ++ w0 :: ws) with ((processed ++ [w0]) ++ ws)
      by (by rewrite <- app_assoc).
    apply IH. clear IH.
    destruct (String.length w0 <=? 2)%nat eqn:Hlen.
    + apply Nat.leb_le in Hlen. destruct acc as [cs|].
      * destruct Hacc as (Hn & (w & Hw & Hwl) & Hcs). split; [done|]. split.
        -- exists w. split; [apply in_or_app; by left|done].
        -- intros c. rewrite Hcs. split.
           ++ intros H w' Hin Hl. apply in_app_or in Hin as [?|[<-|[]]]; [auto|lia].
           ++ intros H w' Hin Hl. apply H; [apply in_or_app; by left|done].
      * intros w Hin. apply in_app_or in Hin as [?|[<-|[]]]; [auto|done].
    + apply Nat.leb_gt in Hlen. destruct acc as [cs|].
      * destruct Hacc as (Hn & _ & Hcs). split; [by apply NoDup_filter|]. split.
        -- exists w0. split; [apply in_or_app; right; by left|done].
        -- intros c. rewrite list_elem_of_filter, Hcs. split.
           ++ intros [Hc H] w' Hin Hl. apply in_app_or in Hin as [?|[<-|[]]]; auto.
           ++ intros H. split.
              ** apply H; [apply in_or_app; right; by left|done].
              ** intros w' Hin Hl. apply H; [apply in_or_app; by left|done].
      * split; [apply Hnd|]. split.
        -- exists w0. split; [apply in_or_app; right; by left|done].
        -- intros c. split.
           ++ intros Hc w' Hin Hl. apply in_app_or in Hin as [Hin|[<-|[]]]; [|done].
              specialize (Hacc _ Hin). lia.
           ++ intros H. apply H; [apply in_or_app; right; by left|done].
Qed.

(** For a parser built from a generator, the candidates that the loop of
    [_match_words] leaves are, without repetition, the (slot, item) pairs
    that have every word of the text longer than two characters among the
    words of one of their names of several words; there are none to speak of
    ([None]) exactly when the text has no such long word. *)
Theorem match_words_built gen parser words :
  indices parser = build_item_indices gen ->
  match match_words_candidates parser words with
  | None => forall w, In w words -> (String.length w <= 2)%nat
  | Some cs =>
      NoDup cs
      /\ (exists w, In w words /\ (2 < String.length w)%nat)
      /\ forall c,
           In c cs
           <-> forall w, In w words -> (2 < String.length w)%nat ->
                 exists name, In (name, c) (index_calls gen) /\ In w (index_words name)
  end.
Proof.
  intros Hidx. unfold match_words_candidates. rewrite Hidx.
  pose proof (match_words_fold
                (fun w => candidate_set
                            (default [] (dict_get w (word_index (build_item_indices gen)))))
                words [] None) as H.
  cbv beta in H. rewrite app_nil_l in H.
  destruct (foldl _ None words) as [cs|].
  - destruct H as (Hn & Hex & Hcs).
    { intros w. apply NoDup_remove_dups. }
    { intros w []. }
    split; [done|]. split; [done|]. intros c. rewrite <- list_elem_of_In, Hcs.
    split; intros H w Hin Hl; apply candidate_set_built; auto.
  - apply H; [intros w; apply NoDup_remove_dups|intros w []].
Qed.

Lemma match_words_built_witness :
  match match_words_candidates Sample.uniform_parser ["school"; "uniform"] with
  | None => forall w, In w ["school"; "uniform"] -> (String.length w <= 2)%nat
  | Some cs =>
      NoDup cs
      /\ (exists w, In w ["school"; "uniform"] /\ (2 < String.length w)%nat)
      /\ forall c,
           In c cs
           <-> forall w, In w ["school"; "uniform"] -> (2 < String.length w)%nat ->
                 exists name, In (name, c) (index_calls Sample.uniform_gen)
                              /\ In w (index_words name)
  end.
Proof.
  apply (match_words_built Sample.uniform_gen Sample.uniform_parser ["school"; "uniform"]).
  vm_compute. reflexivity.
Defined.

(** ** Randomization: colours in colour mode [random] *)


